(** * Backtesting framework: a shallow embedding of the C++ sources

    The development follows the layout of the repository:
    - [framework/strategy.h]: [Bar], [Trade], [Position], [RiskConfig] and the
      [Strategy] interface;
    - [automation_outputs/sma_strategy_mt_correction.cpp]: [SmaCrossStrategy];
    - [framework/strategy_tester.cpp]: the validators, the metrics helpers and
      [test_strategy];
    - [framework/strategy_registry.cpp]: the SQLite-backed [StrategyRegistry],
      the CSV export/import of [StrategyManagement], the [ExplorationManager]
      and the [SmartStrategyTester];
    - the random generation of parameters and configurations of
      [framework/strategy_tester.cpp] and [framework/strategy_registry.cpp].

    Numbers.  A C++ [double] is modelled by an exact rational ([Q]): there is
    no rounding, no infinity, no NaN and no signed zero, and a division by
    zero yields [0] (the convention of [Qdiv]).  A C++ [int] is modelled by
    [Z]; counters are assumed not to overflow.  [std::sqrt] has no rational
    counterpart and is a parameter of the model.

    Libraries.  The formatted output and the parsing of the C++ standard
    library ([operator<<], [std::stod], [std::stoi], [std::getline]) and the
    SQLite statements of the registry are modelled by what they do on the
    values the code hands them.  [rand()] is modelled by the sequence of the
    numbers it returns.  Console output is left out. *)

From Stdlib Require Import ZArith NArith QArith Qabs Qround Qpower Lqa Lia List String Ascii Bool.

From stdpp Require Import gmap strings.
Import ListNotations.

Local Open Scope Z_scope.
Local Open Scope Q_scope.

(** ** Arithmetic of [double] values *)

Definition Qltb (x y : Q) : bool := negb (Qle_bool y x).
Definition Qgtb (x y : Q) : bool := Qltb y x.
Definition Qgeb (x y : Q) : bool := Qle_bool y x.

Notation "x <? y" := (Qltb x y) (at level 70, no associativity) : Q_scope.
Notation "x <=? y" := (Qle_bool x y) (at level 70, no associativity) : Q_scope.
Notation "x >? y" := (Qgtb x y) (at level 70, no associativity) : Q_scope.
Notation "x >=? y" := (Qgeb x y) (at level 70, no associativity) : Q_scope.
Notation "x =? y" := (Qeq_bool x y) (at level 70, no associativity) : Q_scope.

(** [std::max(a, b)] is [(a < b) ? b : a] and [std::min(a, b)] is
    [(b < a) ? b : a]. *)
Definition fmax (a b : Q) : Q := if a <? b then b else a.
Definition fmin (a b : Q) : Q := if b <? a then b else a.

(** [static_cast<double>(n)] for an [int] or a [size_t]. *)
Definition to_double (n : Z) : Q := inject_Z n.

(** [static_cast<int>(x)]: truncation towards zero. *)
Definition trunc (x : Q) : Z := Z.quot (Qnum x) (Z.pos (Qden x)).

(** [static_cast<size_t>(n)] for an [int]: reduction modulo [2^64]. *)
Definition size_t_of_int (n : Z) : Z := (n mod 2 ^ 64)%Z.

(** [v.size()] *)
Definition size {A : Type} (v : list A) : Z := Z.of_nat (List.length v).

(** [v[i]] for a vector of doubles; reads outside the vector do not occur in
    the code paths modelled here and yield [0]. *)
Definition at_ (v : list Q) (i : Z) : Q := List.nth (Z.to_nat i) v 0.

(** [std::accumulate(v.begin(), v.end(), 0.0)] *)
Definition accumulate (v : list Q) : Q := List.fold_left Qplus v 0.

(** ** [framework/strategy.h] *)

Module Bar.
Record t : Type := mk {
  date : Z;
  open : Q;
  high : Q;
  low : Q;
  close : Q;
  volume : Q
}.
End Bar.

Module Trade.
Inductive Side : Type := BUY | SELL.
Inductive Type_ : Type := ENTRY | EXIT.

Record t : Type := mk {
  date : Z;
  side : Side;
  type : Type_;
  price : Q;
  quantity : Q;
  pnl : Q;
  symbol : string
}.

Definition is_exit (tr : t) : bool :=
  match type tr with EXIT => true | ENTRY => false end.
End Trade.

Module Position.
Record t : Type := mk {
  symbol : string;
  quantity : Q;
  avg_entry_price : Q;
  current_price : Q;
  unrealized_pnl : Q;
  realized_pnl : Q
}.

(** [Position{}] *)
Definition default : t := mk EmptyString 0 0 0 0 0.
End Position.

Module RiskConfig.
Record t : Type := mk {
  max_position_size : Q;
  max_portfolio_risk : Q;
  max_drawdown : Q;
  stop_loss_pct : Q;
  take_profit_pct : Q;
  enable_trailing_stop : bool;
  trailing_stop_pct : Q;
  enable_volatility_sizing : bool;
  enable_atr_stops : bool;
  atr_period : Q;
  atr_multiplier : Q;
  max_correlation : Q;
  enable_drawdown_breaker : bool;
  drawdown_breaker_pct : Q;
  recovery_mode_risk : Q
}.

(** The member initialisers of [struct RiskConfig]. *)
Definition default : t :=
  mk 10000 0.02 0.10 0.02 0.06 true 0.01 true true 14 2 0.7 true 0.05 0.005.
End RiskConfig.

(** ** [automation_outputs/sma_strategy_mt_correction.cpp] *)

(** [for (const auto& x : v) body] with the loop-carried variables as state. *)
Definition for_each {A S : Type} (v : list A) (body : A -> S -> S) (init : S) : S :=
  List.fold_left (fun st x => body x st) v init.

(** [for (size_t i = 1; i < v.size(); ++i) out.push_back(f(v[i-1], v[i]))] *)
Fixpoint successive {B : Type} (f : Q -> Q -> B) (v : list Q) : list B :=
  match v with
  | prev :: ((cur :: _) as tl) => f prev cur :: successive f tl
  | _ => []
  end.

Module SmaCrossStrategy.

(** The data members of [SmaCrossStrategy], those inherited from [Strategy]
    first ([positions_] is never used and is left out). *)
Record t : Type := mk {
  trades_ : list Trade.t;
  portfolio_value_ : Q;
  risk_config_ : RiskConfig.t;
  sw_ : Z;
  lw_ : Z;
  fee_ : Q;
  symbol_ : string;
  closes_ : list Q;
  short_sma_ : Q;
  long_sma_ : Q;
  position_ : Z;
  current_position_ : Position.t;
  cash_ : Q;
  fees_paid_ : Q;
  last_price_ : Q;
  last_date_ : Z;
  previous_value_ : Q;
  stop_loss_price_ : Q;
  take_profit_price_ : Q;
  trailing_stop_price_ : Q;
  peak_portfolio_value_ : Q;
  max_drawdown_ : Q;
  daily_returns_ : list Q;
  final_sharpe_ratio_ : Q;
  final_max_drawdown_ : Q;
  final_total_return_ : Q
}.

(** Assignments to a single member. *)
Definition set_trades_ (v : list Trade.t) (s : t) : t :=
  {| trades_ := v; portfolio_value_ := portfolio_value_ s; risk_config_ := risk_config_ s;
     sw_ := sw_ s; lw_ := lw_ s; fee_ := fee_ s; symbol_ := symbol_ s; closes_ := closes_ s;
     short_sma_ := short_sma_ s; long_sma_ := long_sma_ s; position_ := position_ s;
     current_position_ := current_position_ s; cash_ := cash_ s; fees_paid_ := fees_paid_ s;
     last_price_ := last_price_ s; last_date_ := last_date_ s;
     previous_value_ := previous_value_ s; stop_loss_price_ := stop_loss_price_ s;
     take_profit_price_ := take_profit_price_ s; trailing_stop_price_ := trailing_stop_price_ s;
     peak_portfolio_value_ := peak_portfolio_value_ s; max_drawdown_ := max_drawdown_ s;
     daily_returns_ := daily_returns_ s; final_sharpe_ratio_ := final_sharpe_ratio_ s;
     final_max_drawdown_ := final_max_drawdown_ s;
     final_total_return_ := final_total_return_ s |}.

Definition set_portfolio_value_ (v : Q) (s : t) : t :=
  {| trades_ := trades_ s; portfolio_value_ := v; risk_config_ := risk_config_ s; sw_ := sw_ s;
     lw_ := lw_ s; fee_ := fee_ s; symbol_ := symbol_ s; closes_ := closes_ s;
     short_sma_ := short_sma_ s; long_sma_ := long_sma_ s; position_ := position_ s;
     current_position_ := current_position_ s; cash_ := cash_ s; fees_paid_ := fees_paid_ s;
     last_price_ := last_price_ s; last_date_ := last_date_ s;
     previous_value_ := previous_value_ s; stop_loss_price_ := stop_loss_price_ s;
     take_profit_price_ := take_profit_price_ s; trailing_stop_price_ := trailing_stop_price_ s;
     peak_portfolio_value_ := peak_portfolio_value_ s; max_drawdown_ := max_drawdown_ s;
     daily_returns_ := daily_returns_ s; final_sharpe_ratio_ := final_sharpe_ratio_ s;
     final_max_drawdown_ := final_max_drawdown_ s;
     final_total_return_ := final_total_return_ s |}.

Definition set_closes_ (v : list Q) (s : t) : t :=
  {| trades_ := trades_ s; portfolio_value_ := portfolio_value_ s;
     risk_config_ := risk_config_ s; sw_ := sw_ s; lw_ := lw_ s; fee_ := fee_ s;
     symbol_ := symbol_ s; closes_ := v; short_sma_ := short_sma_ s; long_sma_ := long_sma_ s;
     position_ := position_ s; current_position_ := current_position_ s; cash_ := cash_ s;
     fees_paid_ := fees_paid_ s; last_price_ := last_price_ s; last_date_ := last_date_ s;
     previous_value_ := previous_value_ s; stop_loss_price_ := stop_loss_price_ s;
     take_profit_price_ := take_profit_price_ s; trailing_stop_price_ := trailing_stop_price_ s;
     peak_portfolio_value_ := peak_portfolio_value_ s; max_drawdown_ := max_drawdown_ s;
     daily_returns_ := daily_returns_ s; final_sharpe_ratio_ := final_sharpe_ratio_ s;
     final_max_drawdown_ := final_max_drawdown_ s;
     final_total_return_ := final_total_return_ s |}.

Definition set_short_sma_ (v : Q) (s : t) : t :=
  {| trades_ := trades_ s; portfolio_value_ := portfolio_value_ s;
     risk_config_ := risk_config_ s; sw_ := sw_ s; lw_ := lw_ s; fee_ := fee_ s;
     symbol_ := symbol_ s; closes_ := closes_ s; short_sma_ := v; long_sma_ := long_sma_ s;
     position_ := position_ s; current_position_ := current_position_ s; cash_ := cash_ s;
     fees_paid_ := fees_paid_ s; last_price_ := last_price_ s; last_date_ := last_date_ s;
     previous_value_ := previous_value_ s; stop_loss_price_ := stop_loss_price_ s;
     take_profit_price_ := take_profit_price_ s; trailing_stop_price_ := trailing_stop_price_ s;
     peak_portfolio_value_ := peak_portfolio_value_ s; max_drawdown_ := max_drawdown_ s;
     daily_returns_ := daily_returns_ s; final_sharpe_ratio_ := final_sharpe_ratio_ s;
     final_max_drawdown_ := final_max_drawdown_ s;
     final_total_return_ := final_total_return_ s |}.

Definition set_long_sma_ (v : Q) (s : t) : t :=
  {| trades_ := trades_ s; portfolio_value_ := portfolio_value_ s;
     risk_config_ := risk_config_ s; sw_ := sw_ s; lw_ := lw_ s; fee_ := fee_ s;
     symbol_ := symbol_ s; closes_ := closes_ s; short_sma_ := short_sma_ s; long_sma_ := v;
     position_ := position_ s; current_position_ := current_position_ s; cash_ := cash_ s;
     fees_paid_ := fees_paid_ s; last_price_ := last_price_ s; last_date_ := last_date_ s;
     previous_value_ := previous_value_ s; stop_loss_price_ := stop_loss_price_ s;
     take_profit_price_ := take_profit_price_ s; trailing_stop_price_ := trailing_stop_price_ s;
     peak_portfolio_value_ := peak_portfolio_value_ s; max_drawdown_ := max_drawdown_ s;
     daily_returns_ := daily_returns_ s; final_sharpe_ratio_ := final_sharpe_ratio_ s;
     final_max_drawdown_ := final_max_drawdown_ s;
     final_total_return_ := final_total_return_ s |}.

Definition set_position_ (v : Z) (s : t) : t :=
  {| trades_ := trades_ s; portfolio_value_ := portfolio_value_ s;
     risk_config_ := risk_config_ s; sw_ := sw_ s; lw_ := lw_ s; fee_ := fee_ s;
     symbol_ := symbol_ s; closes_ := closes_ s; short_sma_ := short_sma_ s;
     long_sma_ := long_sma_ s; position_ := v; current_position_ := current_position_ s;
     cash_ := cash_ s; fees_paid_ := fees_paid_ s; last_price_ := last_price_ s;
     last_date_ := last_date_ s; previous_value_ := previous_value_ s;
     stop_loss_price_ := stop_loss_price_ s; take_profit_price_ := take_profit_price_ s;
     trailing_stop_price_ := trailing_stop_price_ s;
     peak_portfolio_value_ := peak_portfolio_value_ s; max_drawdown_ := max_drawdown_ s;
     daily_returns_ := daily_returns_ s; final_sharpe_ratio_ := final_sharpe_ratio_ s;
     final_max_drawdown_ := final_max_drawdown_ s;
     final_total_return_ := final_total_return_ s |}.

Definition set_current_position_ (v : Position.t) (s : t) : t :=
  {| trades_ := trades_ s; portfolio_value_ := portfolio_value_ s;
     risk_config_ := risk_config_ s; sw_ := sw_ s; lw_ := lw_ s; fee_ := fee_ s;
     symbol_ := symbol_ s; closes_ := closes_ s; short_sma_ := short_sma_ s;
     long_sma_ := long_sma_ s; position_ := position_ s; current_position_ := v;
     cash_ := cash_ s; fees_paid_ := fees_paid_ s; last_price_ := last_price_ s;
     last_date_ := last_date_ s; previous_value_ := previous_value_ s;
     stop_loss_price_ := stop_loss_price_ s; take_profit_price_ := take_profit_price_ s;
     trailing_stop_price_ := trailing_stop_price_ s;
     peak_portfolio_value_ := peak_portfolio_value_ s; max_drawdown_ := max_drawdown_ s;
     daily_returns_ := daily_returns_ s; final_sharpe_ratio_ := final_sharpe_ratio_ s;
     final_max_drawdown_ := final_max_drawdown_ s;
     final_total_return_ := final_total_return_ s |}.

Definition set_cash_ (v : Q) (s : t) : t :=
  {| trades_ := trades_ s; portfolio_value_ := portfolio_value_ s;
     risk_config_ := risk_config_ s; sw_ := sw_ s; lw_ := lw_ s; fee_ := fee_ s;
     symbol_ := symbol_ s; closes_ := closes_ s; short_sma_ := short_sma_ s;
     long_sma_ := long_sma_ s; position_ := position_ s;
     current_position_ := current_position_ s; cash_ := v; fees_paid_ := fees_paid_ s;
     last_price_ := last_price_ s; last_date_ := last_date_ s;
     previous_value_ := previous_value_ s; stop_loss_price_ := stop_loss_price_ s;
     take_profit_price_ := take_profit_price_ s; trailing_stop_price_ := trailing_stop_price_ s;
     peak_portfolio_value_ := peak_portfolio_value_ s; max_drawdown_ := max_drawdown_ s;
     daily_returns_ := daily_returns_ s; final_sharpe_ratio_ := final_sharpe_ratio_ s;
     final_max_drawdown_ := final_max_drawdown_ s;
     final_total_return_ := final_total_return_ s |}.

Definition set_fees_paid_ (v : Q) (s : t) : t :=
  {| trades_ := trades_ s; portfolio_value_ := portfolio_value_ s;
     risk_config_ := risk_config_ s; sw_ := sw_ s; lw_ := lw_ s; fee_ := fee_ s;
     symbol_ := symbol_ s; closes_ := closes_ s; short_sma_ := short_sma_ s;
     long_sma_ := long_sma_ s; position_ := position_ s;
     current_position_ := current_position_ s; cash_ := cash_ s; fees_paid_ := v;
     last_price_ := last_price_ s; last_date_ := last_date_ s;
     previous_value_ := previous_value_ s; stop_loss_price_ := stop_loss_price_ s;
     take_profit_price_ := take_profit_price_ s; trailing_stop_price_ := trailing_stop_price_ s;
     peak_portfolio_value_ := peak_portfolio_value_ s; max_drawdown_ := max_drawdown_ s;
     daily_returns_ := daily_returns_ s; final_sharpe_ratio_ := final_sharpe_ratio_ s;
     final_max_drawdown_ := final_max_drawdown_ s;
     final_total_return_ := final_total_return_ s |}.

Definition set_last_price_ (v : Q) (s : t) : t :=
  {| trades_ := trades_ s; portfolio_value_ := portfolio_value_ s;
     risk_config_ := risk_config_ s; sw_ := sw_ s; lw_ := lw_ s; fee_ := fee_ s;
     symbol_ := symbol_ s; closes_ := closes_ s; short_sma_ := short_sma_ s;
     long_sma_ := long_sma_ s; position_ := position_ s;
     current_position_ := current_position_ s; cash_ := cash_ s; fees_paid_ := fees_paid_ s;
     last_price_ := v; last_date_ := last_date_ s; previous_value_ := previous_value_ s;
     stop_loss_price_ := stop_loss_price_ s; take_profit_price_ := take_profit_price_ s;
     trailing_stop_price_ := trailing_stop_price_ s;
     peak_portfolio_value_ := peak_portfolio_value_ s; max_drawdown_ := max_drawdown_ s;
     daily_returns_ := daily_returns_ s; final_sharpe_ratio_ := final_sharpe_ratio_ s;
     final_max_drawdown_ := final_max_drawdown_ s;
     final_total_return_ := final_total_return_ s |}.

Definition set_last_date_ (v : Z) (s : t) : t :=
  {| trades_ := trades_ s; portfolio_value_ := portfolio_value_ s;
     risk_config_ := risk_config_ s; sw_ := sw_ s; lw_ := lw_ s; fee_ := fee_ s;
     symbol_ := symbol_ s; closes_ := closes_ s; short_sma_ := short_sma_ s;
     long_sma_ := long_sma_ s; position_ := position_ s;
     current_position_ := current_position_ s; cash_ := cash_ s; fees_paid_ := fees_paid_ s;
     last_price_ := last_price_ s; last_date_ := v; previous_value_ := previous_value_ s;
     stop_loss_price_ := stop_loss_price_ s; take_profit_price_ := take_profit_price_ s;
     trailing_stop_price_ := trailing_stop_price_ s;
     peak_portfolio_value_ := peak_portfolio_value_ s; max_drawdown_ := max_drawdown_ s;
     daily_returns_ := daily_returns_ s; final_sharpe_ratio_ := final_sharpe_ratio_ s;
     final_max_drawdown_ := final_max_drawdown_ s;
     final_total_return_ := final_total_return_ s |}.

Definition set_previous_value_ (v : Q) (s : t) : t :=
  {| trades_ := trades_ s; portfolio_value_ := portfolio_value_ s;
     risk_config_ := risk_config_ s; sw_ := sw_ s; lw_ := lw_ s; fee_ := fee_ s;
     symbol_ := symbol_ s; closes_ := closes_ s; short_sma_ := short_sma_ s;
     long_sma_ := long_sma_ s; position_ := position_ s;
     current_position_ := current_position_ s; cash_ := cash_ s; fees_paid_ := fees_paid_ s;
     last_price_ := last_price_ s; last_date_ := last_date_ s; previous_value_ := v;
     stop_loss_price_ := stop_loss_price_ s; take_profit_price_ := take_profit_price_ s;
     trailing_stop_price_ := trailing_stop_price_ s;
     peak_portfolio_value_ := peak_portfolio_value_ s; max_drawdown_ := max_drawdown_ s;
     daily_returns_ := daily_returns_ s; final_sharpe_ratio_ := final_sharpe_ratio_ s;
     final_max_drawdown_ := final_max_drawdown_ s;
     final_total_return_ := final_total_return_ s |}.

Definition set_stop_loss_price_ (v : Q) (s : t) : t :=
  {| trades_ := trades_ s; portfolio_value_ := portfolio_value_ s;
     risk_config_ := risk_config_ s; sw_ := sw_ s; lw_ := lw_ s; fee_ := fee_ s;
     symbol_ := symbol_ s; closes_ := closes_ s; short_sma_ := short_sma_ s;
     long_sma_ := long_sma_ s; position_ := position_ s;
     current_position_ := current_position_ s; cash_ := cash_ s; fees_paid_ := fees_paid_ s;
     last_price_ := last_price_ s; last_date_ := last_date_ s;
     previous_value_ := previous_value_ s; stop_loss_price_ := v;
     take_profit_price_ := take_profit_price_ s; trailing_stop_price_ := trailing_stop_price_ s;
     peak_portfolio_value_ := peak_portfolio_value_ s; max_drawdown_ := max_drawdown_ s;
     daily_returns_ := daily_returns_ s; final_sharpe_ratio_ := final_sharpe_ratio_ s;
     final_max_drawdown_ := final_max_drawdown_ s;
     final_total_return_ := final_total_return_ s |}.

Definition set_take_profit_price_ (v : Q) (s : t) : t :=
  {| trades_ := trades_ s; portfolio_value_ := portfolio_value_ s;
     risk_config_ := risk_config_ s; sw_ := sw_ s; lw_ := lw_ s; fee_ := fee_ s;
     symbol_ := symbol_ s; closes_ := closes_ s; short_sma_ := short_sma_ s;
     long_sma_ := long_sma_ s; position_ := position_ s;
     current_position_ := current_position_ s; cash_ := cash_ s; fees_paid_ := fees_paid_ s;
     last_price_ := last_price_ s; last_date_ := last_date_ s;
     previous_value_ := previous_value_ s; stop_loss_price_ := stop_loss_price_ s;
     take_profit_price_ := v; trailing_stop_price_ := trailing_stop_price_ s;
     peak_portfolio_value_ := peak_portfolio_value_ s; max_drawdown_ := max_drawdown_ s;
     daily_returns_ := daily_returns_ s; final_sharpe_ratio_ := final_sharpe_ratio_ s;
     final_max_drawdown_ := final_max_drawdown_ s;
     final_total_return_ := final_total_return_ s |}.

Definition set_trailing_stop_price_ (v : Q) (s : t) : t :=
  {| trades_ := trades_ s; portfolio_value_ := portfolio_value_ s;
     risk_config_ := risk_config_ s; sw_ := sw_ s; lw_ := lw_ s; fee_ := fee_ s;
     symbol_ := symbol_ s; closes_ := closes_ s; short_sma_ := short_sma_ s;
     long_sma_ := long_sma_ s; position_ := position_ s;
     current_position_ := current_position_ s; cash_ := cash_ s; fees_paid_ := fees_paid_ s;
     last_price_ := last_price_ s; last_date_ := last_date_ s;
     previous_value_ := previous_value_ s; stop_loss_price_ := stop_loss_price_ s;
     take_profit_price_ := take_profit_price_ s; trailing_stop_price_ := v;
     peak_portfolio_value_ := peak_portfolio_value_ s; max_drawdown_ := max_drawdown_ s;
     daily_returns_ := daily_returns_ s; final_sharpe_ratio_ := final_sharpe_ratio_ s;
     final_max_drawdown_ := final_max_drawdown_ s;
     final_total_return_ := final_total_return_ s |}.

Definition set_peak_portfolio_value_ (v : Q) (s : t) : t :=
  {| trades_ := trades_ s; portfolio_value_ := portfolio_value_ s;
     risk_config_ := risk_config_ s; sw_ := sw_ s; lw_ := lw_ s; fee_ := fee_ s;
     symbol_ := symbol_ s; closes_ := closes_ s; short_sma_ := short_sma_ s;
     long_sma_ := long_sma_ s; position_ := position_ s;
     current_position_ := current_position_ s; cash_ := cash_ s; fees_paid_ := fees_paid_ s;
     last_price_ := last_price_ s; last_date_ := last_date_ s;
     previous_value_ := previous_value_ s; stop_loss_price_ := stop_loss_price_ s;
     take_profit_price_ := take_profit_price_ s; trailing_stop_price_ := trailing_stop_price_ s;
     peak_portfolio_value_ := v; max_drawdown_ := max_drawdown_ s;
     daily_returns_ := daily_returns_ s; final_sharpe_ratio_ := final_sharpe_ratio_ s;
     final_max_drawdown_ := final_max_drawdown_ s;
     final_total_return_ := final_total_return_ s |}.

Definition set_max_drawdown_ (v : Q) (s : t) : t :=
  {| trades_ := trades_ s; portfolio_value_ := portfolio_value_ s;
     risk_config_ := risk_config_ s; sw_ := sw_ s; lw_ := lw_ s; fee_ := fee_ s;
     symbol_ := symbol_ s; closes_ := closes_ s; short_sma_ := short_sma_ s;
     long_sma_ := long_sma_ s; position_ := position_ s;
     current_position_ := current_position_ s; cash_ := cash_ s; fees_paid_ := fees_paid_ s;
     last_price_ := last_price_ s; last_date_ := last_date_ s;
     previous_value_ := previous_value_ s; stop_loss_price_ := stop_loss_price_ s;
     take_profit_price_ := take_profit_price_ s; trailing_stop_price_ := trailing_stop_price_ s;
     peak_portfolio_value_ := peak_portfolio_value_ s; max_drawdown_ := v;
     daily_returns_ := daily_returns_ s; final_sharpe_ratio_ := final_sharpe_ratio_ s;
     final_max_drawdown_ := final_max_drawdown_ s;
     final_total_return_ := final_total_return_ s |}.

Definition set_daily_returns_ (v : list Q) (s : t) : t :=
  {| trades_ := trades_ s; portfolio_value_ := portfolio_value_ s;
     risk_config_ := risk_config_ s; sw_ := sw_ s; lw_ := lw_ s; fee_ := fee_ s;
     symbol_ := symbol_ s; closes_ := closes_ s; short_sma_ := short_sma_ s;
     long_sma_ := long_sma_ s; position_ := position_ s;
     current_position_ := current_position_ s; cash_ := cash_ s; fees_paid_ := fees_paid_ s;
     last_price_ := last_price_ s; last_date_ := last_date_ s;
     previous_value_ := previous_value_ s; stop_loss_price_ := stop_loss_price_ s;
     take_profit_price_ := take_profit_price_ s; trailing_stop_price_ := trailing_stop_price_ s;
     peak_portfolio_value_ := peak_portfolio_value_ s; max_drawdown_ := max_drawdown_ s;
     daily_returns_ := v; final_sharpe_ratio_ := final_sharpe_ratio_ s;
     final_max_drawdown_ := final_max_drawdown_ s;
     final_total_return_ := final_total_return_ s |}.

Definition set_final_sharpe_ratio_ (v : Q) (s : t) : t :=
  {| trades_ := trades_ s; portfolio_value_ := portfolio_value_ s;
     risk_config_ := risk_config_ s; sw_ := sw_ s; lw_ := lw_ s; fee_ := fee_ s;
     symbol_ := symbol_ s; closes_ := closes_ s; short_sma_ := short_sma_ s;
     long_sma_ := long_sma_ s; position_ := position_ s;
     current_position_ := current_position_ s; cash_ := cash_ s; fees_paid_ := fees_paid_ s;
     last_price_ := last_price_ s; last_date_ := last_date_ s;
     previous_value_ := previous_value_ s; stop_loss_price_ := stop_loss_price_ s;
     take_profit_price_ := take_profit_price_ s; trailing_stop_price_ := trailing_stop_price_ s;
     peak_portfolio_value_ := peak_portfolio_value_ s; max_drawdown_ := max_drawdown_ s;
     daily_returns_ := daily_returns_ s; final_sharpe_ratio_ := v;
     final_max_drawdown_ := final_max_drawdown_ s;
     final_total_return_ := final_total_return_ s |}.

Definition set_final_max_drawdown_ (v : Q) (s : t) : t :=
  {| trades_ := trades_ s; portfolio_value_ := portfolio_value_ s;
     risk_config_ := risk_config_ s; sw_ := sw_ s; lw_ := lw_ s; fee_ := fee_ s;
     symbol_ := symbol_ s; closes_ := closes_ s; short_sma_ := short_sma_ s;
     long_sma_ := long_sma_ s; position_ := position_ s;
     current_position_ := current_position_ s; cash_ := cash_ s; fees_paid_ := fees_paid_ s;
     last_price_ := last_price_ s; last_date_ := last_date_ s;
     previous_value_ := previous_value_ s; stop_loss_price_ := stop_loss_price_ s;
     take_profit_price_ := take_profit_price_ s; trailing_stop_price_ := trailing_stop_price_ s;
     peak_portfolio_value_ := peak_portfolio_value_ s; max_drawdown_ := max_drawdown_ s;
     daily_returns_ := daily_returns_ s; final_sharpe_ratio_ := final_sharpe_ratio_ s;
     final_max_drawdown_ := v; final_total_return_ := final_total_return_ s |}.

Definition set_final_total_return_ (v : Q) (s : t) : t :=
  {| trades_ := trades_ s; portfolio_value_ := portfolio_value_ s;
     risk_config_ := risk_config_ s; sw_ := sw_ s; lw_ := lw_ s; fee_ := fee_ s;
     symbol_ := symbol_ s; closes_ := closes_ s; short_sma_ := short_sma_ s;
     long_sma_ := long_sma_ s; position_ := position_ s;
     current_position_ := current_position_ s; cash_ := cash_ s; fees_paid_ := fees_paid_ s;
     last_price_ := last_price_ s; last_date_ := last_date_ s;
     previous_value_ := previous_value_ s; stop_loss_price_ := stop_loss_price_ s;
     take_profit_price_ := take_profit_price_ s; trailing_stop_price_ := trailing_stop_price_ s;
     peak_portfolio_value_ := peak_portfolio_value_ s; max_drawdown_ := max_drawdown_ s;
     daily_returns_ := daily_returns_ s; final_sharpe_ratio_ := final_sharpe_ratio_ s;
     final_max_drawdown_ := final_max_drawdown_ s; final_total_return_ := v |}.
(** [current_position_.quantity] *)
Definition quantity (s : t) : Q := Position.quantity (current_position_ s).

(** The constructor. *)
Definition make (short_win long_win : Z) (fee : Q) (symbol : string) : t :=
  let sw := if (short_win <? 1)%Z then 1%Z else short_win in
  let lw := if (long_win <? sw)%Z then sw else long_win in
  {| trades_ := [];
     portfolio_value_ := 100000;
     risk_config_ :=
       {| RiskConfig.max_position_size := 10000;
          RiskConfig.max_portfolio_risk := 0.02;
          RiskConfig.max_drawdown := 0.10;
          RiskConfig.stop_loss_pct := 0.02;
          RiskConfig.take_profit_pct := 0.06;
          RiskConfig.enable_trailing_stop := true;
          RiskConfig.trailing_stop_pct := 0.01;
          RiskConfig.enable_volatility_sizing := true;
          RiskConfig.enable_atr_stops := true;
          RiskConfig.atr_period := 14;
          RiskConfig.atr_multiplier := 2;
          RiskConfig.max_correlation := 0.7;
          RiskConfig.enable_drawdown_breaker := true;
          RiskConfig.drawdown_breaker_pct := 0.05;
          RiskConfig.recovery_mode_risk := 0.005 |};
     sw_ := sw; lw_ := lw; fee_ := fee; symbol_ := symbol;
     closes_ := []; short_sma_ := 0; long_sma_ := 0;
     position_ := 0; current_position_ := Position.default;
     cash_ := 0; fees_paid_ := 0; last_price_ := 0; last_date_ := 0; previous_value_ := 0;
     stop_loss_price_ := 0; take_profit_price_ := 0; trailing_stop_price_ := 0;
     peak_portfolio_value_ := 0; max_drawdown_ := 0; daily_returns_ := [];
     final_sharpe_ratio_ := 0; final_max_drawdown_ := 0; final_total_return_ := 0 |}.

Definition on_start (s : t) : t :=
  {| trades_ := [];
     portfolio_value_ := 100000;
     risk_config_ := risk_config_ s;
     sw_ := sw_ s; lw_ := lw_ s; fee_ := fee_ s; symbol_ := symbol_ s;
     closes_ := []; short_sma_ := 0; long_sma_ := 0;
     position_ := 0;
     current_position_ := Position.mk (symbol_ s) 0 0 0 0 0;
     cash_ := 100000; fees_paid_ := 0; last_price_ := 0; last_date_ := 0;
     previous_value_ := 100000;
     stop_loss_price_ := 0; take_profit_price_ := 0; trailing_stop_price_ := 0;
     peak_portfolio_value_ := 100000; max_drawdown_ := 0; daily_returns_ := [];
     final_sharpe_ratio_ := final_sharpe_ratio_ s;
     final_max_drawdown_ := final_max_drawdown_ s;
     final_total_return_ := final_total_return_ s |}.

(** *** Trade statistics *)

Definition calculate_win_rate (s : t) : Q :=
  let '(completed_trades, winning_trades) :=
    for_each (trades_ s)
      (fun trade '(completed, winning) =>
         match Trade.type trade with
         | Trade.ENTRY => (completed, winning)
         | Trade.EXIT =>
             ((completed + 1)%Z,
              if Trade.pnl trade >? 0 then (winning + 1)%Z else winning)
         end)
      (0%Z, 0%Z) in
  if (completed_trades =? 0)%Z then 0
  else to_double winning_trades / to_double completed_trades.

Definition calculate_avg_win (s : t) : Q :=
  let '(total_wins, win_count) :=
    for_each (trades_ s)
      (fun trade '(total, count) =>
         match Trade.type trade with
         | Trade.ENTRY => (total, count)
         | Trade.EXIT =>
             if Trade.pnl trade >? 0 then (total + Trade.pnl trade, (count + 1)%Z)
             else (total, count)
         end)
      (0, 0%Z) in
  if (win_count >? 0)%Z then total_wins / to_double win_count else 0.

Definition calculate_avg_loss (s : t) : Q :=
  let '(total_losses, loss_count) :=
    for_each (trades_ s)
      (fun trade '(total, count) =>
         match Trade.type trade with
         | Trade.ENTRY => (total, count)
         | Trade.EXIT =>
             if Trade.pnl trade <? 0 then (total + Trade.pnl trade, (count + 1)%Z)
             else (total, count)
         end)
      (0, 0%Z) in
  if (loss_count >? 0)%Z then total_losses / to_double loss_count else 0.

Definition get_trade_count (s : t) : Z :=
  for_each (trades_ s)
    (fun trade exit_trades =>
       match Trade.type trade with
       | Trade.EXIT => (exit_trades + 1)%Z
       | Trade.ENTRY => exit_trades
       end)
    0%Z.

Definition get_trades (s : t) : list Trade.t := trades_ s.

Definition get_portfolio_value (s : t) : Q := portfolio_value_ s.

Definition get_max_drawdown (s : t) : Q := max_drawdown_ s.

Definition get_total_return (s : t) : Q :=
  if portfolio_value_ s <=? 0 then -1
  else (portfolio_value_ s - 100000) / 100000.

Definition get_positions (s : t) : list Position.t :=
  if negb (quantity s =? 0) then [current_position_ s] else [].

(** *** Position sizing *)

Definition calculate_base_position_size (portfolio_value : Q) (s : t) : Q :=
  let win_rate := calculate_win_rate s in
  let avg_win := calculate_avg_win s in
  let avg_loss := calculate_avg_loss s in
  if (win_rate <=? 0) || (avg_win <=? 0) || (avg_loss >=? 0) then
    portfolio_value * RiskConfig.max_portfolio_risk (risk_config_ s)
  else
    let kelly_pct := win_rate - ((1 - win_rate) * avg_loss / avg_win) in
    let kelly_pct := fmin kelly_pct (RiskConfig.max_portfolio_risk (risk_config_ s)) in
    let kelly_pct := fmax kelly_pct 0.001 in
    portfolio_value * kelly_pct.

Section WithSqrt.

(** [std::sqrt] *)
Variable sqrt : Q -> Q.

Definition calculate_volatility_adjustment (s : t) : Q :=
  if (size (closes_ s) <? 20)%Z then 1
  else
    let returns := successive (fun prev cur => (cur - prev) / prev) (closes_ s) in
    if (size returns <? 2)%Z then 1
    else
      let mean_return := accumulate returns / to_double (size returns) in
      let variance :=
        for_each returns
          (fun ret variance => variance + (ret - mean_return) * (ret - mean_return)) 0 in
      let variance := variance / to_double (size returns - 1) in
      let volatility := sqrt variance in
      let target_volatility := 0.02 in
      let current_volatility := fmax volatility 0.001 in
      let adjustment := target_volatility / current_volatility in
      fmax 0.5 (fmin 2 adjustment).

Definition calculate_position_size (portfolio_value : Q) (s : t) : Q :=
  let base_position_size := calculate_base_position_size portfolio_value s in
  if negb (RiskConfig.enable_volatility_sizing (risk_config_ s)) then base_position_size
  else
    let volatility_adjustment := calculate_volatility_adjustment s in
    let adjusted_size := base_position_size * volatility_adjustment in
    let min_size := portfolio_value * 0.001 in
    let max_size := portfolio_value * RiskConfig.max_portfolio_risk (risk_config_ s) in
    fmax min_size (fmin max_size adjusted_size).

(** *** Stops *)

Definition calculate_atr (period : Z) (s : t) : Q :=
  if (size (closes_ s) <? size_t_of_int (period + 1))%Z then 0
  else
    let true_ranges := successive (fun prev cur => Qabs (cur - prev)) (closes_ s) in
    if (size true_ranges <? size_t_of_int period)%Z then 0
    else
      let start_idx := (size true_ranges - period)%Z in
      let atr_sum :=
        for_each (List.skipn (Z.to_nat start_idx) true_ranges)
          (fun tr atr_sum => atr_sum + tr) 0 in
      atr_sum / to_double period.

(** [risk_config_.atr_period] is a [double]; it is converted to [size_t] in
    the guards and to [int] at the call of [calculate_atr]. *)
Definition calculate_atr_stop_loss (entry_price : Q) (s : t) : Q :=
  let rc := risk_config_ s in
  if negb (RiskConfig.enable_atr_stops rc)
     || (size (closes_ s) <? size_t_of_int (trunc (RiskConfig.atr_period rc)))%Z
  then entry_price * (1 - RiskConfig.stop_loss_pct rc)
  else
    let atr := calculate_atr (trunc (RiskConfig.atr_period rc)) s in
    entry_price - (atr * RiskConfig.atr_multiplier rc).

Definition calculate_atr_take_profit (entry_price : Q) (s : t) : Q :=
  let rc := risk_config_ s in
  if negb (RiskConfig.enable_atr_stops rc)
     || (size (closes_ s) <? size_t_of_int (trunc (RiskConfig.atr_period rc)))%Z
  then entry_price * (1 + RiskConfig.take_profit_pct rc)
  else
    let atr := calculate_atr (trunc (RiskConfig.atr_period rc)) s in
    let risk_amount := atr * RiskConfig.atr_multiplier rc in
    let reward_amount := risk_amount * 3 in
    entry_price + reward_amount.

Definition calculate_stop_loss (entry_price : Q) (s : t) : Q :=
  entry_price * (1 - RiskConfig.stop_loss_pct (risk_config_ s)).

Definition calculate_take_profit (entry_price : Q) (s : t) : Q :=
  entry_price * (1 + RiskConfig.take_profit_pct (risk_config_ s)).

Definition current_drawdown (s : t) : Q :=
  (peak_portfolio_value_ s - portfolio_value_ s) / peak_portfolio_value_ s.

Definition check_drawdown_breaker (s : t) : bool :=
  if negb (RiskConfig.enable_drawdown_breaker (risk_config_ s)) then false
  else current_drawdown s >=? RiskConfig.drawdown_breaker_pct (risk_config_ s).

Definition is_in_recovery_mode (s : t) : bool :=
  current_drawdown s >=? RiskConfig.max_drawdown (risk_config_ s) * 0.8.

Definition get_adjusted_risk_per_trade (s : t) : Q :=
  if is_in_recovery_mode s then RiskConfig.recovery_mode_risk (risk_config_ s)
  else RiskConfig.max_portfolio_risk (risk_config_ s).

Definition update_trailing_stop (current_price : Q) (s : t) : t :=
  if quantity s >? 0 then
    let new_trailing_stop :=
      current_price * (1 - RiskConfig.trailing_stop_pct (risk_config_ s)) in
    if new_trailing_stop >? trailing_stop_price_ s
    then set_trailing_stop_price_ new_trailing_stop s else s
  else if quantity s <? 0 then
    let new_trailing_stop :=
      current_price * (1 + RiskConfig.trailing_stop_pct (risk_config_ s)) in
    if (trailing_stop_price_ s =? 0) || (new_trailing_stop <? trailing_stop_price_ s)
    then set_trailing_stop_price_ new_trailing_stop s else s
  else s.

(** [should_exit_position(bar, current_position_)]: the answer and the object
    after the call (the trailing stop may have been ratcheted). *)
Definition should_exit_position (bar : Bar.t) (s : t) : bool * t :=
  let current_price := Bar.close bar in
  let trailing :=
    RiskConfig.enable_trailing_stop (risk_config_ s) && (trailing_stop_price_ s >? 0) in
  if quantity s >? 0 then
    if (stop_loss_price_ s >? 0) && (current_price <=? stop_loss_price_ s) then (true, s)
    else if (take_profit_price_ s >? 0) && (current_price >=? take_profit_price_ s)
    then (true, s)
    else if trailing then
      if current_price <=? trailing_stop_price_ s then (true, s)
      else (false, update_trailing_stop current_price s)
    else (false, s)
  else if quantity s <? 0 then
    if (stop_loss_price_ s >? 0) && (current_price >=? stop_loss_price_ s) then (true, s)
    else if (take_profit_price_ s >? 0) && (current_price <=? take_profit_price_ s)
    then (true, s)
    else if trailing then
      if current_price >=? trailing_stop_price_ s then (true, s)
      else (false, update_trailing_stop current_price s)
    else (false, s)
  else (false, s).

(** *** Signals *)

(** [sum] of [closes_[size - 1 - i]] for [i = 0 .. window - 1]. *)
Definition window_sum (window : Z) (closes : list Q) : Q :=
  for_each (List.seq 0 (Z.to_nat window))
    (fun i sum => sum + at_ closes (size closes - 1 - Z.of_nat i)) 0.

Definition calculate_smas (s : t) : t :=
  let sz := size (closes_ s) in
  let s :=
    if (sz >=? size_t_of_int (sw_ s))%Z
    then set_short_sma_ (window_sum (sw_ s) (closes_ s) / to_double (sw_ s)) s else s in
  if (sz >=? size_t_of_int (lw_ s))%Z
  then set_long_sma_ (window_sum (lw_ s) (closes_ s) / to_double (lw_ s)) s else s.

Definition generate_signal (s : t) : Z :=
  if (short_sma_ s =? 0) || (long_sma_ s =? 0) then 0%Z
  else if short_sma_ s >? long_sma_ s then 1%Z
  else if short_sma_ s <? long_sma_ s then (-1)%Z
  else 0%Z.

Definition should_enter_position (s : t) : bool * t :=
  if (size (closes_ s) <? size_t_of_int (lw_ s))%Z then (false, s)
  else
    let s := calculate_smas s in
    (negb (generate_signal s =? 0)%Z, s).

(** *** Bookkeeping *)

Definition calculate_pnl (current_price : Q) (s : t) : Q :=
  if quantity s =? 0 then 0
  else quantity s * (current_price - Position.avg_entry_price (current_position_ s)).

Definition update_position_value (current_price : Q) (s : t) : t :=
  if quantity s =? 0 then set_portfolio_value_ (cash_ s) s
  else
    let p := current_position_ s in
    let s :=
      set_current_position_
        (Position.mk (Position.symbol p) (Position.quantity p) (Position.avg_entry_price p)
           current_price (Position.unrealized_pnl p) (Position.realized_pnl p)) s in
    let p := current_position_ s in
    let s :=
      set_current_position_
        (Position.mk (Position.symbol p) (Position.quantity p) (Position.avg_entry_price p)
           (Position.current_price p) (calculate_pnl current_price s)
           (Position.realized_pnl p)) s in
    set_portfolio_value_ (cash_ s + quantity s * current_price) s.

Definition open_position (date : Z) (price : Q) (direction : Z) (s : t) : t :=
  if price <=? 0 then s
  else
    let position_size := calculate_position_size (portfolio_value_ s) s in
    if position_size <=? 0 then s
    else
      let quantity := position_size / price in
      let notional := quantity * price in
      let entry_trade :=
        {| Trade.date := date;
           Trade.side := if (direction >? 0)%Z then Trade.BUY else Trade.SELL;
           Trade.type := Trade.ENTRY;
           Trade.price := price;
           Trade.quantity := quantity;
           Trade.pnl := 0;
           Trade.symbol := symbol_ s |} in
      let s := set_trades_ (trades_ s ++ [entry_trade]) s in
      let s :=
        set_current_position_
          {| Position.symbol := symbol_ s;
             Position.quantity := if (direction >? 0)%Z then quantity else - quantity;
             Position.avg_entry_price := price;
             Position.current_price := price;
             Position.unrealized_pnl := 0;
             Position.realized_pnl := Position.realized_pnl (current_position_ s) |} s in
      let fee_amount := fee_ s * notional in
      let rc := risk_config_ s in
      let s :=
        if (direction >? 0)%Z then
          let s := set_cash_ (cash_ s - (notional + fee_amount)) s in
          let s := set_stop_loss_price_ (calculate_stop_loss price s) s in
          let s := set_take_profit_price_ (calculate_take_profit price s) s in
          set_trailing_stop_price_ (price * (1 - RiskConfig.trailing_stop_pct rc)) s
        else
          let s := set_cash_ (cash_ s + (notional - fee_amount)) s in
          let s := set_stop_loss_price_ (price * (1 + RiskConfig.stop_loss_pct rc)) s in
          let s := set_take_profit_price_ (price * (1 - RiskConfig.take_profit_pct rc)) s in
          set_trailing_stop_price_ (price * (1 + RiskConfig.trailing_stop_pct rc)) s in
      let s := set_fees_paid_ (fees_paid_ s + fee_amount) s in
      update_position_value price s.

Definition close_position (date : Z) (price : Q) (s : t) : t :=
  if (quantity s =? 0) || (price <=? 0) then set_portfolio_value_ (cash_ s) s
  else
    let quantity := quantity s in
    let abs_quantity := Qabs quantity in
    let avg_entry_price := Position.avg_entry_price (current_position_ s) in
    let entry_value := abs_quantity * avg_entry_price in
    let exit_value := abs_quantity * price in
    let pnl := quantity * (price - avg_entry_price) in
    let total_fees := fee_ s * (entry_value + exit_value) in
    let net_pnl := pnl - total_fees in
    let exit_fee := fee_ s * exit_value in
    let s :=
      if quantity >? 0 then set_cash_ (cash_ s + (exit_value - exit_fee)) s
      else set_cash_ (cash_ s - (exit_value + exit_fee)) s in
    let s := set_fees_paid_ (fees_paid_ s + exit_fee) s in
    let exit_trade :=
      {| Trade.date := date;
         Trade.side := if quantity >? 0 then Trade.SELL else Trade.BUY;
         Trade.type := Trade.EXIT;
         Trade.price := price;
         Trade.quantity := abs_quantity;
         Trade.pnl := net_pnl;
         Trade.symbol := symbol_ s |} in
    let s := set_trades_ (trades_ s ++ [exit_trade]) s in
    let p := current_position_ s in
    let s :=
      set_current_position_
        (Position.mk (Position.symbol p) 0 0 0 0 (Position.realized_pnl p)) s in
    let s := set_stop_loss_price_ 0 s in
    let s := set_take_profit_price_ 0 s in
    let s := set_trailing_stop_price_ 0 s in
    set_portfolio_value_ (cash_ s) s.

Definition execute_trading_logic (bar : Bar.t) (signal : Z) (s : t) : t :=
  let current_price := Bar.close bar in
  let '(exit_now, s) :=
    if negb (quantity s =? 0) then should_exit_position bar s else (false, s) in
  if exit_now then close_position (Bar.date bar) current_price s
  else
    let s :=
      if negb (signal =? position_ s)%Z then
        let s :=
          if negb (quantity s =? 0) then close_position (Bar.date bar) current_price s
          else s in
        let s :=
          if negb (signal =? 0)%Z then open_position (Bar.date bar) current_price signal s
          else s in
        set_position_ signal s
      else s in
    update_position_value current_price s.

Definition update_performance_metrics (s : t) : t :=
  let s :=
    if portfolio_value_ s >? peak_portfolio_value_ s
    then set_peak_portfolio_value_ (portfolio_value_ s) s else s in
  let s :=
    if peak_portfolio_value_ s >? 0 then
      let current_drawdown :=
        (peak_portfolio_value_ s - portfolio_value_ s) / peak_portfolio_value_ s in
      if current_drawdown >? max_drawdown_ s then set_max_drawdown_ current_drawdown s
      else s
    else s in
  let s :=
    if previous_value_ s >? 0 then
      let daily_return := (portfolio_value_ s - previous_value_ s) / previous_value_ s in
      set_daily_returns_ (daily_returns_ s ++ [daily_return]) s
    else s in
  set_previous_value_ (portfolio_value_ s) s.

Definition get_sharpe_ratio (s : t) : Q :=
  let daily_returns := daily_returns_ s in
  if (size daily_returns <? 2)%Z then 0
  else
    let mean_return := accumulate daily_returns / to_double (size daily_returns) in
    let variance :=
      for_each daily_returns
        (fun ret variance => variance + (ret - mean_return) * (ret - mean_return)) 0 in
    let variance := variance / to_double (size daily_returns - 1) in
    let std_dev := sqrt variance in
    if std_dev =? 0 then 0
    else
      let risk_free_rate := 0.02 in
      let annualized_return := mean_return * 252 in
      (annualized_return - risk_free_rate) / (std_dev * sqrt 252).

Definition calculate_final_metrics (s : t) : t :=
  let s := set_final_sharpe_ratio_ (get_sharpe_ratio s) s in
  let s := set_final_max_drawdown_ (get_max_drawdown s) s in
  set_final_total_return_ (get_total_return s) s.

(** *** The lifecycle callbacks *)

Definition on_bar (b : Bar.t) (s : t) : t :=
  let current_price := Bar.close b in
  let s := set_closes_ (closes_ s ++ [current_price]) s in
  if (size (closes_ s) <? size_t_of_int (lw_ s))%Z then
    update_position_value current_price s
  else
    let s := calculate_smas s in
    let signal := generate_signal s in
    let s := execute_trading_logic b signal s in
    let s := set_last_price_ current_price s in
    let s := set_last_date_ (Bar.date b) s in
    update_performance_metrics s.

(** [print_results] only writes to the console and is left out. *)
Definition on_finish (s : t) : t :=
  let s :=
    if negb (quantity s =? 0) then
      let exit_price :=
        if last_price_ s >? 0 then last_price_ s
        else Position.avg_entry_price (current_position_ s) in
      let exit_date := if negb (last_date_ s =? 0)%Z then last_date_ s else 0%Z in
      close_position exit_date exit_price s
    else s in
  let s := set_portfolio_value_ (cash_ s) s in
  calculate_final_metrics s.

End WithSqrt.

End SmaCrossStrategy.

(** ** The [Strategy] interface of [framework/strategy.h]

    An object is a state together with the virtual methods the tester calls. *)

Module Strategy.
Record t : Type := mk {
  state : Type;
  self : state;
  on_start : state -> state;
  on_bar : Bar.t -> state -> state;
  on_finish : state -> state;
  get_portfolio_value : state -> Q;
  get_trade_count : state -> Z;
  get_trades : state -> list Trade.t
}.

(** [strategy->m(...)] for a mutating method [m]. *)
Definition call (o : t) (m : state o -> state o) : t :=
  {| state := state o; self := m (self o);
     on_start := on_start o; on_bar := on_bar o; on_finish := on_finish o;
     get_portfolio_value := get_portfolio_value o;
     get_trade_count := get_trade_count o;
     get_trades := get_trades o |}.

Definition portfolio_value (o : t) : Q := get_portfolio_value o (self o).
Definition trade_count (o : t) : Z := get_trade_count o (self o).
Definition trades (o : t) : list Trade.t := get_trades o (self o).
End Strategy.

(** [make_sma_strategy] *)
Definition make_sma_strategy (sqrt : Q -> Q) (sw lw : Z) (fee : Q) (symbol : string)
  : Strategy.t :=
  {| Strategy.state := SmaCrossStrategy.t;
     Strategy.self := SmaCrossStrategy.make sw lw fee symbol;
     Strategy.on_start := SmaCrossStrategy.on_start;
     Strategy.on_bar := SmaCrossStrategy.on_bar sqrt;
     Strategy.on_finish := SmaCrossStrategy.on_finish sqrt;
     Strategy.get_portfolio_value := SmaCrossStrategy.get_portfolio_value;
     Strategy.get_trade_count := SmaCrossStrategy.get_trade_count;
     Strategy.get_trades := SmaCrossStrategy.get_trades |}.

(** ** [framework/strategy_tester.h] *)

Module StrategyTestConfig.
Record t : Type := mk {
  strategy_name : string;
  parameters : list Q;
  symbol : string;
  initial_capital : Q;
  max_bars : Z;
  enable_risk_management : bool;
  enable_volatility_sizing : bool;
  enable_atr_stops : bool
}.
End StrategyTestConfig.

Module StrategyMetrics.
Record t : Type := mk {
  strategy_name : string;
  parameters : list Q;
  symbol : string;
  total_return : Q;
  sharpe_ratio : Q;
  max_drawdown : Q;
  win_rate : Q;
  profit_factor : Q;
  avg_trade : Q;
  total_trades : Z;
  calmar_ratio : Q;
  sortino_ratio : Q;
  var_95 : Q;
  expected_shortfall : Q;
  avg_hold_period : Q;
  max_adverse_excursion : Q;
  max_favorable_excursion : Q;
  composite_score : Q;
  market_data : list Bar.t
}.

(** A default-constructed record with the three identifying members set, as
    at the top of [test_strategy]. *)
Definition initial (name : string) (params : list Q) (sym : string) : t :=
  mk name params sym 0 0 0 0 0 0 0 0 0 0 0 0 0 0 0 [].

(** The value [calculate_composite_score] stores in [composite_score]. *)
Definition calculate_composite_score (sharpe_ratio max_drawdown total_return : Q)
    (total_trades : Z) : Q :=
  let sharpe_score := fmin (sharpe_ratio / 2) 1 in
  let drawdown_score := fmax 0 (1 - max_drawdown) in
  let return_score := fmin (total_return / 0.5) 1 in
  let trade_score := fmin (to_double total_trades / 50) 1 in
  (sharpe_score * 0.4) + (drawdown_score * 0.3) + (return_score * 0.2) + (trade_score * 0.1).
End StrategyMetrics.

(** ** [framework/strategy_tester.cpp] *)

(** A call either returns or throws [std::runtime_error(what)]. *)
Inductive Outcome (A : Type) : Type :=
| Returned (a : A)
| Thrown (what : string).
Arguments Returned {A} a.
Arguments Thrown {A} what.

(** What [test_strategy] does to strategies, in order. *)
Inductive Event : Type :=
| StrategyCreated
| OnStart
| OnBar (b : Bar.t)
| OnFinish.

Module StrategyTester.

(** *** Data integrity validation *)

(** The indices [i >= 1] with [data[i].date <= data[i-1].date]. *)
Fixpoint chronological_violations (i : Z) (data : list Bar.t) : list Z :=
  match data with
  | prev :: ((cur :: _) as tl) =>
      if (Bar.date cur <=? Bar.date prev)%Z
      then i :: chronological_violations (i + 1)%Z tl
      else chronological_violations (i + 1)%Z tl
  | _ => []
  end.

Definition validate_chronological_order (data : list Bar.t) : Outcome unit :=
  if (size data <? 2)%Z then Returned tt
  else
    let violation_indices := chronological_violations 1 data in
    let violations := size violation_indices in
    if (violations =? 0)%Z then Returned tt
    else Thrown "Data is NOT in chronological order! Lookahead bias possible.".

(** The number of pairs of consecutive bars more than five days apart. *)
Fixpoint count_gaps (data : list Bar.t) : Z :=
  match data with
  | prev :: ((cur :: _) as tl) =>
      if (Bar.date cur - Bar.date prev >? 5)%Z
      then (1 + count_gaps tl)%Z else count_gaps tl
  | _ => 0%Z
  end.

(** Returns [(issues_found, gap_count)], which the code only prints. *)
Definition validate_data_integrity (data : list Bar.t) : Outcome (Z * Z) :=
  match data with
  | [] => Thrown "Data integrity validation failed: No data provided"
  | _ =>
      let issues_found :=
        for_each data
          (fun bar issues => if (Bar.date bar =? 0)%Z then (issues + 1)%Z else issues) 0%Z in
      let issues_found :=
        for_each data
          (fun bar issues =>
             let issues :=
               if (Bar.open bar <=? 0) || (Bar.high bar <=? 0)
                  || (Bar.low bar <=? 0) || (Bar.close bar <=? 0)
               then (issues + 1)%Z else issues in
             let max_reasonable_price := 100000000 in
             if (Bar.open bar >? max_reasonable_price)
                || (Bar.high bar >? max_reasonable_price)
                || (Bar.low bar >? max_reasonable_price)
                || (Bar.close bar >? max_reasonable_price)
             then (issues + 1)%Z else issues)
          issues_found in
      Returned (issues_found, count_gaps data)
  end.

(** Returns [violations], which the code only prints. *)
Definition validate_ohlc_relationships (data : list Bar.t) : Outcome Z :=
  Returned
    (for_each data
       (fun bar violations =>
          let violations :=
            if (Bar.high bar <? Bar.open bar) || (Bar.high bar <? Bar.low bar)
               || (Bar.high bar <? Bar.close bar)
            then (violations + 1)%Z else violations in
          let violations :=
            if (Bar.low bar >? Bar.open bar) || (Bar.low bar >? Bar.high bar)
               || (Bar.low bar >? Bar.close bar)
            then (violations + 1)%Z else violations in
          let max_change :=
            fmax (Qabs (Bar.open bar - Bar.close bar) / Bar.open bar)
                 ((Bar.high bar - Bar.low bar) / Bar.low bar) in
          if max_change >? 0.8 then (violations + 1)%Z else violations)
       0%Z).

(** *** Metrics helpers *)

(** [std::sort] on doubles, ascending. *)
Fixpoint insert_sorted (x : Q) (v : list Q) : list Q :=
  match v with
  | [] => [x]
  | y :: tl => if x <=? y then x :: v else y :: insert_sorted x tl
  end.

Definition sort (v : list Q) : list Q := List.fold_right insert_sorted [] v.

Definition calculate_max_drawdown (portfolio_values : list Q) : Q :=
  match portfolio_values with
  | first :: rest =>
      if (size portfolio_values <? 2)%Z then 0
      else
        snd (for_each rest
               (fun value '(peak, max_dd) =>
                  if value >? peak then (value, max_dd)
                  else
                    let dd := (peak - value) / peak in
                    if dd >? max_dd then (peak, dd) else (peak, max_dd))
               (first, 0))
  | [] => 0
  end.

Definition calculate_var (returns : list Q) (confidence : Q) : Q :=
  match returns with
  | [] => 0
  | _ =>
      let sorted_returns := sort returns in
      let index := trunc ((1 - confidence) * to_double (size sorted_returns)) in
      let index :=
        if (index >=? size sorted_returns)%Z then (size sorted_returns - 1)%Z else index in
      - at_ sorted_returns index
  end.

Definition calculate_expected_shortfall (returns : list Q) (confidence : Q) : Q :=
  match returns with
  | [] => 0
  | _ =>
      let var_threshold := calculate_var returns confidence in
      let '(sum_losses, count_losses) :=
        for_each returns
          (fun ret '(sum, count) =>
             if - ret >=? var_threshold then (sum + - ret, (count + 1)%Z) else (sum, count))
          (0, 0%Z) in
      if (count_losses >? 0)%Z then sum_losses / to_double count_losses else 0
  end.

(** The returns of a portfolio-value series; a step from [0] is skipped. *)
Fixpoint returns_of (portfolio_values : list Q) : list Q :=
  match portfolio_values with
  | prev :: ((cur :: _) as tl) =>
      if prev =? 0 then returns_of tl else (cur - prev) / prev :: returns_of tl
  | _ => []
  end.

(** The body of the loop over the trades in [test_strategy], on its
    variables [(total_wins, total_losses, winning_trades, completed_trades)]. *)
Definition statistics_step (trade : Trade.t) (acc : Q * Q * Z * Z) : Q * Q * Z * Z :=
  let '(total_wins, total_losses, winning_trades, completed_trades) := acc in
  match Trade.type trade with
  | Trade.ENTRY => (total_wins, total_losses, winning_trades, completed_trades)
  | Trade.EXIT =>
      if Trade.pnl trade >? 0 then
        (total_wins + Trade.pnl trade, total_losses,
         (winning_trades + 1)%Z, (completed_trades + 1)%Z)
      else if Trade.pnl trade <? 0 then
        (total_wins, total_losses + Qabs (Trade.pnl trade),
         winning_trades, (completed_trades + 1)%Z)
      else (total_wins, total_losses, winning_trades, (completed_trades + 1)%Z)
  end.

(** The statistics of the completed trades. *)
Definition trade_statistics (trades : list Trade.t) : Q * Q * Z * Z :=
  for_each trades statistics_step (0, 0, 0%Z, 0%Z).

Section WithLibrary.

Variable sqrt : Q -> Q.

(** The RSI and MACD strategies are built by factories defined in other
    translation units; the tester only sees them through [Strategy]. *)
Variable make_rsi_strategy : Z -> Q -> Q -> Z -> Q -> string -> Strategy.t.
Variable make_macd_strategy : Z -> Z -> Z -> Q -> Q -> Q -> string -> Strategy.t.

Definition calculate_sharpe_ratio (returns : list Q) : Q :=
  if (size returns <? 2)%Z then 0
  else
    let mean_return := accumulate returns / to_double (size returns) in
    let variance :=
      for_each returns
        (fun ret variance => variance + (ret - mean_return) * (ret - mean_return)) 0 in
    let variance := variance / to_double (size returns - 1) in
    let std_dev := sqrt variance in
    if std_dev =? 0 then 0
    else
      let risk_free_rate := 0.02 in
      let annualized_return := mean_return * 252 in
      (annualized_return - risk_free_rate) / (std_dev * sqrt 252).

Definition calculate_sortino_ratio (returns : list Q) : Q :=
  if (size returns <? 2)%Z then 0
  else
    let mean_return := accumulate returns / to_double (size returns) in
    let '(downside_variance, downside_count) :=
      for_each returns
        (fun ret '(variance, count) =>
           if ret <? 0 then (variance + ret * ret, (count + 1)%Z) else (variance, count))
        (0, 0%Z) in
    if (downside_count =? 0)%Z || (downside_variance =? 0) then 0
    else
      let downside_variance := downside_variance / to_double downside_count in
      let downside_std_dev := sqrt downside_variance in
      let risk_free_rate := 0.02 in
      let annualized_return := mean_return * 252 in
      (annualized_return - risk_free_rate) / (downside_std_dev * sqrt 252).

(** [StrategyFactory::create_strategy]; [None] is the null pointer. *)
Definition create_strategy (strategy_name : string) (parameters : list Q) (symbol : string)
  : option Strategy.t :=
  let p (i : nat) := List.nth i parameters 0 in
  if String.eqb strategy_name "SMA" && (size parameters >=? 3)%Z then
    Some (make_sma_strategy sqrt (trunc (p 0%nat)) (trunc (p 1%nat)) (p 2%nat) symbol)
  else if String.eqb strategy_name "RSI" && (size parameters >=? 5)%Z then
    Some (make_rsi_strategy (trunc (p 0%nat)) (p 1%nat) (p 2%nat) (trunc (p 3%nat))
            (p 4%nat) symbol)
  else if String.eqb strategy_name "MACD" && (size parameters >=? 6)%Z then
    Some (make_macd_strategy (trunc (p 0%nat)) (trunc (p 1%nat)) (trunc (p 2%nat))
            (p 3%nat) (p 4%nat) (p 5%nat) symbol)
  else None.

(** The bar loop of [run_strategy_simulation]: the portfolio values pushed so
    far, the strategy and the calls made. *)
Definition run_bars (data : list Bar.t) (strategy : Strategy.t)
  : list Q * Strategy.t * list Event :=
  for_each data
    (fun bar '(portfolio_values, strategy, events) =>
       let strategy := Strategy.call strategy (Strategy.on_bar strategy bar) in
       (portfolio_values ++ [Strategy.portfolio_value strategy], strategy,
        events ++ [OnBar bar]))
    ([], strategy, []).

Definition run_strategy_simulation (strategy : Strategy.t) (data : list Bar.t)
  : list Q * Strategy.t * list Event :=
  let strategy := Strategy.call strategy (Strategy.on_start strategy) in
  let '(portfolio_values, strategy, events) := run_bars data strategy in
  let strategy := Strategy.call strategy (Strategy.on_finish strategy) in
  let final_value := Strategy.portfolio_value strategy in
  let portfolio_values :=
    match portfolio_values with
    | [] => portfolio_values ++ [final_value]
    | _ =>
        if Qabs (List.last portfolio_values 0 - final_value) >? 0.000001
        then portfolio_values ++ [final_value] else portfolio_values
    end in
  (portfolio_values, strategy, OnStart :: events ++ [OnFinish]).

(** [test_strategy]: the metrics returned and the calls made on strategies.
    An exception thrown by a validator is caught at the end of the function,
    which then returns [metrics] as it stands. *)
Definition test_strategy (config : StrategyTestConfig.t) (data : list Bar.t)
  : StrategyMetrics.t * list Event :=
  let metrics :=
    StrategyMetrics.initial (StrategyTestConfig.strategy_name config)
      (StrategyTestConfig.parameters config) (StrategyTestConfig.symbol config) in
  match validate_chronological_order data with
  | Thrown _ => (metrics, [])
  | Returned _ =>
  match validate_data_integrity data with
  | Thrown _ => (metrics, [])
  | Returned _ =>
  match validate_ohlc_relationships data with
  | Thrown _ => (metrics, [])
  | Returned _ =>
  match create_strategy (StrategyTestConfig.strategy_name config)
          (StrategyTestConfig.parameters config) (StrategyTestConfig.symbol config) with
  | None => (metrics, [])
  | Some strategy =>
      let '(portfolio_values, strategy, events) := run_strategy_simulation strategy data in
      let events := StrategyCreated :: events in
      match portfolio_values with
      | [] => (metrics, events)
      | _ =>
          let returns := returns_of portfolio_values in
          let initial_capital := StrategyTestConfig.initial_capital config in
          let nonempty := negb (size returns =? 0)%Z in
          let total_return :=
            if nonempty
            then (List.last portfolio_values 0 - initial_capital) / initial_capital else 0 in
          let sharpe_ratio := if nonempty then calculate_sharpe_ratio returns else 0 in
          let max_drawdown :=
            if nonempty then calculate_max_drawdown portfolio_values else 0 in
          let var_95 := if nonempty then calculate_var returns 0.95 else 0 in
          let expected_shortfall :=
            if nonempty then calculate_expected_shortfall returns 0.95 else 0 in
          let total_trades := Strategy.trade_count strategy in
          let trades := Strategy.trades strategy in
          let '(total_wins, total_losses, winning_trades, completed_trades) :=
            trade_statistics trades in
          let completed := (completed_trades >? 0)%Z in
          let total_trades := if completed then completed_trades else total_trades in
          let win_rate :=
            if completed then to_double winning_trades / to_double completed_trades else 0 in
          let avg_trade :=
            if completed then (total_wins - total_losses) / to_double completed_trades
            else 0 in
          let profit_factor :=
            if completed then
              if total_losses >? 0 then total_wins / total_losses
              else if total_wins >? 0 then 1000
              else 0
            else 0 in
          let calmar_ratio := if max_drawdown >? 0 then total_return / max_drawdown else 0 in
          let sortino_ratio := calculate_sortino_ratio returns in
          let composite_score :=
            StrategyMetrics.calculate_composite_score sharpe_ratio max_drawdown total_return
              total_trades in
          ({| StrategyMetrics.strategy_name := StrategyTestConfig.strategy_name config;
              StrategyMetrics.parameters := StrategyTestConfig.parameters config;
              StrategyMetrics.symbol := StrategyTestConfig.symbol config;
              StrategyMetrics.total_return := total_return;
              StrategyMetrics.sharpe_ratio := sharpe_ratio;
              StrategyMetrics.max_drawdown := max_drawdown;
              StrategyMetrics.win_rate := win_rate;
              StrategyMetrics.profit_factor := profit_factor;
              StrategyMetrics.avg_trade := avg_trade;
              StrategyMetrics.total_trades := total_trades;
              StrategyMetrics.calmar_ratio := calmar_ratio;
              StrategyMetrics.sortino_ratio := sortino_ratio;
              StrategyMetrics.var_95 := var_95;
              StrategyMetrics.expected_shortfall := expected_shortfall;
              StrategyMetrics.avg_hold_period := 0;
              StrategyMetrics.max_adverse_excursion := 0;
              StrategyMetrics.max_favorable_excursion := 0;
              StrategyMetrics.composite_score := composite_score;
              StrategyMetrics.market_data := data |},
           events)
      end
  end end end end.

End WithLibrary.

End StrategyTester.

(** ** Text streams

    The contents of a stream ([std::ostringstream], [std::ofstream],
    [std::istringstream]) are a list of characters.  This section models the
    formatted output of the standard library for [int] and [double] and the
    conversions [std::stoi] and [std::stod], on the rationals that stand for
    doubles. *)

Module Text.

Definition text : Type := list ascii.

(** [oss.str()] and the contents of a [std::string]. *)
Definition str (s : text) : string := string_of_list_ascii s.
Definition chars (s : string) : text := list_ascii_of_string s.

Definition digit_char (d : N) : ascii := ascii_of_N (48 + d).
Definition digit_value (c : ascii) : N := (N_of_ascii c - 48)%N.
Definition is_digit (c : ascii) : bool :=
  ((48 <=? N_of_ascii c) && (N_of_ascii c <=? 57))%N.

(** [isspace] in the "C" locale. *)
Definition is_space (c : ascii) : bool :=
  let n := N_of_ascii c in ((n =? 32) || ((9 <=? n) && (n <=? 13)))%N.

(** The [k] low-order decimal digits of [n], most significant first. *)
Fixpoint fixed_digits (k : nat) (n : N) : text :=
  match k with
  | O => []
  | S k' => fixed_digits k' (n / 10)%N ++ [digit_char (n mod 10)%N]
  end.

Fixpoint count_digits (fuel : nat) (n : N) : nat :=
  match fuel with
  | O => 1%nat
  | S fuel' => if (n <? 10)%N then 1%nat else S (count_digits fuel' (n / 10)%N)
  end.

(** The number of decimal digits of [n] (one for zero). *)
Definition num_digits (n : N) : nat := count_digits (N.to_nat (N.size n)) n.

(** A natural number in decimal, without leading zeros. *)
Definition print_N (n : N) : text := fixed_digits (num_digits n) n.

(** [os << n] for an [int]. *)
Definition print_int (n : Z) : text :=
  if (n <? 0)%Z then "-"%char :: print_N (Z.abs_N n) else print_N (Z.abs_N n).

(** The nearest integer to [n / d], ties to even, for [d > 0]: the rounding
    of [printf]. *)
Definition round_half_even (n d : N) : N :=
  let q := (n / d)%N in
  let r := (n mod d)%N in
  match (2 * r ?= d)%N with
  | Lt => q
  | Gt => (q + 1)%N
  | Eq => if N.even q then q else (q + 1)%N
  end.

Definition sign_of (x : Q) : text := if (Qnum x <? 0)%Z then ["-"%char] else [].

(** [os << std::fixed << std::setprecision(p) << x], that is [%.pf]. *)
Definition print_fixed (p : nat) (x : Q) : text :=
  let m := round_half_even (Z.abs_N (Qnum x) * 10 ^ N.of_nat p) (N.pos (Qden x)) in
  sign_of x ++ print_N (m / 10 ^ N.of_nat p)
    ++ match p with O => [] | _ => "."%char :: fixed_digits p m end.

(** The smallest [k >= 1], at most [fuel + 1], with [d <= n * 10^k]. *)
Fixpoint first_scale (fuel : nat) (k : nat) (n d : N) : nat :=
  match fuel with
  | O => k
  | S fuel' => if (d <=? n * 10 ^ N.of_nat k)%N then k else first_scale fuel' (S k) n d
  end.

(** The decimal exponent of [n / d] for [n, d > 0]: the [e] with
    [10^e <= n / d < 10^(e+1)]. *)
Definition decimal_exponent (n d : N) : Z :=
  if (d <=? n)%N then (Z.of_nat (num_digits (n / d)) - 1)%Z
  else (- Z.of_nat (first_scale (num_digits d) 1 n d))%Z.

(** [x <> 0] rounded to six significant digits: [(m, e)] with
    [10^5 <= m < 10^6], standing for [m * 10^(e - 5)]. *)
Definition significand6 (x : Q) : N * Z :=
  let n := Z.abs_N (Qnum x) in
  let d := N.pos (Qden x) in
  let e := decimal_exponent n d in
  let m :=
    if (e <=? 5)%Z then round_half_even (n * 10 ^ Z.to_N (5 - e)) d
    else round_half_even n (d * 10 ^ Z.to_N (e - 5)) in
  if (m =? 10 ^ 6)%N then ((10 ^ 5)%N, (e + 1)%Z) else (m, e).

(** Removal of trailing zeros. *)
Fixpoint strip_zeros (ds : text) : text :=
  match ds with
  | [] => []
  | c :: rest =>
      match strip_zeros rest with
      | [] => if Ascii.eqb c "0" then [] else [c]
      | rest' => c :: rest'
      end
  end.

(** A fractional part, with its point unless it is empty. *)
Definition fraction (ds : text) : text :=
  match ds with [] => [] | _ => "."%char :: ds end.

(** [m / 10^k] in positional notation, trailing zeros removed. *)
Definition print_scaled (m : N) (k : nat) : text :=
  print_N (m / 10 ^ N.of_nat k) ++ fraction (strip_zeros (fixed_digits k m)).

(** An exponent: a sign and at least two digits. *)
Definition print_exponent (e : Z) : text :=
  "e"%char :: (if (e <? 0)%Z then "-"%char else "+"%char)
    :: (if (Z.abs_N e <? 10)%N then "0"%char :: print_N (Z.abs_N e) else print_N (Z.abs_N e)).

(** [os << x] for a [double] with the stream defaults, that is [%g] with a
    precision of six significant digits. *)
Definition print_double (x : Q) : text :=
  if (Qnum x =? 0)%Z then ["0"%char]
  else
    let '(m, e) := significand6 x in
    sign_of x ++
      (if (e <? -4)%Z || (e >=? 6)%Z then print_scaled m 5 ++ print_exponent e
       else print_scaled m (Z.to_nat (5 - e))).

(** *** Parsing *)

Fixpoint span_digits (s : text) : text * text :=
  match s with
  | c :: rest =>
      if is_digit c then let '(ds, rest') := span_digits rest in (c :: ds, rest')
      else ([], s)
  | [] => ([], [])
  end.

Definition parse_N (ds : text) : N :=
  List.fold_left (fun acc c => (10 * acc + digit_value c)%N) ds 0%N.

Fixpoint skip_space (s : text) : text :=
  match s with
  | c :: rest => if is_space c then skip_space rest else s
  | [] => []
  end.

(** An optional sign: whether it is a minus, and the rest. *)
Definition parse_sign (s : text) : bool * text :=
  match s with
  | c :: rest =>
      if Ascii.eqb c "-" then (true, rest)
      else if Ascii.eqb c "+" then (false, rest)
      else (false, s)
  | [] => (false, [])
  end.

(** An optional exponent part; [0] when there is none. *)
Definition parse_exponent (s : text) : Z :=
  match s with
  | c :: rest =>
      if Ascii.eqb c "e" || Ascii.eqb c "E" then
        let '(negative, rest) := parse_sign rest in
        let '(ds, _) := span_digits rest in
        match ds with
        | [] => 0%Z
        | _ => if negative then (- Z.of_N (parse_N ds))%Z else Z.of_N (parse_N ds)
        end
      else 0%Z
  | [] => 0%Z
  end.

(** [std::stod(s)] on decimal input; [None] stands for the exception
    [std::invalid_argument].  Hexadecimal input, infinities and NaNs are not
    modelled. *)
Definition stod (s : text) : option Q :=
  let '(negative, s) := parse_sign (skip_space s) in
  let '(int_part, s) := span_digits s in
  let '(frac_part, s) :=
    match s with
    | c :: rest => if Ascii.eqb c "." then span_digits rest else ([], s)
    | [] => ([], s)
    end in
  match int_part ++ frac_part with
  | [] => None
  | _ =>
      let scale := N.of_nat (List.length frac_part) in
      let mantissa :=
        inject_Z (Z.of_N (parse_N int_part * 10 ^ scale + parse_N frac_part))
        / inject_Z (Z.of_N (10 ^ scale)) in
      let mantissa := if negative then - mantissa else mantissa in
      Some (mantissa * 10 ^ parse_exponent s)
  end.

(** [std::stoi(s)]; [None] stands for [std::invalid_argument] or
    [std::out_of_range]. *)
Definition stoi (s : text) : option Z :=
  let '(negative, s) := parse_sign (skip_space s) in
  let '(ds, _) := span_digits s in
  match ds with
  | [] => None
  | _ =>
      let n := if negative then (- Z.of_N (parse_N ds))%Z else Z.of_N (parse_N ds) in
      if ((- 2 ^ 31 <=? n) && (n <? 2 ^ 31))%Z then Some n else None
  end.

(** [std::getline(is, token, delim)]: [None] when nothing is left to read,
    else the characters up to the delimiter and the rest of the stream. *)
Fixpoint getline_rest (s : text) (delim : ascii) : text * text :=
  match s with
  | [] => ([], [])
  | c :: rest =>
      if Ascii.eqb c delim then ([], rest)
      else let '(token, rest') := getline_rest rest delim in (c :: token, rest')
  end.

Definition getline (s : text) (delim : ascii) : option (text * text) :=
  match s with
  | [] => None
  | _ => Some (getline_rest s delim)
  end.

(** [x] rounded to six significant decimal digits, ties to even. *)
Definition round_sig6 (x : Q) : Q :=
  if (Qnum x =? 0)%Z then 0
  else
    let '(m, e) := significand6 x in
    let v := inject_Z (Z.of_N m) * 10 ^ (e - 5) in
    if (Qnum x <? 0)%Z then - v else v.

End Text.

(** ** [framework/strategy_registry.cpp]: the registry

    The SQLite database is modelled by its two tables.  [strategies] has an
    [AUTOINCREMENT] key [id] and a [UNIQUE] column [parameters_hash];
    [parameter_regions] has the primary key [region_id] and is a finite map.
    [CURRENT_TIMESTAMP] is an argument [now] of the operations.  Statements
    are assumed to prepare and to run without I/O errors. *)

Module StrategyRegistry.

Record StrategyRow : Type := mkStrategyRow {
  id : Z;
  strategy_name : string;
  parameters_hash : string;
  parameters_json : string;
  total_return : Q;
  sharpe_ratio : Q;
  max_drawdown : Q;
  win_rate : Q;
  profit_factor : Q;
  total_trades : Z;
  composite_score : Q;
  tested_at : Z
}.

Record RegionRow : Type := mkRegionRow {
  exploration_count : Z;
  best_score : Q;
  last_tested : Z
}.

Record Database : Type := mkDatabase {
  strategies : list StrategyRow;
  (** the largest [id] ever handed out, kept by [AUTOINCREMENT] *)
  strategies_seq : Z;
  parameter_regions : gmap string RegionRow
}.

(** The result codes of [sqlite3_step] that the code distinguishes. *)
Inductive ResultCode : Type := SQLITE_DONE | SQLITE_CONSTRAINT.

Definition is_done (rc : ResultCode) : bool :=
  match rc with SQLITE_DONE => true | SQLITE_CONSTRAINT => false end.

(** The object: [db_] is null until [initialize] has opened the database. *)
Record t : Type := mk {
  db_ : option Database;
  db_path_ : string
}.

Definition empty_database : Database := mkDatabase [] 0 ∅.

(** [initialize] opens the file at [db_path_], whose tables are [stored] (a
    new file has none and gets empty ones). *)
Definition initialize (stored : option Database) (r : t) : bool * t :=
  (true, mk (Some (default empty_database stored)) (db_path_ r)).

(** *** Statements *)

Definition has_hash (signature : string) (row : StrategyRow) : bool :=
  String.eqb (parameters_hash row) signature.

(** [SELECT COUNT( * ) FROM strategies WHERE parameters_hash = ?] *)
Definition count_strategies (signature : string) (d : Database) : Z :=
  size (List.filter (has_hash signature) (strategies d)).

(** [INSERT OR REPLACE INTO strategies (...) VALUES (...)]: the rows that
    clash on the unique [parameters_hash] are deleted, then the new row is
    added under a fresh [id]. *)
Definition insert_or_replace_strategy (now : Z) (name signature json : string)
    (metrics : StrategyMetrics.t) (d : Database) : ResultCode * Database :=
  let new_id := (strategies_seq d + 1)%Z in
  let row :=
    {| id := new_id;
       strategy_name := name;
       parameters_hash := signature;
       parameters_json := json;
       total_return := StrategyMetrics.total_return metrics;
       sharpe_ratio := StrategyMetrics.sharpe_ratio metrics;
       max_drawdown := StrategyMetrics.max_drawdown metrics;
       win_rate := StrategyMetrics.win_rate metrics;
       profit_factor := StrategyMetrics.profit_factor metrics;
       total_trades := StrategyMetrics.total_trades metrics;
       composite_score := StrategyMetrics.composite_score metrics;
       tested_at := now |} in
  let kept := List.filter (fun r => negb (has_hash signature r)) (strategies d) in
  (SQLITE_DONE, mkDatabase (kept ++ [row]) new_id (parameter_regions d)).

(** [UPDATE parameter_regions SET exploration_count = exploration_count + 1,
    best_score = MAX(best_score, ?), last_tested = CURRENT_TIMESTAMP
    WHERE region_id = ?].  The statement is done whether or not a row
    matched. *)
Definition update_region (now : Z) (score : Q) (region_id : string) (d : Database)
  : ResultCode * Database :=
  let bump (row : RegionRow) :=
    {| exploration_count := (exploration_count row + 1)%Z;
       best_score := fmax (best_score row) score;
       last_tested := now |} in
  (SQLITE_DONE,
   mkDatabase (strategies d) (strategies_seq d) (alter bump region_id (parameter_regions d))).

(** [INSERT INTO parameter_regions (region_id, exploration_count, best_score)
    VALUES (?, 1, ?)] *)
Definition insert_region (now : Z) (region_id : string) (score : Q) (d : Database)
  : ResultCode * Database :=
  match parameter_regions d !! region_id with
  | Some _ => (SQLITE_CONSTRAINT, d)
  | None =>
      (SQLITE_DONE,
       mkDatabase (strategies d) (strategies_seq d)
         (<[region_id := mkRegionRow 1 score now]> (parameter_regions d)))
  end.

(** *** Keys *)

(** [std::round]: to the nearest integer, halves away from zero. *)
Definition round (x : Q) : Z :=
  if (Qnum x <? 0)%Z then (- Qfloor (- x + 0.5))%Z else Qfloor (x + 0.5).

Definition generate_strategy_signature (parameters : list Q) : string :=
  Text.str
    (for_each parameters (fun param oss => oss ++ Text.print_fixed 8 param ++ ["|"%char]) []).

Definition generate_parameter_region_id (parameters : list Q) : string :=
  Text.str
    (for_each parameters
       (fun param oss =>
          let bucket := to_double (round (param * 10)) / 10 in
          oss ++ Text.print_double bucket ++ ["|"%char])
       []).

(** The JSON array of the parameters written by [save_strategy_result]. *)
Fixpoint parameters_json_items (parameters : list Q) : Text.text :=
  match parameters with
  | [] => []
  | [param] => Text.print_double param
  | param :: rest => Text.print_double param ++ ","%char :: parameters_json_items rest
  end.

(** *** Operations *)

Definition is_strategy_tested (strategy_signature : string) (r : t) : bool :=
  match db_ r with
  | None => false
  | Some d => (count_strategies strategy_signature d >? 0)%Z
  end.

Definition update_exploration_region (now : Z) (region_id : string) (score : Q) (r : t)
  : bool * t :=
  match db_ r with
  | None => (false, r)
  | Some d =>
      let '(rc, d) := update_region now score region_id d in
      let updated := is_done rc in
      if negb updated then
        let '(rc, d) := insert_region now region_id score d in
        (is_done rc, mk (Some d) (db_path_ r))
      else (updated, mk (Some d) (db_path_ r))
  end.

Definition save_strategy_result (now : Z) (metrics : StrategyMetrics.t) (r : t) : bool * t :=
  match db_ r with
  | None => (false, r)
  | Some d =>
      let json :=
        Text.str
          ("["%char :: parameters_json_items (StrategyMetrics.parameters metrics)
             ++ ["]"%char]) in
      let signature := generate_strategy_signature (StrategyMetrics.parameters metrics) in
      let '(rc, d) :=
        insert_or_replace_strategy now (StrategyMetrics.strategy_name metrics) signature json
          metrics d in
      let success := is_done rc in
      let r := mk (Some d) (db_path_ r) in
      if success then
        let region_id := generate_parameter_region_id (StrategyMetrics.parameters metrics) in
        let '(_, r) := update_exploration_region now region_id (StrategyMetrics.composite_score metrics) r in
        (success, r)
      else (success, r)
  end.

Definition get_exploration_count (region_id : string) (r : t) : Z :=
  match db_ r with
  | None => 0%Z
  | Some d =>
      match parameter_regions d !! region_id with
      | Some row => exploration_count row
      | None => 0%Z
      end
  end.

Definition get_total_strategy_count (r : t) : Z :=
  match db_ r with
  | None => 0%Z
  | Some d => size (strategies d)
  end.

End StrategyRegistry.

(** ** [framework/strategy_registry.cpp]: CSV export and import

    The file is modelled by its contents; it is assumed to open. *)

Module StrategyManagement.

Definition newline : ascii := "010"%char.

(** [while (std::getline(is, token, delim))]: the tokens read in turn. *)
Fixpoint getlines (s : Text.text) (delim : ascii) : list Text.text :=
  match s with
  | [] => []
  | c :: rest =>
      if Ascii.eqb c delim then [] :: getlines rest delim
      else
        match getlines rest delim with
        | [] => [[c]]
        | token :: more => (c :: token) :: more
        end
  end.

Definition csv_header : Text.text :=
  Text.chars
    "Strategy,Total_Return,Sharpe_Ratio,Max_Drawdown,Win_Rate,Profit_Factor,Total_Trades,Composite_Score,Parameters".

(** The parameters of a row, separated by semicolons. *)
Fixpoint csv_parameters (parameters : list Q) : Text.text :=
  match parameters with
  | [] => []
  | [param] => Text.print_double param
  | param :: rest => Text.print_double param ++ ";"%char :: csv_parameters rest
  end.

Definition csv_row (strategy : StrategyMetrics.t) : Text.text :=
  Text.chars (StrategyMetrics.strategy_name strategy) ++ ","%char
    :: Text.print_double (StrategyMetrics.total_return strategy) ++ ","%char
    :: Text.print_double (StrategyMetrics.sharpe_ratio strategy) ++ ","%char
    :: Text.print_double (StrategyMetrics.max_drawdown strategy) ++ ","%char
    :: Text.print_double (StrategyMetrics.win_rate strategy) ++ ","%char
    :: Text.print_double (StrategyMetrics.profit_factor strategy) ++ ","%char
    :: Text.print_int (StrategyMetrics.total_trades strategy) ++ ","%char
    :: Text.print_double (StrategyMetrics.composite_score strategy) ++ ","%char
    :: csv_parameters (StrategyMetrics.parameters strategy) ++ [newline].

(** The contents of the file written by [export_strategies_to_csv]. *)
Definition export_strategies_to_csv (strategies : list StrategyMetrics.t) : Text.text :=
  for_each strategies (fun strategy file => file ++ csv_row strategy)
    (csv_header ++ [newline]).

(** [if (std::getline(iss, token, ',')) field = std::stod(token)] for the
    [i]-th token of a line: the member keeps its default when the line has
    run out. *)
Definition double_field (tokens : list Text.text) (i : nat) : Outcome Q :=
  match List.nth_error tokens i with
  | None => Returned 0
  | Some token =>
      match Text.stod token with
      | Some v => Returned v
      | None => Thrown "stod"
      end
  end.

Definition int_field (tokens : list Text.text) (i : nat) : Outcome Z :=
  match List.nth_error tokens i with
  | None => Returned 0%Z
  | Some token =>
      match Text.stoi token with
      | Some v => Returned v
      | None => Thrown "stoi"
      end
  end.

Fixpoint double_list (params : list Text.text) : Outcome (list Q) :=
  match params with
  | [] => Returned []
  | param :: rest =>
      match Text.stod param with
      | None => Thrown "stod"
      | Some v =>
          match double_list rest with
          | Returned vs => Returned (v :: vs)
          | Thrown what => Thrown what
          end
      end
  end.

Definition bind {A B : Type} (o : Outcome A) (k : A -> Outcome B) : Outcome B :=
  match o with
  | Returned a => k a
  | Thrown what => Thrown what
  end.

Notation "x <- o ;; k" := (bind o (fun x => k))
  (at level 100, o at next level, right associativity).

(** One data line of the file. *)
Definition import_row (line : Text.text) : Outcome StrategyMetrics.t :=
  let tokens := getlines line "," in
  let strategy_name :=
    match List.nth_error tokens 0 with Some token => Text.str token | None => EmptyString end in
  total_return <- double_field tokens 1 ;;
  sharpe_ratio <- double_field tokens 2 ;;
  max_drawdown <- double_field tokens 3 ;;
  win_rate <- double_field tokens 4 ;;
  profit_factor <- double_field tokens 5 ;;
  total_trades <- int_field tokens 6 ;;
  composite_score <- double_field tokens 7 ;;
  parameters <-
    match List.nth_error tokens 8 with
    | Some token => double_list (getlines token ";")
    | None => Returned []
    end ;;
  Returned
    {| StrategyMetrics.strategy_name := strategy_name;
       StrategyMetrics.parameters := parameters;
       StrategyMetrics.symbol := EmptyString;
       StrategyMetrics.total_return := total_return;
       StrategyMetrics.sharpe_ratio := sharpe_ratio;
       StrategyMetrics.max_drawdown := max_drawdown;
       StrategyMetrics.win_rate := win_rate;
       StrategyMetrics.profit_factor := profit_factor;
       StrategyMetrics.avg_trade := 0;
       StrategyMetrics.total_trades := total_trades;
       StrategyMetrics.calmar_ratio := 0;
       StrategyMetrics.sortino_ratio := 0;
       StrategyMetrics.var_95 := 0;
       StrategyMetrics.expected_shortfall := 0;
       StrategyMetrics.avg_hold_period := 0;
       StrategyMetrics.max_adverse_excursion := 0;
       StrategyMetrics.max_favorable_excursion := 0;
       StrategyMetrics.composite_score := composite_score;
       StrategyMetrics.market_data := [] |}.

Fixpoint import_rows (lines : list Text.text) : Outcome (list StrategyMetrics.t) :=
  match lines with
  | [] => Returned []
  | line :: rest =>
      metrics <- import_row line ;;
      strategies <- import_rows rest ;;
      Returned (metrics :: strategies)
  end.

(** [import_strategies_from_csv] on the contents of the file; the first line
    is the header and is skipped.  An exception of [std::stod] or
    [std::stoi] leaves the function. *)
Definition import_strategies_from_csv (file : Text.text) : Outcome (list StrategyMetrics.t) :=
  match getlines file newline with
  | [] => Returned []
  | _header :: lines => import_rows lines
  end.

End StrategyManagement.

(** ** [framework/strategy_registry.cpp]: reading rows back

    Further members of [StrategyRegistry]. *)

Module StrategyRegistryQueries.

Import StrategyRegistry StrategyManagement.

(** [a - b] on [size_t], for operands below [2^64] as the sizes of strings
    are: the difference wraps around. *)
Definition size_t_sub (a b : Z) : Z :=
  if (a <? b)%Z then (a - b + 2 ^ 64)%Z else (a - b)%Z.

(** [s.substr(pos, count)], with [pos] and [count] of type [size_t]: it
    throws [std::out_of_range] when [pos] is beyond the end. *)
Definition substr (s : Text.text) (pos count : Z) : Outcome Text.text :=
  if (pos >? size s)%Z then Thrown "basic_string::substr"
  else Returned (List.firstn (Z.to_nat count) (List.skipn (Z.to_nat pos) s)).

(** The loop [while (std::getline(iss, param, ','))] on the tokens read:
    an empty token is skipped, and [std::stod] throws on a token that is not
    a number. *)
Fixpoint parse_parameters (tokens : list Text.text) : Outcome (list Q) :=
  match tokens with
  | [] => Returned []
  | param :: rest =>
      match param with
      | [] => parse_parameters rest
      | _ =>
          match Text.stod param with
          | None => Thrown "stod"
          | Some v =>
              match parse_parameters rest with
              | Returned vs => Returned (v :: vs)
              | Thrown what => Thrown what
              end
          end
      end
  end.

(** [load_strategy_from_db] on the row the statement is positioned on. *)
Definition load_strategy_from_db (row : StrategyRow) : Outcome StrategyMetrics.t :=
  let params_json := Text.chars (parameters_json row) in
  inner <- substr params_json 1 (size_t_sub (size params_json) 2) ;;
  parameters <- parse_parameters (getlines inner ",") ;;
  Returned
    {| StrategyMetrics.strategy_name := strategy_name row;
       StrategyMetrics.parameters := parameters;
       StrategyMetrics.symbol := EmptyString;
       StrategyMetrics.total_return := total_return row;
       StrategyMetrics.sharpe_ratio := sharpe_ratio row;
       StrategyMetrics.max_drawdown := max_drawdown row;
       StrategyMetrics.win_rate := win_rate row;
       StrategyMetrics.profit_factor := profit_factor row;
       StrategyMetrics.avg_trade := 0;
       StrategyMetrics.total_trades := total_trades row;
       StrategyMetrics.calmar_ratio := 0;
       StrategyMetrics.sortino_ratio := 0;
       StrategyMetrics.var_95 := 0;
       StrategyMetrics.expected_shortfall := 0;
       StrategyMetrics.avg_hold_period := 0;
       StrategyMetrics.max_adverse_excursion := 0;
       StrategyMetrics.max_favorable_excursion := 0;
       StrategyMetrics.composite_score := composite_score row;
       StrategyMetrics.market_data := [] |}.

(** [ORDER BY exploration_count ASC]; rows with equal counts come in an
    order SQL leaves open, here that of the enumeration of the table. *)
Fixpoint insert_by_count (x : string * RegionRow) (v : list (string * RegionRow))
  : list (string * RegionRow) :=
  match v with
  | [] => [x]
  | y :: tl =>
      if (exploration_count (snd x) <=? exploration_count (snd y))%Z then x :: v
      else y :: insert_by_count x tl
  end.

(** [SELECT region_id FROM parameter_regions WHERE exploration_count < 5
    ORDER BY exploration_count ASC] *)
Definition get_underexplored_regions (r : t) : list string :=
  match db_ r with
  | None => []
  | Some d =>
      let rows :=
        List.filter (fun x => (exploration_count (snd x) <? 5)%Z)
          (map_to_list (parameter_regions d)) in
      List.map fst (List.fold_right insert_by_count [] rows)
  end.

End StrategyRegistryQueries.

(** ** Random parameters

    [rand()] draws from a generator hidden in the C library.  The generator
    is modelled by the sequence [rand_values] of the numbers it returns and
    its state by the number of draws made so far. *)

Module Random.

Section WithGenerator.

Variable RAND_MAX : Z.
Variable rand_values : nat -> Z.

Definition rand (drawn : nat) : Z * nat := (rand_values drawn, S drawn).

(** [static_cast<double>(rand()) / RAND_MAX] *)
Definition rand_unit (drawn : nat) : Q * nat :=
  let '(r, drawn) := rand drawn in (to_double r / to_double RAND_MAX, drawn).

(** [StrategyTester::generate_random_parameters] and
    [generate_random_parameters_static], which have the same body. *)
Definition generate_random_parameters (ranges : list (Q * Q)) (drawn : nat)
  : list Q * nat :=
  for_each ranges
    (fun range '(params, drawn) =>
       let '(u, drawn) := rand_unit drawn in
       let param := fst range + (snd range - fst range) * u in
       (params ++ [param], drawn))
    ([], drawn).

(** [StrategyGeneration::generate_sma_configs]; [%] is the remainder of the
    truncated division. *)
Definition generate_sma_configs (num_configs short_min short_max long_min long_max : Z)
    (drawn : nat) : list StrategyTestConfig.t * nat :=
  for_each (List.seq 0 (Z.to_nat num_configs))
    (fun _ '(configs, drawn) =>
       let '(r, drawn) := rand drawn in
       let short_win := (short_min + Z.rem r (short_max - short_min + 1))%Z in
       let '(r, drawn) := rand drawn in
       let long_win := (long_min + Z.rem r (long_max - long_min + 1))%Z in
       let '(r, drawn) := rand drawn in
       let fee := 0.0001 + to_double (Z.rem r 100) * 0.00001 in
       let '(short_win, long_win) :=
         if (short_win >=? long_win)%Z then (long_win, short_win)
         else (short_win, long_win) in
       let config :=
         {| StrategyTestConfig.strategy_name := "SMA";
            StrategyTestConfig.parameters := [to_double short_win; to_double long_win; fee];
            StrategyTestConfig.symbol := "DEMO";
            StrategyTestConfig.initial_capital := 100000;
            StrategyTestConfig.max_bars := 1000;
            StrategyTestConfig.enable_risk_management := true;
            StrategyTestConfig.enable_volatility_sizing := true;
            StrategyTestConfig.enable_atr_stops := true |} in
       (configs ++ [config], drawn))
    ([], drawn).

End WithGenerator.

End Random.

(** ** [framework/strategy_registry.cpp]: [ExplorationManager]

    The manager holds a reference to the registry, which is an argument of
    the methods here. *)

Module ExplorationManager.

Import StrategyRegistry.

Section WithGenerator.

Variable RAND_MAX : Z.
Variable rand_values : nat -> Z.

Definition generate_exploration_parameters (ranges : list (Q * Q)) (registry_ : t)
    (drawn : nat) : list Q * nat :=
  let underexplored := StrategyRegistryQueries.get_underexplored_regions registry_ in
  match underexplored with
  | target_region :: _ =>
      for_each ranges
        (fun range '(params, drawn) =>
           let '(u, drawn) := Random.rand_unit RAND_MAX rand_values drawn in
           let random_value := fst range + (snd range - fst range) * u in
           (params ++ [random_value], drawn))
        ([], drawn)
  | [] =>
      for_each ranges
        (fun range '(params, drawn) =>
           let '(u, drawn) := Random.rand_unit RAND_MAX rand_values drawn in
           let random_value := fst range + (snd range - fst range) * u in
           (params ++ [random_value], drawn))
        ([], drawn)
  end.

Definition get_parameter_region (parameters : list Q) : string :=
  Text.str
    (for_each parameters
       (fun param oss =>
          let bucket := to_double (round (param * 10)) / 10 in
          oss ++ Text.print_double bucket ++ ["|"%char])
       []).

Definition update_exploration_stats (now : Z) (parameters : list Q) (score : Q)
    (registry_ : t) : t :=
  let region_id := get_parameter_region parameters in
  snd (update_exploration_region now region_id score registry_).

(** [mutate_around_successful].  The loop runs over the indices of
    [base_params] and reads [ranges] at the same index; the ranges of the
    callers are at least as long as the parameters. *)
Definition mutate_around_successful (base_params : list Q) (ranges : list (Q * Q))
    (drawn : nat) : list Q * nat :=
  for_each (List.seq 0 (List.length base_params))
    (fun i '(mutated_params, drawn) =>
       let '(rand_val, drawn) := Random.rand_unit RAND_MAX rand_values drawn in
       if rand_val <? 0.3 then
         let '(u, drawn) := Random.rand_unit RAND_MAX rand_values drawn in
         let mutation := -0.1 + 0.2 * u in
         let range := List.nth i ranges (0, 0) in
         let value := List.nth i base_params 0 + (snd range - fst range) * mutation in
         let value := fmax (fst range) (fmin (snd range) value) in
         (<[i := value]> mutated_params, drawn)
       else (mutated_params, drawn))
    (base_params, drawn).

End WithGenerator.

End ExplorationManager.

(** ** [framework/strategy_registry.cpp]: [SmartStrategyTester] *)

Module SmartStrategyTester.

Import StrategyRegistry.

Section WithLibrary.

Variable sqrt : Q -> Q.
Variable make_rsi_strategy : Z -> Q -> Q -> Z -> Q -> string -> Strategy.t.
Variable make_macd_strategy : Z -> Z -> Z -> Q -> Q -> Q -> string -> Strategy.t.

(** [CURRENT_TIMESTAMP] at the save made in the attempt of a given number. *)
Variable now : Z -> Z.

(** [rand()], see [Random]. *)
Variable RAND_MAX : Z.
Variable rand_values : nat -> Z.

Definition is_config_duplicate (config : StrategyTestConfig.t) (registry_ : t) : bool :=
  let signature := generate_strategy_signature (StrategyTestConfig.parameters config) in
  is_strategy_tested signature registry_.

(** The loop of [test_strategies_with_deduplication] over the configurations
    left, on its variables [results] and [attempts] and on the registry. *)
Fixpoint deduplication_loop (configs : list StrategyTestConfig.t) (data : list Bar.t)
    (max_attempts : Z) (results : list StrategyMetrics.t) (attempts : Z) (registry_ : t)
  : list StrategyMetrics.t * t :=
  match configs with
  | [] => (results, registry_)
  | config :: rest =>
      if (attempts >=? max_attempts)%Z then (results, registry_)
      else
        let signature := generate_strategy_signature (StrategyTestConfig.parameters config) in
        if is_strategy_tested signature registry_ then
          deduplication_loop rest data max_attempts results (attempts + 1)%Z registry_
        else
          let metrics :=
            fst (StrategyTester.test_strategy sqrt make_rsi_strategy make_macd_strategy
                   config data) in
          let results := results ++ [metrics] in
          let '(_, registry_) := save_strategy_result (now attempts) metrics registry_ in
          deduplication_loop rest data max_attempts results (attempts + 1)%Z registry_
  end.

(** The results returned and the registry afterwards. *)
Definition test_strategies_with_deduplication (configs : list StrategyTestConfig.t)
    (data : list Bar.t) (max_attempts : Z) (registry_ : t) : list StrategyMetrics.t * t :=
  deduplication_loop configs data max_attempts [] 0%Z registry_.

(** The parameter ranges of [discover_strategies]: the short window, the
    long window and the fee. *)
Definition param_ranges : list (Q * Q) := [(5, 50); (20, 200); (0.0001, 0.001)].

(** The loop of [discover_strategies], on its variables [results] and
    [attempts], the registry and the state of [rand()].  Every iteration
    adds one to [attempts], so that the loop ends within
    [max_total_attempts] iterations; [fuel] bounds their number. *)
Fixpoint discovery_loop (fuel : nat) (data : list Bar.t) (target_count max_total_attempts : Z)
    (results : list StrategyMetrics.t) (attempts : Z) (registry_ : t) (drawn : nat)
  : list StrategyMetrics.t * t * nat :=
  match fuel with
  | O => (results, registry_, drawn)
  | S fuel =>
      if (size results <? size_t_of_int target_count)%Z
         && (attempts <? max_total_attempts)%Z
      then
        let '(parameters, drawn) :=
          ExplorationManager.generate_exploration_parameters RAND_MAX rand_values
            param_ranges registry_ drawn in
        let parameters :=
          if (size parameters >=? 2)%Z then
            let short_win := Z.max 2 (trunc (List.nth 0 parameters 0)) in
            let long_win := Z.max (short_win + 5) (trunc (List.nth 1 parameters 0)) in
            <[1%nat := to_double long_win]> (<[0%nat := to_double short_win]> parameters)
          else parameters in
        let config :=
          {| StrategyTestConfig.strategy_name := "SMA";
             StrategyTestConfig.parameters := parameters;
             StrategyTestConfig.symbol := "DEMO";
             StrategyTestConfig.initial_capital := 100000;
             StrategyTestConfig.max_bars := 1000;
             StrategyTestConfig.enable_risk_management := true;
             StrategyTestConfig.enable_volatility_sizing := true;
             StrategyTestConfig.enable_atr_stops := true |} in
        let signature := generate_strategy_signature parameters in
        if is_strategy_tested signature registry_ then
          discovery_loop fuel data target_count max_total_attempts results (attempts + 1)%Z
            registry_ drawn
        else
          let metrics :=
            fst (StrategyTester.test_strategy sqrt make_rsi_strategy make_macd_strategy
                   config data) in
          let results := results ++ [metrics] in
          let '(_, registry_) := save_strategy_result (now attempts) metrics registry_ in
          let registry_ :=
            ExplorationManager.update_exploration_stats (now attempts) parameters
              (StrategyMetrics.composite_score metrics) registry_ in
          discovery_loop fuel data target_count max_total_attempts results (attempts + 1)%Z
            registry_ drawn
      else (results, registry_, drawn)
  end.

(** The results returned, the registry and the state of [rand()]
    afterwards. *)
Definition discover_strategies (data : list Bar.t) (target_count max_total_attempts : Z)
    (registry_ : t) (drawn : nat) : list StrategyMetrics.t * t * nat :=
  discovery_loop (Z.to_nat max_total_attempts) data target_count max_total_attempts [] 0%Z
    registry_ drawn.

End WithLibrary.

End SmartStrategyTester.


(** ** [framework/strategy_tester.cpp]: batches

    Further members of [StrategyTester]. *)

Module StrategyTesterBatch.

Section WithLibrary.

Variable sqrt : Q -> Q.
Variable make_rsi_strategy : Z -> Q -> Q -> Z -> Q -> string -> Strategy.t.
Variable make_macd_strategy : Z -> Z -> Z -> Q -> Q -> Q -> string -> Strategy.t.

(** [std::sort] with the comparison [a.composite_score > b.composite_score];
    the order it gives to results of equal score is not specified, here
    they keep the order of their insertion. *)
Fixpoint insert_ranked (x : StrategyMetrics.t) (v : list StrategyMetrics.t)
  : list StrategyMetrics.t :=
  match v with
  | [] => [x]
  | y :: tl =>
      if StrategyMetrics.composite_score x >? StrategyMetrics.composite_score y
      then x :: v else y :: insert_ranked x tl
  end.

Definition sort_by_score (v : list StrategyMetrics.t) : list StrategyMetrics.t :=
  List.fold_right insert_ranked [] v.

Definition test_multiple_strategies (configs : list StrategyTestConfig.t) (data : list Bar.t)
  : list StrategyMetrics.t :=
  let results :=
    for_each configs
      (fun config results =>
         let metrics :=
           fst (StrategyTester.test_strategy sqrt make_rsi_strategy make_macd_strategy
                  config data) in
         results ++ [metrics])
      [] in
  sort_by_score results.

(** [select_top_strategies]: the first [selection_count] results, for a
    [num_top] that is not negative. *)
Definition select_top_strategies (results : list StrategyMetrics.t) (num_top : Z)
  : list StrategyMetrics.t :=
  let selection_count := Z.min num_top (size results) in
  List.firstn (Z.to_nat selection_count) results.

End WithLibrary.

End StrategyTesterBatch.

(** * Properties *)

(** ** Comparisons on doubles *)

Lemma Qltb_lt (x y : Q) : (x <? y) = true <-> x < y.
Proof.
  unfold Qltb. rewrite negb_true_iff. split; intro H.
  - apply Qnot_le_lt. intro Hle. apply Qle_bool_iff in Hle. congruence.
  - destruct (Qle_bool y x) eqn:E; [|reflexivity].
    apply Qle_bool_iff in E. exfalso. apply (Qlt_not_le _ _ H E).
Qed.

Lemma Qltb_ge (x y : Q) : (x <? y) = false <-> y <= x.
Proof.
  unfold Qltb. rewrite negb_false_iff. apply Qle_bool_iff.
Qed.

Lemma Qleb_gt (x y : Q) : (x <=? y) = false <-> y < x.
Proof.
  rewrite <- Qltb_lt. unfold Qltb. destruct (Qle_bool x y); simpl; intuition congruence.
Qed.

Lemma Qeqb_neq (x y : Q) : (x =? y) = false <-> ~ x == y.
Proof.
  split; intro H.
  - now apply Qeq_bool_neq.
  - destruct (Qeq_bool x y) eqn:E; [|reflexivity].
    apply Qeq_bool_iff in E. contradiction.
Qed.

(** Turns the boolean tests on doubles in the context into propositions. *)
Ltac reflect_Q :=
  repeat match goal with
  | H : (_ || _)%bool = true |- _ => apply orb_true_iff in H
  | H : (_ || _)%bool = false |- _ => apply orb_false_iff in H; destruct H
  | H : (_ && _)%bool = true |- _ => apply andb_true_iff in H; destruct H
  | H : (_ && _)%bool = false |- _ => apply andb_false_iff in H
  | H : negb _ = true |- _ => apply negb_true_iff in H
  | H : negb _ = false |- _ => apply negb_false_iff in H
  | H : Qgtb _ _ = _ |- _ => unfold Qgtb in H
  | H : Qgeb _ _ = _ |- _ => unfold Qgeb in H
  | H : Qltb _ _ = true |- _ => apply Qltb_lt in H
  | H : Qltb _ _ = false |- _ => apply Qltb_ge in H
  | H : Qle_bool _ _ = true |- _ => apply Qle_bool_iff in H
  | H : Qle_bool _ _ = false |- _ => apply Qleb_gt in H
  | H : Qeq_bool _ _ = true |- _ => apply Qeq_bool_iff in H
  | H : Qeq_bool _ _ = false |- _ => apply Qeqb_neq in H
  end.

(** Case analysis on the first conditional of the goal. *)
Ltac break_if :=
  match goal with
  | |- context [if ?c then _ else _] => let E := fresh "E" in destruct c eqn:E
  end.

Lemma fmax_le_l (a b : Q) : a <= fmax a b.
Proof. unfold fmax. destruct (a <? b) eqn:E; reflect_Q; lra. Qed.

Lemma fmax_le_r (a b : Q) : b <= fmax a b.
Proof. unfold fmax. destruct (a <? b) eqn:E; reflect_Q; lra. Qed.

Lemma fmin_le_l (a b : Q) : fmin a b <= a.
Proof. unfold fmin. destruct (b <? a) eqn:E; reflect_Q; lra. Qed.

Lemma fmin_le_r (a b : Q) : fmin a b <= b.
Proof. unfold fmin. destruct (b <? a) eqn:E; reflect_Q; lra. Qed.

(** ** The SMA crossover strategy *)

(** Reduction of member accesses after assignments. *)
Ltac sma_cbn :=
  cbn [
    SmaCrossStrategy.trades_ SmaCrossStrategy.portfolio_value_ SmaCrossStrategy.risk_config_
    SmaCrossStrategy.sw_ SmaCrossStrategy.lw_ SmaCrossStrategy.fee_ SmaCrossStrategy.symbol_
    SmaCrossStrategy.closes_ SmaCrossStrategy.short_sma_ SmaCrossStrategy.long_sma_
    SmaCrossStrategy.position_ SmaCrossStrategy.current_position_ SmaCrossStrategy.cash_
    SmaCrossStrategy.fees_paid_ SmaCrossStrategy.last_price_ SmaCrossStrategy.last_date_
    SmaCrossStrategy.previous_value_ SmaCrossStrategy.stop_loss_price_
    SmaCrossStrategy.take_profit_price_ SmaCrossStrategy.trailing_stop_price_
    SmaCrossStrategy.peak_portfolio_value_ SmaCrossStrategy.max_drawdown_
    SmaCrossStrategy.daily_returns_ SmaCrossStrategy.final_sharpe_ratio_
    SmaCrossStrategy.final_max_drawdown_ SmaCrossStrategy.final_total_return_
    SmaCrossStrategy.set_trades_ SmaCrossStrategy.set_portfolio_value_
    SmaCrossStrategy.set_closes_ SmaCrossStrategy.set_short_sma_
    SmaCrossStrategy.set_long_sma_ SmaCrossStrategy.set_position_
    SmaCrossStrategy.set_current_position_ SmaCrossStrategy.set_cash_
    SmaCrossStrategy.set_fees_paid_ SmaCrossStrategy.set_last_price_
    SmaCrossStrategy.set_last_date_ SmaCrossStrategy.set_previous_value_
    SmaCrossStrategy.set_stop_loss_price_ SmaCrossStrategy.set_take_profit_price_
    SmaCrossStrategy.set_trailing_stop_price_ SmaCrossStrategy.set_peak_portfolio_value_
    SmaCrossStrategy.set_max_drawdown_ SmaCrossStrategy.set_daily_returns_
    SmaCrossStrategy.set_final_sharpe_ratio_ SmaCrossStrategy.set_final_max_drawdown_
    SmaCrossStrategy.set_final_total_return_ SmaCrossStrategy.quantity Position.quantity
    Position.avg_entry_price Position.symbol Position.current_price Position.unrealized_pnl
    Position.realized_pnl fst snd ] in *.

Section SmaProperties.

Import SmaCrossStrategy.

Variable sqrt : Q -> Q.

(** The simulation loop: the object after [on_bar] has been called on each
    bar in turn. *)
Definition run (bars : list Bar.t) (s : t) : t := for_each bars (on_bar sqrt) s.

Lemma run_snoc (pre : list Bar.t) (b : Bar.t) (s : t) :
  run (pre ++ [b]) s = on_bar sqrt b (run pre s).
Proof. unfold run, for_each. now rewrite List.fold_left_app. Qed.

(** *** What each method leaves alone *)

Lemma update_trailing_stop_frame (p : Q) (s : t) :
  let s' := update_trailing_stop p s in
  current_position_ s' = current_position_ s /\ cash_ s' = cash_ s /\
  portfolio_value_ s' = portfolio_value_ s /\ max_drawdown_ s' = max_drawdown_ s /\
  trades_ s' = trades_ s.
Proof. unfold update_trailing_stop. repeat break_if; sma_cbn; auto. Qed.

Lemma should_exit_position_frame (b : Bar.t) (s : t) :
  let s' := snd (should_exit_position b s) in
  current_position_ s' = current_position_ s /\ cash_ s' = cash_ s /\
  portfolio_value_ s' = portfolio_value_ s /\ max_drawdown_ s' = max_drawdown_ s /\
  trades_ s' = trades_ s.
Proof.
  unfold should_exit_position.
  repeat break_if; sma_cbn; auto; apply update_trailing_stop_frame.
Qed.

Lemma calculate_smas_frame (s : t) :
  let s' := calculate_smas s in
  current_position_ s' = current_position_ s /\ cash_ s' = cash_ s /\
  portfolio_value_ s' = portfolio_value_ s /\ max_drawdown_ s' = max_drawdown_ s /\
  trades_ s' = trades_ s /\ last_price_ s' = last_price_ s.
Proof. unfold calculate_smas. repeat break_if; sma_cbn; auto 7. Qed.

Lemma update_position_value_max_drawdown (p : Q) (s : t) :
  max_drawdown_ (update_position_value p s) = max_drawdown_ s.
Proof. unfold update_position_value. break_if; reflexivity. Qed.

Lemma close_position_max_drawdown (d : Z) (p : Q) (s : t) :
  max_drawdown_ (close_position d p s) = max_drawdown_ s.
Proof. unfold close_position. repeat break_if; reflexivity. Qed.

Lemma open_position_max_drawdown (d : Z) (p : Q) (dir : Z) (s : t) :
  max_drawdown_ (open_position sqrt d p dir s) = max_drawdown_ s.
Proof.
  unfold open_position.
  repeat break_if; rewrite ?update_position_value_max_drawdown; reflexivity.
Qed.

Lemma execute_trading_logic_max_drawdown (b : Bar.t) (signal : Z) (s : t) :
  max_drawdown_ (execute_trading_logic sqrt b signal s) = max_drawdown_ s.
Proof.
  unfold execute_trading_logic.
  assert (Hexit : max_drawdown_ (snd (should_exit_position b s)) = max_drawdown_ s)
    by apply should_exit_position_frame.
  destruct (negb (quantity s =? 0)); [destruct (should_exit_position b s) as [e s1]|];
    sma_cbn.
  - destruct e; [now rewrite close_position_max_drawdown|].
    rewrite update_position_value_max_drawdown.
    repeat break_if; sma_cbn;
      rewrite ?open_position_max_drawdown, ?close_position_max_drawdown; assumption.
  - rewrite update_position_value_max_drawdown.
    repeat break_if; sma_cbn;
      rewrite ?open_position_max_drawdown, ?close_position_max_drawdown; reflexivity.
Qed.

(** *** Drawdown *)

Lemma update_performance_metrics_max_drawdown (s : t) :
  max_drawdown_ s <= max_drawdown_ (update_performance_metrics s).
Proof.
  unfold update_performance_metrics.
  repeat (break_if; sma_cbn); reflect_Q; lra.
Qed.

Lemma on_bar_max_drawdown (b : Bar.t) (s : t) :
  max_drawdown_ s <= max_drawdown_ (on_bar sqrt b s).
Proof.
  unfold on_bar. break_if.
  - rewrite update_position_value_max_drawdown. sma_cbn. lra.
  - eapply Qle_trans; [|apply update_performance_metrics_max_drawdown].
    sma_cbn. rewrite execute_trading_logic_max_drawdown.
    destruct (calculate_smas_frame (set_closes_ (closes_ s ++ [Bar.close b]) s))
      as (_ & _ & _ & -> & _).
    sma_cbn. lra.
Qed.

Lemma run_max_drawdown (bars : list Bar.t) (s : t) :
  max_drawdown_ s <= max_drawdown_ (run bars s).
Proof.
  revert s. induction bars as [|b bars IH]; intro s.
  - unfold run, for_each. simpl. lra.
  - unfold run, for_each in *. simpl.
    eapply Qle_trans; [apply (on_bar_max_drawdown b)|apply IH].
Qed.

(** *** Mark-to-market bookkeeping *)

(** The portfolio value is the cash plus the position valued at [price]. *)
Definition marked_to_market (price : Q) (s : t) : Prop :=
  portfolio_value_ s == cash_ s + quantity s * price.

(** An open position was entered at a positive price. *)
Definition entry_price_positive (s : t) : Prop :=
  ~ quantity s == 0 -> 0 < Position.avg_entry_price (current_position_ s).

Lemma marked_flat (price : Q) (s : t) :
  marked_to_market price s -> quantity s == 0 -> portfolio_value_ s == cash_ s.
Proof. unfold marked_to_market. intros -> ->. ring. Qed.

Lemma update_position_value_marked (p : Q) (s : t) :
  marked_to_market p (update_position_value p s).
Proof.
  unfold marked_to_market, update_position_value.
  break_if; sma_cbn; reflect_Q; [rewrite E; ring | reflexivity].
Qed.

Lemma close_position_flat (d : Z) (p : Q) (s : t) :
  0 < p ->
  quantity (close_position d p s) == 0 /\
  portfolio_value_ (close_position d p s) == cash_ (close_position d p s).
Proof.
  intro Hp. unfold close_position.
  destruct (quantity s =? 0) eqn:Hq; cbn [orb].
  - sma_cbn. reflect_Q. split; [assumption | reflexivity].
  - destruct (p <=? 0) eqn:Hle; [reflect_Q; lra|].
    break_if; sma_cbn; split; reflexivity.
Qed.

Lemma execute_trading_logic_marked (b : Bar.t) (signal : Z) (s : t) :
  0 < Bar.close b ->
  marked_to_market (Bar.close b) (execute_trading_logic sqrt b signal s).
Proof.
  intro Hp. unfold execute_trading_logic.
  match goal with
  | |- context [let '(_, _) := ?c in _] => destruct c as [[|] s1]
  end.
  - destruct (close_position_flat (Bar.date b) (Bar.close b) s1 Hp) as [Hq Hv].
    unfold marked_to_market. rewrite Hv, Hq. ring.
  - apply update_position_value_marked.
Qed.

Lemma update_performance_metrics_frame (s : t) :
  let s' := update_performance_metrics s in
  current_position_ s' = current_position_ s /\ cash_ s' = cash_ s /\
  portfolio_value_ s' = portfolio_value_ s /\ trades_ s' = trades_ s /\
  last_price_ s' = last_price_ s.
Proof. unfold update_performance_metrics. repeat break_if; sma_cbn; auto 6. Qed.

Lemma on_bar_marked (b : Bar.t) (s : t) :
  0 < Bar.close b -> marked_to_market (Bar.close b) (on_bar sqrt b s).
Proof.
  intro Hp. unfold on_bar. break_if.
  - apply update_position_value_marked.
  - match goal with |- marked_to_market _ (update_performance_metrics ?s1) =>
      destruct (update_performance_metrics_frame s1) as (Hc & Hm & Hv & _);
      assert (H1 : marked_to_market (Bar.close b) s1)
    end.
    { unfold marked_to_market. sma_cbn. now apply execute_trading_logic_marked. }
    unfold marked_to_market, quantity in *. cbn zeta in Hc, Hm, Hv.
    now rewrite Hc, Hm, Hv.
Qed.

Lemma update_position_value_entry (p : Q) (s : t) :
  entry_price_positive s -> entry_price_positive (update_position_value p s).
Proof.
  unfold entry_price_positive, update_position_value.
  break_if; sma_cbn; auto.
Qed.

Lemma close_position_entry (d : Z) (p : Q) (s : t) :
  entry_price_positive s -> entry_price_positive (close_position d p s).
Proof.
  unfold entry_price_positive, close_position.
  repeat break_if; sma_cbn; auto; intros _ H; exfalso; apply H; reflexivity.
Qed.

Lemma open_position_entry (d : Z) (p : Q) (dir : Z) (s : t) :
  entry_price_positive s -> entry_price_positive (open_position sqrt d p dir s).
Proof.
  intro H. unfold open_position.
  destruct (p <=? 0) eqn:Hp; [assumption|].
  break_if; [assumption|].
  apply update_position_value_entry. reflect_Q.
  unfold entry_price_positive. break_if; sma_cbn; intros _; assumption.
Qed.

Lemma execute_trading_logic_entry (b : Bar.t) (signal : Z) (s : t) :
  entry_price_positive s -> entry_price_positive (execute_trading_logic sqrt b signal s).
Proof.
  intro H. unfold execute_trading_logic.
  assert (H1 : entry_price_positive (snd (should_exit_position b s))).
  { destruct (should_exit_position_frame b s) as (Hc & _).
    unfold entry_price_positive, quantity in *. cbn zeta in Hc. now rewrite Hc. }
  assert (H2 : forall s1, entry_price_positive s1 ->
    entry_price_positive
      (update_position_value (Bar.close b)
         (if negb (signal =? position_ s1)%Z
          then
            set_position_ signal
              ((fun s2 =>
                  if negb (signal =? 0)%Z
                  then open_position sqrt (Bar.date b) (Bar.close b) signal s2 else s2)
                 (if negb (quantity s1 =? 0)
                  then close_position (Bar.date b) (Bar.close b) s1 else s1))
          else s1))).
  { intros s1 Hs1. apply update_position_value_entry.
    break_if; [|assumption].
    assert (H3 : forall s2, entry_price_positive s2 ->
                 entry_price_positive (set_position_ signal s2)) by (intros s2 Hs2; exact Hs2).
    apply H3. cbn beta.
    break_if; [apply open_position_entry|]; break_if;
      try apply close_position_entry; assumption. }
  destruct (negb (quantity s =? 0)); [destruct (should_exit_position b s) as [e s1]|];
    sma_cbn.
  - destruct e; [now apply close_position_entry | now apply H2].
  - now apply H2.
Qed.

Lemma on_bar_entry (b : Bar.t) (s : t) :
  entry_price_positive s -> entry_price_positive (on_bar sqrt b s).
Proof.
  intro H. unfold on_bar. break_if.
  - apply update_position_value_entry. exact H.
  - match goal with |- entry_price_positive (update_performance_metrics ?s1) =>
      destruct (update_performance_metrics_frame s1) as (Hc & _);
      assert (H1 : entry_price_positive s1)
    end.
    { assert (H3 : forall s2, entry_price_positive s2 ->
        entry_price_positive
          (set_last_date_ (Bar.date b) (set_last_price_ (Bar.close b) s2)))
        by (intros s2 Hs2; exact Hs2).
      apply H3, execute_trading_logic_entry.
      destruct (calculate_smas_frame (set_closes_ (closes_ s ++ [Bar.close b]) s))
        as (Hs & _).
      unfold entry_price_positive, quantity in *. cbn zeta in Hs. rewrite Hs. exact H. }
    unfold entry_price_positive, quantity in *. cbn zeta in Hc. now rewrite Hc.
Qed.

Lemma run_entry (bars : list Bar.t) (s : t) :
  entry_price_positive s -> entry_price_positive (run bars s).
Proof.
  revert s. induction bars as [|b bars IH]; intros s H; [exact H|].
  unfold run, for_each in *. simpl. apply IH, on_bar_entry, H.
Qed.

Lemma on_start_entry (s : t) : entry_price_positive (on_start s).
Proof. intro H. exfalso. apply H. reflexivity. Qed.

Lemma on_finish_flat (s : t) :
  entry_price_positive s ->
  quantity (on_finish sqrt s) == 0 /\
  portfolio_value_ (on_finish sqrt s) == cash_ (on_finish sqrt s).
Proof.
  intro H. unfold on_finish, calculate_final_metrics. sma_cbn.
  split; [|reflexivity].
  destruct (quantity s =? 0) eqn:Hq; cbn [negb]; reflect_Q; [exact Hq|].
  apply close_position_flat.
  break_if; reflect_Q; [assumption | now apply H].
Qed.

(** C8.  Within a simulation run the running maximum drawdown never
    decreases: not across [update_performance_metrics], not across the
    processing of a bar, and so not across any sequence of bars. *)
Theorem max_drawdown_non_decreasing (s : t) (b : Bar.t) (bars : list Bar.t) :
  max_drawdown_ s <= max_drawdown_ (update_performance_metrics s) /\
  max_drawdown_ s <= max_drawdown_ (on_bar sqrt b s) /\
  max_drawdown_ s <= max_drawdown_ (run bars s).
Proof.
  split; [apply update_performance_metrics_max_drawdown|].
  split; [apply on_bar_max_drawdown | apply run_max_drawdown].
Qed.

(** C2.  In a simulation run on bars with positive closes, after each
    processed bar the portfolio value is the cash plus the quantity held
    times the close of that bar, hence the cash alone when the position is
    flat; after [on_finish] the position is flat and the portfolio value is
    the cash. *)
Theorem portfolio_value_is_cash_plus_position (s0 : t) (bars : list Bar.t) :
  Forall (fun b => 0 < Bar.close b) bars ->
  (forall pre b post, bars = pre ++ b :: post ->
     let s := run (pre ++ [b]) (on_start s0) in
     portfolio_value_ s == cash_ s + quantity s * Bar.close b /\
     (quantity s == 0 -> portfolio_value_ s == cash_ s)) /\
  (let s := on_finish sqrt (run bars (on_start s0)) in
   quantity s == 0 /\ portfolio_value_ s == cash_ s).
Proof.
  intro Hpos. split.
  - intros pre b post ->. cbn zeta. rewrite run_snoc.
    assert (Hb : 0 < Bar.close b).
    { rewrite List.Forall_forall in Hpos. apply Hpos.
      apply List.in_or_app. right. now left. }
    pose proof (on_bar_marked b (run pre (on_start s0)) Hb) as Hm.
    split; [exact Hm | now apply marked_flat with (price := Bar.close b)].
  - apply on_finish_flat, run_entry, on_start_entry.
Qed.

End SmaProperties.

(** A stand-in for [std::sqrt] in concrete runs too short to need it. *)
Definition identity_sqrt (x : Q) : Q := x.

(** A bar that opens, peaks, bottoms and closes at [price]. *)
Definition flat_bar (date : Z) (price : Q) : Bar.t := Bar.mk date price price price price 0.

(** A three-bar run of SMA(1, 2) on rising closes. *)
Lemma portfolio_value_is_cash_plus_position_witness :
  let sqrt := identity_sqrt in
  let s0 := SmaCrossStrategy.make 1 2 0.001 "DEMO" in
  let bars :=
    [Bar.mk 20240102 100 101 99 100 0; Bar.mk 20240103 100 103 100 102 0;
     Bar.mk 20240104 102 105 101 104 0] in
  Forall (fun b => 0 < Bar.close b) bars /\
  (let s := SmaCrossStrategy.on_finish sqrt (run sqrt bars (SmaCrossStrategy.on_start s0)) in
   SmaCrossStrategy.quantity s == 0 /\
   SmaCrossStrategy.portfolio_value_ s == SmaCrossStrategy.cash_ s).
Proof.
  intros sqrt s0 bars.
  assert (Hpos : Forall (fun b => 0 < Bar.close b) bars)
    by (repeat constructor).
  split; [exact Hpos|].
  exact (proj2 (portfolio_value_is_cash_plus_position sqrt s0 bars Hpos)).
Defined.

(** ** Trade counts *)

(** The number of [EXIT] records of a trade log. *)
Definition count_exits (trades : list Trade.t) : Z :=
  size (List.filter Trade.is_exit trades).

Lemma count_exits_cons (tr : Trade.t) (trades : list Trade.t) :
  count_exits (tr :: trades)
  = ((if Trade.is_exit tr then 1 else 0) + count_exits trades)%Z.
Proof.
  unfold count_exits, size. simpl. destruct (Trade.is_exit tr); simpl length; lia.
Qed.

Lemma count_exits_app (l1 l2 : list Trade.t) :
  count_exits (l1 ++ l2) = (count_exits l1 + count_exits l2)%Z.
Proof.
  unfold count_exits, size. rewrite List.filter_app, List.length_app. lia.
Qed.

Lemma count_exits_nonneg (trades : list Trade.t) : (0 <= count_exits trades)%Z.
Proof. unfold count_exits, size. lia. Qed.

Lemma get_trade_count_fold (trades : list Trade.t) (acc : Z) :
  for_each trades
    (fun trade exit_trades =>
       match Trade.type trade with
       | Trade.EXIT => (exit_trades + 1)%Z
       | Trade.ENTRY => exit_trades
       end) acc
  = (acc + count_exits trades)%Z.
Proof.
  revert acc. induction trades as [|tr trades IH]; intro acc.
  - unfold count_exits, size. simpl. lia.
  - unfold for_each in *. simpl. rewrite IH, count_exits_cons.
    unfold Trade.is_exit. destruct (Trade.type tr); lia.
Qed.

Lemma get_trade_count_counts_exits (s : SmaCrossStrategy.t) :
  SmaCrossStrategy.get_trade_count s = count_exits (SmaCrossStrategy.trades_ s).
Proof. unfold SmaCrossStrategy.get_trade_count. now rewrite get_trade_count_fold. Qed.

(** ** Position sizing and stops *)

Section SizingAndStops.

Import SmaCrossStrategy.

(** Whether the trade history is too thin for the Kelly formula. *)
Definition insufficient_history (s : t) : bool :=
  (calculate_win_rate s <=? 0) || (calculate_avg_win s <=? 0) || (calculate_avg_loss s >=? 0).

Lemma base_position_size_fallback (portfolio_value : Q) (s : t) :
  insufficient_history s = true ->
  calculate_base_position_size portfolio_value s
  = portfolio_value * RiskConfig.max_portfolio_risk (risk_config_ s).
Proof.
  unfold insufficient_history, calculate_base_position_size. now intros ->.
Qed.

(** With enough history the fraction computed is
    [win_rate - (1 - win_rate) * avg_loss / avg_win] for the signed, hence
    negative, average loss. *)
Lemma base_position_size_kelly (portfolio_value : Q) (s : t) :
  insufficient_history s = false ->
  calculate_base_position_size portfolio_value s
  = portfolio_value
    * fmax (fmin (calculate_win_rate s
                  - (1 - calculate_win_rate s) * calculate_avg_loss s / calculate_avg_win s)
              (RiskConfig.max_portfolio_risk (risk_config_ s)))
        0.001.
Proof.
  unfold insufficient_history, calculate_base_position_size. now intros ->.
Qed.

Lemma kelly_fraction_adds_loss_ratio (win_rate avg_win avg_loss : Q) :
  avg_loss < 0 -> 0 < avg_win ->
  win_rate - (1 - win_rate) * avg_loss / avg_win
  == win_rate + (1 - win_rate) * Qabs avg_loss / avg_win.
Proof.
  intros Hl Hw. rewrite Qabs_neg by lra. field. lra.
Qed.

(** The base position size as the specification words it: the Kelly fraction
    [winRate - (1 - winRate) * |avgLoss| / avgWin] clamped to
    [[0.001, max_portfolio_risk]], with the same fallback. *)
Definition specified_base_position_size (portfolio_value : Q) (s : t) : Q :=
  if insufficient_history s then
    portfolio_value * RiskConfig.max_portfolio_risk (risk_config_ s)
  else
    let win_rate := calculate_win_rate s in
    let f := win_rate - (1 - win_rate) * Qabs (calculate_avg_loss s) / calculate_avg_win s in
    portfolio_value * fmax 0.001 (fmin (RiskConfig.max_portfolio_risk (risk_config_ s)) f).

(** SMA(1, 2) with a fee of 0.1% after five bars: a long position entered
    at 102 and closed at 102.5 on the reversal, for a small gain, then a short
    position entered at 102.5 and stopped out at 105, for a larger loss. *)
Definition after_win_and_loss : t :=
  run identity_sqrt
    [flat_bar 20240102 100; flat_bar 20240103 102; flat_bar 20240104 103;
     flat_bar 20240105 102.5; flat_bar 20240108 105]
    (on_start (make 1 2 0.001 "DEMO")).

(** C6.  After that run the win rate is 1/2, the average win is about 5.79
    and the average loss about -52.83.  The Kelly fraction of the
    specification, [0.5 - 0.5 * 52.83 / 5.79], is negative and is clamped to
    [0.001], a size of 100 for a portfolio of 100000; the code computes
    [0.5 - 0.5 * (-52.83) / 5.79], caps it at [0.02] and returns 2000. *)
Theorem base_position_size_differs_from_kelly :
  List.map Trade.type (trades_ after_win_and_loss)
  = [Trade.ENTRY; Trade.EXIT; Trade.ENTRY; Trade.EXIT] /\
  insufficient_history after_win_and_loss = false /\
  calculate_win_rate after_win_and_loss == 1 # 2 /\
  calculate_avg_win after_win_and_loss == 197 # 34 /\
  calculate_avg_loss after_win_and_loss == - (3682413351 # 69700000) /\
  calculate_base_position_size 100000 after_win_and_loss == 2000 /\
  specified_base_position_size 100000 after_win_and_loss == 100.
Proof. vm_compute. repeat split; reflexivity. Qed.

(** *** ATR stops *)

Definition atr_period_int (s : t) : Z := trunc (RiskConfig.atr_period (risk_config_ s)).

Lemma atr_stop_loss_short_history (entry_price : Q) (s : t) :
  (size (closes_ s) < size_t_of_int (atr_period_int s))%Z ->
  calculate_atr_stop_loss entry_price s
  = entry_price * (1 - RiskConfig.stop_loss_pct (risk_config_ s)).
Proof.
  intro H. unfold calculate_atr_stop_loss. fold (atr_period_int s).
  apply Z.ltb_lt in H. rewrite H. now rewrite orb_true_r.
Qed.

Lemma atr_stop_loss_enough_history (entry_price : Q) (s : t) :
  RiskConfig.enable_atr_stops (risk_config_ s) = true ->
  (size_t_of_int (atr_period_int s) <= size (closes_ s))%Z ->
  calculate_atr_stop_loss entry_price s
  = entry_price
    - calculate_atr (atr_period_int s) s * RiskConfig.atr_multiplier (risk_config_ s) /\
  calculate_atr_take_profit entry_price s
  = entry_price
    + calculate_atr (atr_period_int s) s * RiskConfig.atr_multiplier (risk_config_ s) * 3.
Proof.
  intros He H. unfold calculate_atr_stop_loss, calculate_atr_take_profit.
  fold (atr_period_int s). rewrite He.
  apply Z.ltb_ge in H. rewrite H. now split.
Qed.

(** The absolute changes between successive closes. *)
Definition true_ranges (s : t) : list Q :=
  successive (fun prev cur => Qabs (cur - prev)) (closes_ s).

Lemma successive_length {B : Type} (f : Q -> Q -> B) (v : list Q) :
  List.length (successive f v) = Nat.pred (List.length v).
Proof.
  induction v as [|x [|y v] IH]; [reflexivity..|].
  change (successive f (x :: y :: v)) with (f x y :: successive f (y :: v)).
  simpl length in *. now rewrite IH.
Qed.

(** With [period >= 1] and more than [period] closes, [calculate_atr] is the
    mean of the last [period] absolute close-to-close changes. *)
Lemma calculate_atr_is_mean (period : Z) (s : t) :
  (1 <= period < size (closes_ s))%Z ->
  calculate_atr period s
  = accumulate (List.skipn (Z.to_nat (size (true_ranges s) - period)) (true_ranges s))
    / to_double period.
Proof.
  intros [H1 H2]. unfold calculate_atr. fold (true_ranges s).
  assert (Hsz : size (true_ranges s) = (size (closes_ s) - 1)%Z).
  { unfold true_ranges, size. rewrite successive_length.
    unfold size in H2. lia. }
  assert (Hbound : (size (closes_ s) < 2 ^ 64)%Z \/ (2 ^ 64 <= size (closes_ s))%Z) by lia.
  unfold size_t_of_int.
  destruct (Z_lt_le_dec period (2 ^ 64 - 1)) as [Hp|Hp].
  - rewrite !Z.mod_small by lia.
    destruct (size (closes_ s) <? period + 1)%Z eqn:E1; [apply Z.ltb_lt in E1; lia|].
    destruct (size (true_ranges s) <? period)%Z eqn:E2; [apply Z.ltb_lt in E2; lia|].
    reflexivity.
  - assert (Hm1 : ((period + 1) mod 2 ^ 64 <= size (closes_ s))%Z).
    { pose proof (Z.mod_pos_bound (period + 1) (2 ^ 64)). 
      pose proof (Z.mod_le (period + 1) (2 ^ 64)). lia. }
    assert (Hm2 : (period mod 2 ^ 64 <= size (true_ranges s))%Z).
    { pose proof (Z.mod_le period (2 ^ 64)). lia. }
    destruct (size (closes_ s) <? (period + 1) mod 2 ^ 64)%Z eqn:E1;
      [apply Z.ltb_lt in E1; lia|].
    destruct (size (true_ranges s) <? period mod 2 ^ 64)%Z eqn:E2;
      [apply Z.ltb_lt in E2; lia|].
    reflexivity.
Qed.

(** With exactly [period] closes the guard of [calculate_atr_stop_loss] lets
    the call through, [calculate_atr], which wants [period + 1] closes,
    answers [0], and the stop is the entry price itself. *)
Lemma atr_stop_loss_at_period (entry_price : Q) (s : t) :
  RiskConfig.enable_atr_stops (risk_config_ s) = true ->
  (0 <= atr_period_int s < 2 ^ 64 - 1)%Z ->
  size (closes_ s) = atr_period_int s ->
  calculate_atr_stop_loss entry_price s == entry_price.
Proof.
  intros He Hp Hs.
  destruct (atr_stop_loss_enough_history entry_price s He) as [-> _].
  { unfold size_t_of_int. rewrite Z.mod_small by lia. lia. }
  unfold calculate_atr, size_t_of_int. rewrite Z.mod_small by lia.
  destruct (size (closes_ s) <? atr_period_int s + 1)%Z eqn:E;
    [|apply Z.ltb_ge in E; lia].
  ring.
Qed.

(** SMA(10, 40) after fourteen bars; the constructor has set the ATR period
    to fourteen. *)
Definition after_fourteen_bars : t :=
  run identity_sqrt
    [flat_bar 20240102 100; flat_bar 20240103 101; flat_bar 20240104 102;
     flat_bar 20240105 103; flat_bar 20240108 104; flat_bar 20240109 105;
     flat_bar 20240110 106; flat_bar 20240111 107; flat_bar 20240112 108;
     flat_bar 20240115 109; flat_bar 20240116 110; flat_bar 20240117 111;
     flat_bar 20240118 112; flat_bar 20240119 113]
    (on_start (make 10 40 0.001 "DEMO")).

(** C7.  With ATR stops enabled and fourteen closes, fewer than the
    [period + 1 = 15] closes that an ATR needs, [calculate_atr_stop_loss]
    does not return the percentage stop [100 * (1 - 0.02) = 98] but the
    entry price [100], and [calculate_atr_take_profit] likewise returns
    [100]. *)
Theorem atr_stop_loss_with_period_closes :
  RiskConfig.enable_atr_stops (risk_config_ after_fourteen_bars) = true /\
  atr_period_int after_fourteen_bars = 14%Z /\
  size (closes_ after_fourteen_bars) = 14%Z /\
  calculate_atr_stop_loss 100 after_fourteen_bars == 100 /\
  100 * (1 - RiskConfig.stop_loss_pct (risk_config_ after_fourteen_bars)) == 98 /\
  calculate_atr_take_profit 100 after_fourteen_bars == 100.
Proof. vm_compute. repeat split; reflexivity. Qed.

End SizingAndStops.

(** ** The data validators *)

Section ValidatorProperties.

Import StrategyTester.

(** [date[i] < date[i+1]] for all consecutive bars. *)
Definition strictly_increasing_dates (data : list Bar.t) : Prop :=
  forall (i : nat) (prev cur : Bar.t),
    List.nth_error data i = Some prev -> List.nth_error data (S i) = Some cur ->
    (Bar.date prev < Bar.date cur)%Z.

(** Positive prices, the high on top and the low at the bottom. *)
Definition valid_ohlc (bar : Bar.t) : Prop :=
  0 < Bar.open bar /\ 0 < Bar.high bar /\ 0 < Bar.low bar /\ 0 < Bar.close bar /\
  Bar.open bar <= Bar.high bar /\ Bar.close bar <= Bar.high bar /\
  Bar.low bar <= Bar.high bar /\
  Bar.low bar <= Bar.open bar /\ Bar.low bar <= Bar.close bar.

Lemma chronological_violations_increasing (data : list Bar.t) (k : Z) :
  strictly_increasing_dates data -> chronological_violations k data = [].
Proof.
  revert k. induction data as [|prev [|cur tl] IH]; intros k H; [reflexivity..|].
  change (chronological_violations k (prev :: cur :: tl)) with
    (if (Bar.date cur <=? Bar.date prev)%Z
     then k :: chronological_violations (k + 1) (cur :: tl)
     else chronological_violations (k + 1) (cur :: tl)).
  pose proof (H 0%nat prev cur eq_refl eq_refl) as Hlt.
  destruct (Bar.date cur <=? Bar.date prev)%Z eqn:E; [apply Z.leb_le in E; lia|].
  apply IH. intros i p c Hp Hc. exact (H (S i) p c Hp Hc).
Qed.

Lemma chronological_violations_found (data : list Bar.t) (k : Z) (i : nat)
    (prev cur : Bar.t) :
  List.nth_error data i = Some prev -> List.nth_error data (S i) = Some cur ->
  (Bar.date cur <= Bar.date prev)%Z ->
  chronological_violations k data <> [].
Proof.
  revert k i. induction data as [|p [|c tl] IH]; intros k i Hp Hc Hle.
  - destruct i; discriminate.
  - destruct i as [|[|i]]; discriminate.
  - change (chronological_violations k (p :: c :: tl)) with
      (if (Bar.date c <=? Bar.date p)%Z
       then k :: chronological_violations (k + 1) (c :: tl)
       else chronological_violations (k + 1) (c :: tl)).
    destruct (Bar.date c <=? Bar.date p)%Z eqn:E; [discriminate|].
    destruct i as [|i].
    + simpl in Hp, Hc. injection Hp as <-. injection Hc as <-.
      apply Z.leb_gt in E. lia.
    + exact (IH (k + 1)%Z i Hp Hc Hle).
Qed.

Lemma size_nil_iff {A : Type} (v : list A) : (size v =? 0)%Z = true <-> v = [].
Proof.
  unfold size. rewrite Z.eqb_eq. destruct v; simpl; split; intro H;
    try reflexivity; try discriminate; lia.
Qed.

Lemma validate_chronological_order_increasing (data : list Bar.t) :
  strictly_increasing_dates data -> validate_chronological_order data = Returned tt.
Proof.
  intro H. unfold validate_chronological_order. break_if; [reflexivity|].
  now rewrite (chronological_violations_increasing data 1 H).
Qed.

Lemma validate_chronological_order_throws (data : list Bar.t) (i : nat)
    (prev cur : Bar.t) :
  List.nth_error data i = Some prev -> List.nth_error data (S i) = Some cur ->
  (Bar.date cur <= Bar.date prev)%Z ->
  validate_chronological_order data
  = Thrown "Data is NOT in chronological order! Lookahead bias possible.".
Proof.
  intros Hp Hc Hle. unfold validate_chronological_order.
  destruct (size data <? 2)%Z eqn:E.
  - apply Z.ltb_lt in E. unfold size in E.
    destruct data as [|p [|c tl]]; [destruct i; discriminate| |simpl in E; lia].
    destruct i as [|[|i]]; discriminate.
  - pose proof (chronological_violations_found data 1 i prev cur Hp Hc Hle) as Hne.
    destruct (size (chronological_violations 1 data) =? 0)%Z eqn:E0; [|reflexivity].
    apply size_nil_iff in E0. contradiction.
Qed.

Variable sqrt : Q -> Q.
Variable make_rsi_strategy : Z -> Q -> Q -> Z -> Q -> string -> Strategy.t.
Variable make_macd_strategy : Z -> Z -> Z -> Q -> Q -> Q -> string -> Strategy.t.

Local Abbreviation test_strategy := (test_strategy sqrt make_rsi_strategy make_macd_strategy).
Local Abbreviation create_strategy := (create_strategy sqrt make_rsi_strategy make_macd_strategy).

(** C3.  When some bar is dated no later than the bar before it (the bars at
    indices [i] and [i + 1], in a sequence that therefore has at least two
    bars), the chronological validation throws, and [test_strategy] returns
    the untouched metrics without having created a strategy or fed it a
    bar. *)
Theorem non_chronological_data_aborts_test (config : StrategyTestConfig.t)
    (data : list Bar.t) (i : nat) (prev cur : Bar.t) :
  List.nth_error data i = Some prev -> List.nth_error data (S i) = Some cur ->
  (Bar.date cur <= Bar.date prev)%Z ->
  (2 <= size data)%Z /\
  validate_chronological_order data
  = Thrown "Data is NOT in chronological order! Lookahead bias possible." /\
  test_strategy config data
  = (StrategyMetrics.initial (StrategyTestConfig.strategy_name config)
       (StrategyTestConfig.parameters config) (StrategyTestConfig.symbol config),
     []).
Proof.
  intros Hp Hc Hle.
  pose proof (validate_chronological_order_throws data i prev cur Hp Hc Hle) as Hthrow.
  split; [|split; [exact Hthrow|]].
  - assert (Hlen : (S i < List.length data)%nat)
      by (apply List.nth_error_Some; congruence).
    unfold size. lia.
  - unfold StrategyTester.test_strategy. now rewrite Hthrow.
Qed.

(** C4, as amended.  For a non-empty bar sequence with strictly increasing
    dates and valid OHLC none of the three validator passes throws. *)
Theorem validators_accept_clean_data (data : list Bar.t) :
  data <> [] -> strictly_increasing_dates data -> Forall valid_ohlc data ->
  validate_chronological_order data = Returned tt /\
  (exists findings, validate_data_integrity data = Returned findings) /\
  (exists violations, validate_ohlc_relationships data = Returned violations).
Proof.
  intros Hne Hinc _. split; [now apply validate_chronological_order_increasing|].
  split.
  - unfold validate_data_integrity. destruct data; [contradiction|]. eauto.
  - unfold validate_ohlc_relationships. eauto.
Qed.

End ValidatorProperties.

(** C4, counterexample.  The empty sequence has strictly increasing dates and
    only valid bars, yet [validate_data_integrity] throws on it. *)
Lemma validators_reject_empty_data :
  strictly_increasing_dates [] /\ Forall valid_ohlc [] /\
  StrategyTester.validate_data_integrity []
  = Thrown "Data integrity validation failed: No data provided".
Proof.
  split; [|split; [constructor | reflexivity]].
  intros i prev cur H. destruct i; discriminate.
Qed.

Definition two_clean_bars : list Bar.t :=
  [Bar.mk 20240102 100 101 99 100 0; Bar.mk 20240103 100 103 100 102 0].

Lemma two_clean_bars_increasing : strictly_increasing_dates two_clean_bars.
Proof.
  intros i prev cur Hp Hc. destruct i as [|[|i]].
  - injection Hp as <-. injection Hc as <-. reflexivity.
  - discriminate.
  - destruct i; discriminate.
Defined.

Lemma two_clean_bars_valid : Forall valid_ohlc two_clean_bars.
Proof. repeat constructor; discriminate. Defined.

Lemma validators_accept_clean_data_witness :
  StrategyTester.validate_chronological_order two_clean_bars = Returned tt /\
  (exists findings, StrategyTester.validate_data_integrity two_clean_bars = Returned findings) /\
  (exists violations,
     StrategyTester.validate_ohlc_relationships two_clean_bars = Returned violations).
Proof.
  apply (validators_accept_clean_data two_clean_bars).
  - discriminate.
  - exact two_clean_bars_increasing.
  - exact two_clean_bars_valid.
Defined.

Lemma non_chronological_data_aborts_test_witness :
  let sqrt := fun x : Q => x in
  let rsi := fun (_ : Z) (_ _ : Q) (_ : Z) (fee : Q) sym => make_sma_strategy sqrt 5 20 fee sym in
  let macd := fun (_ _ _ : Z) (_ _ fee : Q) sym => make_sma_strategy sqrt 5 20 fee sym in
  let config := StrategyTestConfig.mk "SMA" [1; 2; 0.001] "DEMO" 100000 1000 true true true in
  let data := [Bar.mk 20240103 100 101 99 100 0; Bar.mk 20240103 100 103 100 102 0] in
  (2 <= size data)%Z /\
  StrategyTester.validate_chronological_order data
  = Thrown "Data is NOT in chronological order! Lookahead bias possible." /\
  StrategyTester.test_strategy sqrt rsi macd config data
  = (StrategyMetrics.initial "SMA" [1; 2; 0.001] "DEMO", []).
Proof.
  intros sqrt rsi macd config data.
  apply (non_chronological_data_aborts_test sqrt rsi macd config data 0
           (Bar.mk 20240103 100 101 99 100 0) (Bar.mk 20240103 100 103 100 102 0)).
  - reflexivity.
  - reflexivity.
  - vm_compute. discriminate.
Defined.

(** ** The metrics of [test_strategy] *)

Section TesterProperties.

Import StrategyTester.

Variable sqrt : Q -> Q.
Variable make_rsi_strategy : Z -> Q -> Q -> Z -> Q -> string -> Strategy.t.
Variable make_macd_strategy : Z -> Z -> Z -> Q -> Q -> Q -> string -> Strategy.t.

Local Abbreviation test_strategy :=
  (test_strategy sqrt make_rsi_strategy make_macd_strategy).
Local Abbreviation create_strategy :=
  (create_strategy sqrt make_rsi_strategy make_macd_strategy).

(** The strategy object once the simulation has run over [data]. *)
Definition final_strategy (strategy : Strategy.t) (data : list Bar.t) : Strategy.t :=
  snd (fst (run_strategy_simulation strategy data)).

Definition is_win (trade : Trade.t) : bool :=
  Trade.is_exit trade && (Trade.pnl trade >? 0).

Definition is_loss (trade : Trade.t) : bool :=
  Trade.is_exit trade && (Trade.pnl trade <? 0).

(** *** The statistics loop *)

Lemma statistics_fold_spec (trades : list Trade.t) (w l : Q) (n c : Z) :
  let '(w', l', n', c') :=
    List.fold_left (fun acc tr => statistics_step tr acc) trades (w, l, n, c) in
  c' = (c + count_exits trades)%Z /\
  w <= w' /\ l <= l' /\
  (List.existsb is_win trades = true -> w < w') /\
  (List.existsb is_win trades = false -> w' = w) /\
  (List.existsb is_loss trades = false -> l' = l).
Proof.
  revert w l n c. induction trades as [|tr trades IH]; intros w l n c.
  - simpl. unfold count_exits, size. simpl.
    repeat split; try lra; try lia; discriminate.
  - simpl List.fold_left. rewrite count_exits_cons. simpl List.existsb.
    change (is_win tr) with (Trade.is_exit tr && (Trade.pnl tr >? 0)).
    change (is_loss tr) with (Trade.is_exit tr && (Trade.pnl tr <? 0)).
    unfold Trade.is_exit.
    destruct (Trade.type tr); cbn [andb orb].
    + specialize (IH w l n c).
      destruct (List.fold_left _ trades (w, l, n, c)) as [[[w' l'] n'] c'].
      destruct IH as (Hc & Hw & Hl & Hex & Hnw & Hnl).
      repeat split; auto; lia.
    + destruct (Trade.pnl tr >? 0) eqn:Ewin; cbn [orb].
      * specialize (IH (w + Trade.pnl tr) l (n + 1)%Z (c + 1)%Z).
        destruct (List.fold_left _ trades _) as [[[w' l'] n'] c'].
        destruct IH as (Hc & Hw & Hl & Hex & Hnw & Hnl).
        reflect_Q.
        assert (Hloss : (Trade.pnl tr <? 0) = false) by (apply Qltb_ge; lra).
        rewrite Hloss. cbn [orb].
        repeat split; auto; try lia; try lra; try discriminate.
      * destruct (Trade.pnl tr <? 0) eqn:Eloss; cbn [orb].
        -- specialize (IH w (l + Qabs (Trade.pnl tr)) n (c + 1)%Z).
           destruct (List.fold_left _ trades _) as [[[w' l'] n'] c'].
           destruct IH as (Hc & Hw & Hl & Hex & Hnw & Hnl).
           pose proof (Qabs_nonneg (Trade.pnl tr)).
           repeat split; auto; try lia; try lra; try discriminate.
        -- specialize (IH w l n (c + 1)%Z).
           destruct (List.fold_left _ trades _) as [[[w' l'] n'] c'].
           destruct IH as (Hc & Hw & Hl & Hex & Hnw & Hnl).
           repeat split; auto; lia.
Qed.

Lemma trade_statistics_spec (trades : list Trade.t) :
  let '(total_wins, total_losses, winning_trades, completed_trades) :=
    trade_statistics trades in
  completed_trades = count_exits trades /\
  (List.existsb is_win trades = true -> 0 < total_wins) /\
  (List.existsb is_win trades = false -> total_wins = 0) /\
  (List.existsb is_loss trades = false -> total_losses = 0).
Proof.
  unfold trade_statistics, for_each.
  pose proof (statistics_fold_spec trades 0 0 0 0) as H.
  destruct (List.fold_left _ trades _) as [[[w' l'] n'] c'].
  destruct H as (Hc & Hw & Hl & Hex & Hnw & Hnl).
  repeat split; auto.
Qed.

(** *** The simulation keeps the object and changes its state *)

Lemma run_bars_object (data : list Bar.t) (strategy : Strategy.t) :
  exists st, snd (fst (run_bars data strategy)) = Strategy.call strategy (fun _ => st).
Proof.
  unfold run_bars, for_each.
  assert (H : forall pvs (st0 : Strategy.state strategy) evs,
    exists st,
      snd (fst (List.fold_left
        (fun st1 x =>
           (fun (bar : Bar.t) '(portfolio_values, strategy, events) =>
             let strategy := Strategy.call strategy (Strategy.on_bar strategy bar) in
             (portfolio_values ++ [Strategy.portfolio_value strategy], strategy,
              events ++ [OnBar bar])) x st1)
        data (pvs, Strategy.call strategy (fun _ => st0), evs)))
      = Strategy.call strategy (fun _ => st)).
  { induction data as [|b data IH]; intros pvs st0 evs.
    - exists st0. reflexivity.
    - simpl List.fold_left.
      exact (IH _ (Strategy.on_bar strategy b st0) _). }
  destruct strategy as [state self m1 m2 m3 m4 m5 m6].
  exact (H [] self []).
Qed.

Lemma run_strategy_simulation_object (data : list Bar.t) (strategy : Strategy.t) :
  exists st, final_strategy strategy data = Strategy.call strategy (fun _ => st).
Proof.
  unfold final_strategy, run_strategy_simulation.
  destruct (run_bars_object data (Strategy.call strategy (Strategy.on_start strategy)))
    as [st Hst].
  destruct (run_bars data _) as [[pvs o] evs]. simpl in Hst. subst o.
  exists (Strategy.on_finish strategy st).
  repeat break_if; reflexivity.
Qed.

Lemma run_strategy_simulation_values (data : list Bar.t) (strategy : Strategy.t) :
  fst (fst (run_strategy_simulation strategy data)) <> [].
Proof.
  unfold run_strategy_simulation.
  destruct (run_bars data _) as [[pvs o] evs].
  destruct pvs as [|pv pvs]; [discriminate|].
  break_if; cbn [fst]; [|discriminate].
  intro H. apply List.app_eq_nil in H. destruct H; discriminate.
Qed.

(** The two members of interest once the validators have passed and the
    factory has produced a strategy. *)
Lemma test_strategy_trade_metrics (config : StrategyTestConfig.t) (data : list Bar.t)
    (strategy : Strategy.t) :
  validate_chronological_order data = Returned tt -> data <> [] ->
  create_strategy (StrategyTestConfig.strategy_name config)
    (StrategyTestConfig.parameters config) (StrategyTestConfig.symbol config)
  = Some strategy ->
  let final := final_strategy strategy data in
  let '(total_wins, total_losses, winning_trades, completed_trades) :=
    trade_statistics (Strategy.trades final) in
  StrategyMetrics.profit_factor (fst (test_strategy config data))
  = (if (completed_trades >? 0)%Z then
       if total_losses >? 0 then total_wins / total_losses
       else if total_wins >? 0 then 1000 else 0
     else 0) /\
  StrategyMetrics.total_trades (fst (test_strategy config data))
  = (if (completed_trades >? 0)%Z then completed_trades else Strategy.trade_count final).
Proof.
  intros Hchron Hne Hcreate. cbn zeta.
  unfold StrategyTester.test_strategy. rewrite Hchron.
  destruct data as [|b data]; [contradiction|].
  cbn [validate_data_integrity validate_ohlc_relationships]. rewrite Hcreate.
  unfold final_strategy.
  pose proof (run_strategy_simulation_values (b :: data) strategy) as Hvals.
  destruct (run_strategy_simulation strategy (b :: data)) as [[pvs final] evs].
  cbn [fst snd] in *.
  destruct pvs as [|pv pvs]; [contradiction|].
  destruct (trade_statistics (Strategy.trades final)) as [[[w l] n] c].
  cbn [fst StrategyMetrics.profit_factor StrategyMetrics.total_trades].
  split; reflexivity.
Qed.

(** C9.  When the validators have passed and a strategy has been created:
    with some winning and no losing [EXIT] trade in the final trade log the
    profit factor is exactly 1000; with neither a winning nor a losing one
    it stays 0. *)
Theorem profit_factor_without_losses (config : StrategyTestConfig.t) (data : list Bar.t)
    (strategy : Strategy.t) :
  validate_chronological_order data = Returned tt -> data <> [] ->
  create_strategy (StrategyTestConfig.strategy_name config)
    (StrategyTestConfig.parameters config) (StrategyTestConfig.symbol config)
  = Some strategy ->
  let trades := Strategy.trades (final_strategy strategy data) in
  List.existsb is_loss trades = false ->
  (List.existsb is_win trades = true ->
   StrategyMetrics.profit_factor (fst (test_strategy config data)) = 1000) /\
  (List.existsb is_win trades = false ->
   StrategyMetrics.profit_factor (fst (test_strategy config data)) = 0).
Proof.
  intros Hchron Hne Hcreate trades Hloss.
  pose proof (test_strategy_trade_metrics config data strategy Hchron Hne Hcreate) as H.
  cbn zeta in H. fold trades in H.
  pose proof (trade_statistics_spec trades) as Hs.
  destruct (trade_statistics trades) as [[[w l] n] c].
  destruct H as [-> _]. destruct Hs as (Hc & Hwin & Hnowin & Hnoloss).
  rewrite (Hnoloss Hloss).
  assert (Hl0 : (0 >? 0) = false) by reflexivity. rewrite Hl0.
  split; intro Hw.
  - assert (Hpos : (w >? 0) = true) by (apply Qltb_lt; auto). rewrite Hpos.
    assert (Hcount : (c >? 0)%Z = true).
    { subst c. apply Z.gtb_lt.
      apply List.existsb_exists in Hw. destruct Hw as (tr & Hin & Htr).
      unfold is_win in Htr. apply andb_true_iff in Htr. destruct Htr as [Hexit _].
      unfold count_exits, size.
      assert (Hin' : List.In tr (List.filter Trade.is_exit trades))
        by (apply List.filter_In; auto).
      destruct (List.filter Trade.is_exit trades); [destruct Hin'|simpl; lia]. }
    now rewrite Hcount.
  - rewrite (Hnowin Hw). rewrite Hl0. now destruct (c >? 0)%Z.
Qed.

(** C10.  [SmaCrossStrategy::get_trade_count] and the recount of
    [test_strategy] both count the [EXIT] records of the trade log, an
    [ENTRY] record adds nothing to that count, and for an SMA strategy the
    reported [total_trades] is the number of [EXIT] records of the final
    trade log. *)
Theorem total_trades_counts_exits (config : StrategyTestConfig.t) (data : list Bar.t) :
  validate_chronological_order data = Returned tt -> data <> [] ->
  StrategyTestConfig.strategy_name config = "SMA" ->
  (3 <= size (StrategyTestConfig.parameters config))%Z ->
  (forall s, SmaCrossStrategy.get_trade_count s = count_exits (SmaCrossStrategy.trades_ s)) /\
  (forall trades, snd (trade_statistics trades) = count_exits trades) /\
  (forall trades entry, Trade.type entry = Trade.ENTRY ->
     count_exits (trades ++ [entry]) = count_exits trades) /\
  (exists strategy,
     create_strategy (StrategyTestConfig.strategy_name config)
       (StrategyTestConfig.parameters config) (StrategyTestConfig.symbol config)
     = Some strategy /\
     StrategyMetrics.total_trades (fst (test_strategy config data))
     = count_exits (Strategy.trades (final_strategy strategy data))).
Proof.
  intros Hchron Hne Hname Hparams.
  split; [exact get_trade_count_counts_exits|].
  assert (Hrecount : forall trades, snd (trade_statistics trades) = count_exits trades).
  { intro trades. pose proof (trade_statistics_spec trades) as H.
    destruct (trade_statistics trades) as [[[w l] n] c]. now destruct H. }
  split; [exact Hrecount|]. split.
  - intros trades entry Hentry. rewrite count_exits_app.
    unfold count_exits at 2, size, Trade.is_exit. simpl. rewrite Hentry. simpl. lia.
  - assert (Hcreate : exists sw lw fee,
      create_strategy (StrategyTestConfig.strategy_name config)
        (StrategyTestConfig.parameters config) (StrategyTestConfig.symbol config)
      = Some (make_sma_strategy sqrt sw lw fee (StrategyTestConfig.symbol config))).
    { unfold StrategyTester.create_strategy. rewrite Hname.
      apply Z.geb_le in Hparams. rewrite Hparams. cbn [String.eqb Ascii.eqb Bool.eqb andb].
      eauto. }
    destruct Hcreate as (sw & lw & fee & Hcreate).
    eexists. split; [exact Hcreate|].
    pose proof (test_strategy_trade_metrics config data _ Hchron Hne Hcreate) as H.
    cbn zeta in H.
    destruct (run_strategy_simulation_object data
                (make_sma_strategy sqrt sw lw fee (StrategyTestConfig.symbol config)))
      as [st Hfinal].
    specialize (Hrecount (Strategy.trades (final_strategy
      (make_sma_strategy sqrt sw lw fee (StrategyTestConfig.symbol config)) data))).
    destruct (trade_statistics _) as [[[w l] n] c].
    destruct H as [_ ->]. cbn [snd] in Hrecount. subst c.
    destruct (count_exits _ >? 0)%Z eqn:E; [reflexivity|].
    rewrite Hfinal in *.
    change (SmaCrossStrategy.get_trade_count st = count_exits (SmaCrossStrategy.trades_ st)).
    apply get_trade_count_counts_exits.
Qed.

End TesterProperties.

(** *** A concrete test: SMA(1, 2) on three rising bars *)

Definition no_rsi (_ : Z) (_ _ : Q) (_ : Z) (fee : Q) (symbol : string) : Strategy.t :=
  make_sma_strategy identity_sqrt 1 1 fee symbol.

Definition no_macd (_ _ _ : Z) (_ _ fee : Q) (symbol : string) : Strategy.t :=
  make_sma_strategy identity_sqrt 1 1 fee symbol.

Definition sma_1_2 : StrategyTestConfig.t :=
  StrategyTestConfig.mk "SMA" [1; 2; 0.001] "DEMO" 100000 1000 true true true.

Definition three_rising_bars : list Bar.t :=
  [Bar.mk 20240102 100 101 99 100 0; Bar.mk 20240103 100 103 100 102 0;
   Bar.mk 20240104 102 105 101 104 0].

Lemma profit_factor_without_losses_witness :
  StrategyMetrics.profit_factor
    (fst (StrategyTester.test_strategy identity_sqrt no_rsi no_macd sma_1_2 three_rising_bars))
  = 1000.
Proof.
  refine (proj1 (profit_factor_without_losses identity_sqrt no_rsi no_macd sma_1_2
                   three_rising_bars (make_sma_strategy identity_sqrt 1 2 0.001 "DEMO")
                   _ _ _ _) _).
  - reflexivity.
  - discriminate.
  - reflexivity.
  - vm_compute. reflexivity.
  - vm_compute. reflexivity.
Defined.

Lemma total_trades_counts_exits_witness :
  exists strategy,
    StrategyTester.create_strategy identity_sqrt no_rsi no_macd "SMA" [1; 2; 0.001] "DEMO"
    = Some strategy /\
    StrategyMetrics.total_trades
      (fst (StrategyTester.test_strategy identity_sqrt no_rsi no_macd sma_1_2
              three_rising_bars))
    = count_exits (Strategy.trades (final_strategy strategy three_rising_bars)).
Proof.
  refine (proj2 (proj2 (proj2 (total_trades_counts_exits identity_sqrt no_rsi no_macd
                                 sma_1_2 three_rising_bars _ _ _ _)))).
  - reflexivity.
  - discriminate.
  - reflexivity.
  - vm_compute. discriminate.
Defined.

(** ** The strategy registry *)

Section RegistryProperties.

Import StrategyRegistry.

Lemma filter_has_hash_kept (signature : string) (rows : list StrategyRow) :
  List.filter (has_hash signature)
    (List.filter (fun r => negb (has_hash signature r)) rows) = [].
Proof.
  induction rows as [|row rows IH]; [reflexivity|].
  simpl. destruct (has_hash signature row) eqn:E; simpl; [exact IH|].
  now rewrite E.
Qed.

(** After [INSERT OR REPLACE] exactly one row carries the signature. *)
Lemma insert_or_replace_strategy_count (now : Z) (name signature json : string)
    (metrics : StrategyMetrics.t) (d : Database) :
  count_strategies signature
    (snd (insert_or_replace_strategy now name signature json metrics d)) = 1%Z.
Proof.
  unfold count_strategies, insert_or_replace_strategy. cbn [snd strategies].
  rewrite List.filter_app, filter_has_hash_kept. cbn [List.filter app].
  unfold has_hash. cbn [parameters_hash]. now rewrite String.eqb_refl.
Qed.

(** What a save does to the database it finds. *)
Definition saved (now : Z) (metrics : StrategyMetrics.t) (d : Database) : Database :=
  let signature := generate_strategy_signature (StrategyMetrics.parameters metrics) in
  let region_id := generate_parameter_region_id (StrategyMetrics.parameters metrics) in
  let json :=
    Text.str
      ("["%char :: parameters_json_items (StrategyMetrics.parameters metrics) ++ ["]"%char]) in
  snd (update_region now (StrategyMetrics.composite_score metrics) region_id
         (snd (insert_or_replace_strategy now (StrategyMetrics.strategy_name metrics)
                 signature json metrics d))).

Lemma save_strategy_result_initialized (now : Z) (metrics : StrategyMetrics.t) (r : t)
    (d : Database) :
  db_ r = Some d ->
  save_strategy_result now metrics r = (true, mk (Some (saved now metrics d)) (db_path_ r)).
Proof.
  intro Hd. unfold save_strategy_result. rewrite Hd. reflexivity.
Qed.

Lemma saved_count (now : Z) (metrics : StrategyMetrics.t) (d : Database) :
  count_strategies (generate_strategy_signature (StrategyMetrics.parameters metrics))
    (saved now metrics d) = 1%Z.
Proof.
  unfold saved. cbv zeta.
  match goal with
  | |- count_strategies ?sig (snd (update_region _ _ _ ?d1)) = _ =>
      change (count_strategies sig d1 = 1%Z)
  end.
  apply insert_or_replace_strategy_count.
Qed.

(** A save bumps the row of the owning region when there is one, and does
    not create it when there is none. *)
Lemma saved_region (now : Z) (metrics : StrategyMetrics.t) (d : Database) :
  parameter_regions (saved now metrics d)
    !! generate_parameter_region_id (StrategyMetrics.parameters metrics)
  = (fun row =>
       {| exploration_count := (exploration_count row + 1)%Z;
          best_score := fmax (best_score row) (StrategyMetrics.composite_score metrics);
          last_tested := now |})
    <$> parameter_regions d
        !! generate_parameter_region_id (StrategyMetrics.parameters metrics).
Proof.
  unfold saved, update_region. cbn [snd parameter_regions insert_or_replace_strategy].
  apply lookup_alter_eq.
Qed.

Lemma saved_region_absent (now : Z) (metrics : StrategyMetrics.t) (d : Database) :
  parameter_regions d
    !! generate_parameter_region_id (StrategyMetrics.parameters metrics) = None ->
  parameter_regions (saved now metrics d)
    !! generate_parameter_region_id (StrategyMetrics.parameters metrics) = None.
Proof. intro H. now rewrite saved_region, H. Qed.

(** C1, as amended.  On an initialized registry two saves of the same
    metrics both succeed and leave exactly one row with the signature; each
    save adds one to the exploration count of an existing row of the owning
    region and raises its best score to the maximum with the saved score, so
    that the two saves add two. *)
Theorem save_twice_one_row_region_bumped_twice (now1 now2 : Z) (metrics : StrategyMetrics.t)
    (r : t) (d : Database) :
  db_ r = Some d ->
  let signature := generate_strategy_signature (StrategyMetrics.parameters metrics) in
  let region_id := generate_parameter_region_id (StrategyMetrics.parameters metrics) in
  let score := StrategyMetrics.composite_score metrics in
  let first := save_strategy_result now1 metrics r in
  let second := save_strategy_result now2 metrics (snd first) in
  fst first = true /\ fst second = true /\
  exists d1 d2,
    db_ (snd first) = Some d1 /\ db_ (snd second) = Some d2 /\
    count_strategies signature d1 = 1%Z /\ count_strategies signature d2 = 1%Z /\
    forall row, parameter_regions d !! region_id = Some row ->
      parameter_regions d1 !! region_id
      = Some {| exploration_count := (exploration_count row + 1)%Z;
                best_score := fmax (best_score row) score;
                last_tested := now1 |} /\
      parameter_regions d2 !! region_id
      = Some {| exploration_count := (exploration_count row + 1 + 1)%Z;
                best_score := fmax (fmax (best_score row) score) score;
                last_tested := now2 |}.
Proof.
  intros Hd signature region_id score first second.
  subst first second.
  rewrite (save_strategy_result_initialized now1 metrics r d Hd). cbn [fst snd].
  rewrite (save_strategy_result_initialized now2 metrics
             (mk (Some (saved now1 metrics d)) (db_path_ r)) (saved now1 metrics d) eq_refl).
  cbn [fst snd db_].
  split; [reflexivity|]. split; [reflexivity|].
  exists (saved now1 metrics d), (saved now2 metrics (saved now1 metrics d)).
  split; [reflexivity|]. split; [reflexivity|].
  split; [apply saved_count|]. split; [apply saved_count|].
  intros row Hrow. subst region_id score.
  rewrite !saved_region, Hrow. split; reflexivity.
Qed.

End RegistryProperties.

(** A registry that has already explored the region of [[10; 40; 0.0005]]
    once. *)
Definition explored_once : StrategyRegistry.t :=
  StrategyRegistry.mk
    (Some (StrategyRegistry.mkDatabase [] 0
             {[ "10|40|0|"%string := StrategyRegistry.mkRegionRow 1 0.5 0 ]}))
    "strategy_registry.db".

Definition sample_metrics : StrategyMetrics.t :=
  StrategyMetrics.mk "SMA" [10; 40; 0.0005] "DEMO" 0.1 1.5 0.05 0.5 2 10 12 2 2 0.01 0.02 0 0 0
    0.61 [].

(** C1, counterexample.  Two saves of the same metrics raise the exploration
    count of their region from 1 to 3: the second save, which only replaces
    the strategy row, counts as much as the first. *)
Lemma save_twice_counts_region_twice :
  let region_id :=
    StrategyRegistry.generate_parameter_region_id (StrategyMetrics.parameters sample_metrics) in
  let first := StrategyRegistry.save_strategy_result 1 sample_metrics explored_once in
  let second := StrategyRegistry.save_strategy_result 2 sample_metrics (snd first) in
  StrategyRegistry.get_exploration_count region_id explored_once = 1%Z /\
  StrategyRegistry.get_exploration_count region_id (snd first) = 2%Z /\
  StrategyRegistry.get_exploration_count region_id (snd second) = 3%Z /\
  StrategyRegistry.get_exploration_count region_id (snd second)
  <> (StrategyRegistry.get_exploration_count region_id explored_once + 1)%Z.
Proof. vm_compute. repeat split; try reflexivity. discriminate. Qed.

Lemma save_twice_one_row_region_bumped_twice_witness :
  let first := StrategyRegistry.save_strategy_result 1 sample_metrics explored_once in
  let second := StrategyRegistry.save_strategy_result 2 sample_metrics (snd first) in
  fst first = true /\ fst second = true.
Proof.
  intros first second.
  destruct (save_twice_one_row_region_bumped_twice 1 2 sample_metrics explored_once
              (StrategyRegistry.mkDatabase [] 0
                 {[ "10|40|0|"%string := StrategyRegistry.mkRegionRow 1 0.5 0 ]})
              eq_refl) as (H1 & H2 & _).
  split; [exact H1 | exact H2].
Defined.

(** ** Formatted output and its parsing *)

Section TextProperties.

Import Text.

Lemma is_digit_digit_char (d : N) : (d < 10)%N -> is_digit (digit_char d) = true.
Proof.
  intro H. unfold is_digit, digit_char.
  rewrite N_ascii_embedding by lia.
  apply andb_true_iff. split; apply N.leb_le; lia.
Qed.

Lemma digit_value_digit_char (d : N) : (d < 10)%N -> digit_value (digit_char d) = d.
Proof.
  intro H. unfold digit_value, digit_char.
  rewrite N_ascii_embedding by lia. lia.
Qed.

Lemma parse_N_snoc (ds : text) (c : ascii) :
  parse_N (ds ++ [c]) = (10 * parse_N ds + digit_value c)%N.
Proof. unfold parse_N. now rewrite List.fold_left_app. Qed.

Lemma fixed_digits_length (k : nat) (n : N) : List.length (fixed_digits k n) = k.
Proof.
  revert n. induction k as [|k IH]; intro n; [reflexivity|].
  simpl. rewrite List.length_app, IH. simpl. lia.
Qed.

Lemma fixed_digits_digits (k : nat) (n : N) :
  Forall (fun c => is_digit c = true) (fixed_digits k n).
Proof.
  revert n. induction k as [|k IH]; intro n; [constructor|].
  simpl. apply List.Forall_app. split; [apply IH|].
  constructor; [|constructor].
  apply is_digit_digit_char. apply N.mod_lt. discriminate.
Qed.

Lemma parse_fixed_digits (k : nat) (n : N) :
  parse_N (fixed_digits k n) = (n mod 10 ^ N.of_nat k)%N.
Proof.
  revert n. induction k as [|k IH]; intro n.
  - simpl. now rewrite N.mod_1_r.
  - cbn [fixed_digits]. rewrite parse_N_snoc, IH.
    rewrite digit_value_digit_char by (apply N.mod_lt; discriminate).
    rewrite Nat2N.inj_succ, N.pow_succ_r'.
    rewrite N.Div0.mod_mul_r. lia.
Qed.

Lemma count_digits_bound (fuel : nat) (n : N) :
  (n < 2 ^ N.of_nat fuel)%N -> (n < 10 ^ N.of_nat (count_digits fuel n))%N.
Proof.
  revert n. induction fuel as [|fuel IH]; intros n H.
  - simpl in *. lia.
  - cbn [count_digits]. destruct (n <? 10)%N eqn:E.
    + apply N.ltb_lt in E. simpl. lia.
    + apply N.ltb_ge in E.
      rewrite Nat2N.inj_succ, N.pow_succ_r' in *.
      assert (Hq : (n / 10 < 2 ^ N.of_nat fuel)%N).
      { apply N.Div0.div_lt_upper_bound. lia. }
      specialize (IH _ Hq).
      pose proof (N.Div0.div_mod n 10) as Hdm.
      pose proof (N.mod_lt n 10). lia.
Qed.

Lemma count_digits_positive (fuel : nat) (n : N) : (1 <= count_digits fuel n)%nat.
Proof. destruct fuel; simpl; [lia|]. destruct (n <? 10)%N; lia. Qed.

Lemma num_digits_bound (n : N) : (n < 10 ^ N.of_nat (num_digits n))%N.
Proof.
  apply count_digits_bound. rewrite N2Nat.id. apply N.size_gt.
Qed.

Lemma parse_print_N (n : N) : parse_N (print_N n) = n.
Proof.
  unfold print_N. rewrite parse_fixed_digits.
  apply N.mod_small, num_digits_bound.
Qed.

Lemma print_N_digits (n : N) : Forall (fun c => is_digit c = true) (print_N n).
Proof. apply fixed_digits_digits. Qed.

Lemma print_N_nonempty (n : N) : print_N n <> [].
Proof.
  intro H. apply (f_equal (@List.length ascii)) in H.
  unfold print_N in H. rewrite fixed_digits_length in H.
  pose proof (count_digits_positive (N.to_nat (N.size n)) n). unfold num_digits in H.
  simpl in H. lia.
Qed.

(** Where a run of digits stops. *)
Definition stops (rest : text) : Prop :=
  match rest with
  | [] => True
  | c :: _ => is_digit c = false
  end.

Lemma span_digits_app (ds rest : text) :
  Forall (fun c => is_digit c = true) ds -> stops rest ->
  span_digits (ds ++ rest) = (ds, rest).
Proof.
  intros Hds Hrest. induction Hds as [|c ds Hc _ IH].
  - destruct rest as [|c rest]; [reflexivity|]. simpl in *. now rewrite Hrest.
  - simpl. now rewrite Hc, IH.
Qed.

Lemma strip_zeros_spec (ds : text) :
  exists j, ds = strip_zeros ds ++ List.repeat "0"%char j.
Proof.
  induction ds as [|c ds [j IH]]; [now exists 0%nat|].
  cbn [strip_zeros]. destruct (strip_zeros ds) as [|c' ds'] eqn:E.
  - destruct (Ascii.eqb c "0") eqn:Ec.
    + apply Ascii.eqb_eq in Ec. subst c. exists (S j). simpl. now rewrite IH at 1.
    + exists j. simpl. now rewrite IH at 1.
  - exists j. simpl. now rewrite IH at 1.
Qed.

Lemma strip_zeros_digits (ds : text) :
  Forall (fun c => is_digit c = true) ds ->
  Forall (fun c => is_digit c = true) (strip_zeros ds).
Proof.
  intro H. destruct (strip_zeros_spec ds) as [j Hj].
  rewrite Hj in H. now apply List.Forall_app in H.
Qed.

Lemma parse_N_zeros (ds : text) (j : nat) :
  parse_N (ds ++ List.repeat "0"%char j) = (parse_N ds * 10 ^ N.of_nat j)%N.
Proof.
  induction j as [|j IH].
  - simpl. rewrite List.app_nil_r. lia.
  - replace (List.repeat "0"%char (S j)) with (List.repeat "0"%char j ++ ["0"%char]).
    + rewrite List.app_assoc, parse_N_snoc, IH.
      rewrite Nat2N.inj_succ, N.pow_succ_r'.
      change (digit_value "0") with 0%N. lia.
    + clear. induction j as [|j IH]; [reflexivity|].
      simpl. f_equal. exact IH.
Qed.

Lemma digit_not_space (c : ascii) : is_digit c = true -> is_space c = false.
Proof.
  unfold is_digit, is_space. intro H.
  apply andb_true_iff in H. destruct H as [H1 H2].
  apply N.leb_le in H1. apply N.leb_le in H2.
  apply orb_false_iff. split; [apply N.eqb_neq; lia|].
  apply andb_false_iff. right. apply N.leb_gt. lia.
Qed.

Lemma digit_not_sign (c : ascii) :
  is_digit c = true -> Ascii.eqb c "-" = false /\ Ascii.eqb c "+" = false.
Proof.
  intro H. split.
  - destruct (Ascii.eqb_spec c "-"%char) as [->|_]; [discriminate | reflexivity].
  - destruct (Ascii.eqb_spec c "+"%char) as [->|_]; [discriminate | reflexivity].
Qed.

Lemma parse_N_leading_zero (ds : text) : parse_N ("0"%char :: ds) = parse_N ds.
Proof. reflexivity. Qed.

Lemma parse_exponent_print (e : Z) : parse_exponent (print_exponent e) = e.
Proof.
  unfold print_exponent, parse_exponent. cbn [Ascii.eqb Bool.eqb andb orb].
  set (ds := if (Z.abs_N e <? 10)%N then "0"%char :: print_N (Z.abs_N e)
             else print_N (Z.abs_N e)).
  assert (Hdigits : Forall (fun c => is_digit c = true) ds).
  { subst ds. destruct (Z.abs_N e <? 10)%N; [constructor; [reflexivity|]|];
      apply print_N_digits. }
  assert (Hvalue : parse_N ds = Z.abs_N e).
  { subst ds. destruct (Z.abs_N e <? 10)%N;
      rewrite ?parse_N_leading_zero; apply parse_print_N. }
  assert (Hne : ds <> []).
  { subst ds. destruct (Z.abs_N e <? 10)%N; [discriminate | apply print_N_nonempty]. }
  assert (Hspan : span_digits ds = (ds, [])).
  { rewrite <- (List.app_nil_r ds) at 1. now apply span_digits_app. }
  destruct (e <? 0)%Z eqn:E; unfold parse_sign; cbn [Ascii.eqb Bool.eqb andb];
    rewrite Hspan, Hvalue; (destruct ds; [contradiction|]);
    rewrite N2Z.inj_abs_N; [apply Z.ltb_lt in E | apply Z.ltb_ge in E]; lia.
Qed.

(** The value denoted by a sign, an integral part, a fractional part of
    digits and a decimal exponent. *)
Definition decimal_value (negative : bool) (int_part frac_part : text) (exponent : Z) : Q :=
  let scale := N.of_nat (List.length frac_part) in
  let mantissa :=
    inject_Z (Z.of_N (parse_N int_part * 10 ^ scale + parse_N frac_part))
    / inject_Z (Z.of_N (10 ^ scale)) in
  (if negative then - mantissa else mantissa) * 10 ^ exponent.

(** The text after the mantissa of a printed double: nothing or an
    exponent. *)
Definition exponent_text (tail : text) : Prop :=
  tail = [] \/ exists e, tail = print_exponent e.

Lemma exponent_text_stops (tail : text) : exponent_text tail -> stops tail.
Proof. intros [->|[e ->]]; [exact I | reflexivity]. Qed.

Lemma stod_decimal (negative : bool) (int_part frac_part tail : text) :
  int_part <> [] ->
  Forall (fun c => is_digit c = true) int_part ->
  Forall (fun c => is_digit c = true) frac_part ->
  exponent_text tail ->
  stod ((if negative then ["-"%char] else []) ++ int_part ++ fraction frac_part ++ tail)
  = Some (decimal_value negative int_part frac_part (parse_exponent tail)).
Proof.
  intros Hne Hint Hfrac Htail.
  destruct int_part as [|c int_part]; [contradiction|].
  assert (Hc : is_digit c = true) by (now inversion Hint).
  destruct (digit_not_sign c Hc) as [Hminus Hplus].
  unfold stod.
  assert (Hsign :
    parse_sign (skip_space ((if negative then ["-"%char] else [])
                            ++ (c :: int_part) ++ fraction frac_part ++ tail))
    = (negative, (c :: int_part) ++ fraction frac_part ++ tail)).
  { destruct negative; cbn [app skip_space].
    - reflexivity.
    - rewrite (digit_not_space c Hc). unfold parse_sign. now rewrite Hminus, Hplus. }
  rewrite Hsign.
  assert (Hstops : stops (fraction frac_part ++ tail)).
  { destruct frac_part; [now apply exponent_text_stops | reflexivity]. }
  rewrite (span_digits_app _ _ Hint Hstops).
  destruct frac_part as [|f frac_part].
  - destruct Htail as [->|[e ->]]; reflexivity.
  - cbn [fraction app Ascii.eqb Bool.eqb andb].
    change (f :: frac_part ++ tail) with ((f :: frac_part) ++ tail).
    rewrite (span_digits_app (f :: frac_part) tail Hfrac (exponent_text_stops _ Htail)).
    reflexivity.
Qed.

Lemma inject_Z_nonzero (z : Z) : z <> 0%Z -> ~ inject_Z z == 0.
Proof. intros Hz H. apply Hz. unfold Qeq in H. simpl in H. lia. Qed.

Lemma pow10_nonzero (k : N) : ~ inject_Z (Z.of_N (10 ^ k)) == 0.
Proof.
  apply inject_Z_nonzero.
  assert (10 ^ k <> 0)%N by (apply N.pow_nonzero; discriminate). lia.
Qed.

(** The digits of [print_scaled m k] denote [m / 10^k]. *)
Lemma print_scaled_value (m : N) (k : nat) :
  let frac_part := strip_zeros (fixed_digits k m) in
  let scale := N.of_nat (List.length frac_part) in
  inject_Z (Z.of_N (parse_N (print_N (m / 10 ^ N.of_nat k)) * 10 ^ scale + parse_N frac_part))
  / inject_Z (Z.of_N (10 ^ scale))
  == inject_Z (Z.of_N m) / inject_Z (Z.of_N (10 ^ N.of_nat k)).
Proof.
  cbv zeta. destruct (strip_zeros_spec (fixed_digits k m)) as [j Hj].
  set (fs := strip_zeros (fixed_digits k m)) in *.
  assert (Hlen : k = (List.length fs + j)%nat).
  { rewrite <- (fixed_digits_length k m) at 1. rewrite Hj.
    now rewrite List.length_app, List.repeat_length. }
  assert (Hval : (m mod 10 ^ N.of_nat k = parse_N fs * 10 ^ N.of_nat j)%N).
  { rewrite <- parse_fixed_digits, Hj. apply parse_N_zeros. }
  rewrite parse_print_N.
  set (P := (10 ^ N.of_nat (List.length fs))%N).
  set (J := (10 ^ N.of_nat j)%N).
  assert (Hk : (10 ^ N.of_nat k = P * J)%N).
  { subst P J. rewrite <- N.pow_add_r. f_equal. lia. }
  assert (Hm : (m = (m / (P * J) * P + parse_N fs) * J)%N).
  { pose proof (N.Div0.div_mod m (P * J)) as Hdm. rewrite Hk in Hval. lia. }
  rewrite Hk. rewrite Hm at 2.
  rewrite !N2Z.inj_mul, !inject_Z_mult.
  pose proof (pow10_nonzero (N.of_nat (List.length fs))) as HP.
  pose proof (pow10_nonzero (N.of_nat j)) as HJ.
  fold P in HP. fold J in HJ.
  field. split; assumption.
Qed.

Lemma pow10_Qpower (k : nat) :
  inject_Z (Z.of_N (10 ^ N.of_nat k)) == 10 ^ Z.of_nat k.
Proof.
  rewrite N2Z.inj_pow, nat_N_Z. change (Z.of_N 10) with 10%Z.
  rewrite Zpower_Qpower by lia. reflexivity.
Qed.

(** What [std::stod] reads back from a printed double is the double rounded
    to six significant digits. *)
Lemma stod_print_double (x : Q) :
  exists v, stod (print_double x) = Some v /\ v == round_sig6 x.
Proof.
  unfold print_double, round_sig6, sign_of.
  destruct (Qnum x =? 0)%Z; [eexists; split; [reflexivity | vm_compute; reflexivity]|].
  destruct (significand6 x) as [m e].
  destruct ((e <? -4)%Z || (e >=? 6)%Z) eqn:Hsci.
  - unfold print_scaled. rewrite <- !List.app_assoc.
    rewrite stod_decimal;
      [|apply print_N_nonempty | apply print_N_digits
       |apply strip_zeros_digits, fixed_digits_digits | right; now exists e].
    eexists. split; [reflexivity|].
    rewrite parse_exponent_print. unfold decimal_value.
    assert (Hpow : 10 ^ (e - 5) == 10 ^ e * / inject_Z (Z.of_N (10 ^ N.of_nat 5))).
    { replace (e - 5)%Z with (e + -5)%Z by lia.
      rewrite Qpower_plus by discriminate. reflexivity. }
    destruct (Qnum x <? 0)%Z; rewrite print_scaled_value, Hpow; unfold Qdiv; ring.
  - unfold print_scaled.
    rewrite <- (List.app_nil_r (fraction _)).
    rewrite stod_decimal;
      [|apply print_N_nonempty | apply print_N_digits
       |apply strip_zeros_digits, fixed_digits_digits | now left].
    eexists. split; [reflexivity|].
    unfold decimal_value. cbn [parse_exponent].
    apply orb_false_iff in Hsci. destruct Hsci as [_ He].
    rewrite Z.geb_leb in He. apply Z.leb_gt in He.
    assert (Hpow : 10 ^ (e - 5) == / inject_Z (Z.of_N (10 ^ N.of_nat (Z.to_nat (5 - e))))).
    { replace (e - 5)%Z with (- (5 - e))%Z by lia.
      rewrite Qpower_opp, pow10_Qpower, Z2Nat.id by lia. reflexivity. }
    change (10 ^ 0) with 1.
    destruct (Qnum x <? 0)%Z; rewrite print_scaled_value, Hpow; unfold Qdiv; ring.
Qed.

Lemma skip_space_head (c : ascii) (s : text) :
  is_space c = false -> skip_space (c :: s) = c :: s.
Proof. intro H. simpl. now rewrite H. Qed.

(** The range of a C++ [int]. *)
Definition int_range (n : Z) : Prop := (- 2 ^ 31 <= n < 2 ^ 31)%Z.

Lemma stoi_print_int (n : Z) : int_range n -> stoi (print_int n) = Some n.
Proof.
  intro Hrange. unfold stoi, print_int.
  pose proof (print_N_digits (Z.abs_N n)) as Hdigits.
  pose proof (print_N_nonempty (Z.abs_N n)) as Hne.
  pose proof (parse_print_N (Z.abs_N n)) as Hvalue.
  assert (Hspan : span_digits (print_N (Z.abs_N n)) = (print_N (Z.abs_N n), [])).
  { rewrite <- (List.app_nil_r (print_N _)) at 1. now apply span_digits_app. }
  assert (Hin : ((- 2 ^ 31 <=? n) && (n <? 2 ^ 31))%Z = true).
  { destruct Hrange. apply andb_true_iff. split; [apply Z.leb_le | apply Z.ltb_lt]; lia. }
  destruct (n <? 0)%Z eqn:E.
  - rewrite skip_space_head by reflexivity.
    unfold parse_sign. cbn [Ascii.eqb Bool.eqb andb].
    rewrite Hspan, Hvalue. destruct (print_N (Z.abs_N n)); [contradiction|].
    rewrite N2Z.inj_abs_N. apply Z.ltb_lt in E.
    replace (- Z.abs n)%Z with n by lia. now rewrite Hin.
  - destruct (print_N (Z.abs_N n)) as [|c ds] eqn:Hp; [contradiction|].
    assert (Hc : is_digit c = true) by (now inversion Hdigits).
    rewrite skip_space_head by (now apply digit_not_space).
    unfold parse_sign. destruct (digit_not_sign c Hc) as [-> ->].
    rewrite Hspan, Hvalue.
    rewrite N2Z.inj_abs_N. apply Z.ltb_ge in E.
    replace (Z.abs n) with n by lia. now rewrite Hin.
Qed.

(** The characters of printed numbers. *)
Definition numeric_char (c : ascii) : bool :=
  is_digit c || Ascii.eqb c "." || Ascii.eqb c "e" || Ascii.eqb c "+" || Ascii.eqb c "-".

Definition numeric (s : text) : Prop := Forall (fun c => numeric_char c = true) s.

Lemma digits_numeric (ds : text) : Forall (fun c => is_digit c = true) ds -> numeric ds.
Proof.
  intro H. unfold numeric. eapply List.Forall_impl; [|exact H].
  intros c Hc. unfold numeric_char. now rewrite Hc.
Qed.

Lemma numeric_app (s1 s2 : text) : numeric s1 -> numeric s2 -> numeric (s1 ++ s2).
Proof. intros H1 H2. apply List.Forall_app. now split. Qed.

Lemma print_N_numeric (n : N) : numeric (print_N n).
Proof. apply digits_numeric, print_N_digits. Qed.

Lemma print_scaled_numeric (m : N) (k : nat) : numeric (print_scaled m k).
Proof.
  unfold print_scaled. apply numeric_app; [apply print_N_numeric|].
  pose proof (digits_numeric _ (strip_zeros_digits _ (fixed_digits_digits k m))) as H.
  destruct (strip_zeros (fixed_digits k m)); [constructor|].
  constructor; [reflexivity | exact H].
Qed.

Lemma print_exponent_numeric (e : Z) : numeric (print_exponent e).
Proof.
  unfold print_exponent.
  constructor; [reflexivity|]. constructor; [now destruct (e <? 0)%Z|].
  destruct (Z.abs_N e <? 10)%N; [constructor; [reflexivity|]|]; apply print_N_numeric.
Qed.

Lemma sign_of_numeric (x : Q) : numeric (sign_of x).
Proof.
  unfold sign_of. destruct (Qnum x <? 0)%Z; [|constructor].
  constructor; [reflexivity | constructor].
Qed.

Lemma print_double_numeric (x : Q) : numeric (print_double x).
Proof.
  unfold print_double. destruct (Qnum x =? 0)%Z.
  - constructor; [reflexivity | constructor].
  - destruct (significand6 x) as [m e].
    apply numeric_app; [apply sign_of_numeric|].
    destruct ((e <? -4)%Z || (e >=? 6)%Z).
    + apply numeric_app; [apply print_scaled_numeric | apply print_exponent_numeric].
    + apply print_scaled_numeric.
Qed.

Lemma print_int_numeric (n : Z) : numeric (print_int n).
Proof.
  unfold print_int. destruct (n <? 0)%Z; [constructor; [reflexivity|]|];
    apply print_N_numeric.
Qed.

Lemma print_double_nonempty (x : Q) : print_double x <> [].
Proof.
  unfold print_double. destruct (Qnum x =? 0)%Z; [discriminate|].
  destruct (significand6 x) as [m e].
  assert (H : forall k, print_scaled m k <> []).
  { intros k Hk. unfold print_scaled in Hk. apply List.app_eq_nil in Hk.
    destruct Hk as [Hk _]. now apply print_N_nonempty in Hk. }
  intro Hnil. apply List.app_eq_nil in Hnil. destruct Hnil as [_ Hnil].
  destruct ((e <? -4)%Z || (e >=? 6)%Z).
  - apply List.app_eq_nil in Hnil. destruct Hnil as [Hnil _]. now apply H in Hnil.
  - now apply H in Hnil.
Qed.

(** A text that does not contain the character [delim]. *)
Definition free_of (delim : ascii) (s : text) : Prop :=
  Forall (fun c => Ascii.eqb c delim = false) s.

Lemma numeric_free_of (delim : ascii) (s : text) :
  numeric_char delim = false -> numeric s -> free_of delim s.
Proof.
  intros Hd Hs. unfold free_of. eapply List.Forall_impl; [|exact Hs].
  intros c Hc. destruct (Ascii.eqb_spec c delim) as [->|_]; [congruence | reflexivity].
Qed.

End TextProperties.

(** ** Rounding to six significant digits *)

Section RoundingProperties.

Import Text.

Lemma count_digits_lower (fuel : nat) (n : N) :
  (1 <= n)%N -> (10 ^ (N.of_nat (count_digits fuel n) - 1) <= n)%N.
Proof.
  revert n. induction fuel as [|fuel IH]; intros n Hn.
  - cbn [count_digits]. change (N.of_nat 1 - 1)%N with 0%N. now rewrite N.pow_0_r.
  - cbn [count_digits]. destruct (n <? 10)%N eqn:E;
      [change (N.of_nat 1 - 1)%N with 0%N; now rewrite N.pow_0_r|].
    apply N.ltb_ge in E.
    assert (Hq : (1 <= n / 10)%N).
    { apply N.div_le_lower_bound; lia. }
    specialize (IH _ Hq).
    pose proof (count_digits_positive fuel (n / 10)) as Hpos.
    replace (N.of_nat (S (count_digits fuel (n / 10))) - 1)%N
      with (N.succ (N.of_nat (count_digits fuel (n / 10)) - 1))%N by lia.
    rewrite N.pow_succ_r'.
    pose proof (N.Div0.mul_div_le n 10). lia.
Qed.

Lemma first_scale_spec (fuel k : nat) (n d : N) :
  (1 <= k)%nat ->
  (n * 10 ^ N.of_nat (k - 1) < d)%N ->
  (d <= n * 10 ^ N.of_nat (k + fuel))%N ->
  let r := first_scale fuel k n d in
  (1 <= r)%nat /\ (d <= n * 10 ^ N.of_nat r)%N /\ (n * 10 ^ N.of_nat (r - 1) < d)%N.
Proof.
  revert k. induction fuel as [|fuel IH]; intros k Hk Hlow Hhigh; cbn [first_scale].
  - rewrite Nat.add_0_r in Hhigh. auto.
  - destruct (d <=? n * 10 ^ N.of_nat k)%N eqn:E.
    + apply N.leb_le in E. auto.
    + apply N.leb_gt in E. apply IH; [lia| |].
      * now replace (S k - 1)%nat with k by lia.
      * now replace (S k + fuel)%nat with (k + S fuel)%nat by lia.
Qed.

(** [n / d] lies in the decade of its decimal exponent. *)
Lemma decimal_exponent_spec (n d : N) :
  (0 < n)%N -> (0 < d)%N ->
  let e := decimal_exponent n d in
  ((0 <= e)%Z /\ (d * 10 ^ Z.to_N e <= n < d * 10 ^ Z.to_N (e + 1))%N) \/
  ((e < 0)%Z /\ (d <= n * 10 ^ Z.to_N (- e))%N /\ (n * 10 ^ Z.to_N (- e - 1) < d)%N).
Proof.
  intros Hn Hd. unfold decimal_exponent. destruct (d <=? n)%N eqn:E.
  - left. apply N.leb_le in E.
    assert (Hq : (1 <= n / d)%N) by (apply N.div_le_lower_bound; lia).
    pose proof (count_digits_positive (N.to_nat (N.size (n / d))) (n / d)) as Hpos.
    pose proof (count_digits_lower (N.to_nat (N.size (n / d))) (n / d) Hq) as Hlow.
    pose proof (num_digits_bound (n / d)) as Hup.
    unfold num_digits in *.
    set (c := count_digits (N.to_nat (N.size (n / d))) (n / d)) in *.
    split; [lia|].
    replace (Z.to_N (Z.of_nat c - 1)) with (N.of_nat c - 1)%N by lia.
    replace (Z.to_N (Z.of_nat c - 1 + 1)) with (N.of_nat c) by lia.
    pose proof (N.Div0.mul_div_le n d) as Hmul.
    pose proof (N.mul_succ_div_gt n d ltac:(lia)) as Hsucc.
    split.
    + apply N.le_trans with (d * (n / d))%N; [|exact Hmul].
      now apply N.mul_le_mono_l.
    + apply N.lt_le_trans with (d * N.succ (n / d))%N; [exact Hsucc|].
      apply N.mul_le_mono_l. lia.
  - right. apply N.leb_gt in E.
    pose proof (num_digits_bound d) as Hup.
    destruct (first_scale_spec (num_digits d) 1 n d) as (Hr & Hhigh & Hlow); [lia| | |].
    + simpl. lia.
    + rewrite Nat2N.inj_add, N.pow_add_r.
      assert (1 <= 10 ^ N.of_nat 1)%N by (simpl; lia). nia.
    + set (r := first_scale (num_digits d) 1 n d) in *.
      split; [lia|].
      replace (Z.to_N (- - Z.of_nat r)) with (N.of_nat r) by lia.
      replace (Z.to_N (- - Z.of_nat r - 1)) with (N.of_nat (r - 1)) by lia.
      split; assumption.
Qed.

(** [round_half_even n d] is an integer nearest to [n / d]. *)
Lemma round_half_even_nearest (n d : N) :
  (0 < d)%N ->
  let m := round_half_even n d in
  (2 * m * d <= 2 * n + d)%N /\ (2 * n <= 2 * m * d + d)%N.
Proof.
  intro Hd. unfold round_half_even. cbv zeta.
  pose proof (N.Div0.div_mod n d) as Hdm.
  pose proof (N.mod_lt n d ltac:(lia)) as Hr.
  set (q := (n / d)%N) in *. set (r := (n mod d)%N) in *.
  clearbody q r.
  destruct (2 * r ?= d)%N eqn:E.
  - apply N.compare_eq in E. destruct (N.even q); split; nia.
  - change (2 * r < d)%N in E. split; nia.
  - apply N.compare_gt_iff in E. change (d < 2 * r)%N in E. split; nia.
Qed.

Lemma round_half_even_exact (m d : N) : (0 < d)%N -> round_half_even (m * d) d = m.
Proof.
  intro Hd. unfold round_half_even.
  rewrite N.div_mul, N.Div0.mod_mul by lia.
  destruct (2 * 0 ?= d)%N eqn:E; try reflexivity.
  - apply N.compare_eq in E. lia.
  - apply N.compare_gt_iff in E. lia.
Qed.

Lemma round_half_even_bounds (n d lo hi : N) :
  (0 < d)%N -> (lo * d <= n)%N -> (n < hi * d)%N ->
  (lo <= round_half_even n d <= hi)%N.
Proof.
  intros Hd Hlo Hhi. unfold round_half_even.
  assert (Hq1 : (lo <= n / d)%N) by (apply N.div_le_lower_bound; lia).
  assert (Hq2 : (n / d < hi)%N) by (apply N.Div0.div_lt_upper_bound; lia).
  destruct (2 * (n mod d) ?= d)%N; [destruct (N.even (n / d))| |]; lia.
Qed.

(** *** From integers to rationals *)

(** A natural number as a double. *)
Definition QN (a : N) : Q := inject_Z (Z.of_N a).

Lemma QN_mul (a b : N) : QN (a * b) == QN a * QN b.
Proof. unfold QN. now rewrite N2Z.inj_mul, inject_Z_mult. Qed.

Lemma QN_add (a b : N) : QN (a + b) == QN a + QN b.
Proof. unfold QN. now rewrite N2Z.inj_add, inject_Z_plus. Qed.

Lemma QN_le (a b : N) : (a <= b)%N -> QN a <= QN b.
Proof. intro H. unfold QN. rewrite <- Zle_Qle. lia. Qed.

Lemma QN_lt (a b : N) : (a < b)%N -> QN a < QN b.
Proof. intro H. unfold QN. rewrite <- Zlt_Qlt. lia. Qed.

Lemma QN_le_inv (a b : N) : QN a <= QN b -> (a <= b)%N.
Proof. unfold QN. rewrite <- Zle_Qle. lia. Qed.

Lemma QN_lt_inv (a b : N) : QN a < QN b -> (a < b)%N.
Proof. unfold QN. rewrite <- Zlt_Qlt. lia. Qed.

Lemma QN_eq_inv (a b : N) : QN a == QN b -> a = b.
Proof. unfold QN, Qeq. simpl. lia. Qed.

Lemma QN_pow10 (k : N) : QN (10 ^ k) == 10 ^ Z.of_N k.
Proof.
  unfold QN. rewrite N2Z.inj_pow. change (Z.of_N 10) with 10%Z.
  rewrite Zpower_Qpower by lia. reflexivity.
Qed.

Lemma QN_pos (a : N) : (0 < a)%N -> 0 < QN a.
Proof. intro H. change 0 with (QN 0). now apply QN_lt. Qed.

Lemma pow10_pos (z : Z) : 0 < 10 ^ z.
Proof. now apply Qpower_0_lt. Qed.

Lemma pow10_add (a b : Z) : 10 ^ (a + b) == 10 ^ a * 10 ^ b.
Proof. now apply Qpower_plus. Qed.

Lemma pow10_sub (a b : Z) : 10 ^ (a - b) == 10 ^ a / 10 ^ b.
Proof.
  replace (a - b)%Z with (a + - b)%Z by lia.
  rewrite pow10_add, Qpower_opp. reflexivity.
Qed.

Lemma Qabs_fraction (x : Q) :
  Qabs x == QN (Z.abs_N (Qnum x)) / QN (N.pos (Qden x)).
Proof.
  destruct x as [n d]. unfold QN. cbn [Qabs Qnum Qden].
  rewrite N2Z.inj_abs_N. apply Qmake_Qdiv.
Qed.

(** Comparing a fraction with a power of ten by cross-multiplication. *)
Lemma pow10_le_fraction (n d p q : N) :
  (0 < d)%N -> (d * 10 ^ p <= n * 10 ^ q)%N ->
  10 ^ (Z.of_N p - Z.of_N q) <= QN n / QN d.
Proof.
  intros Hd H. apply QN_le in H. rewrite !QN_mul, !QN_pow10 in H.
  pose proof (QN_pos d Hd) as Hd'.
  pose proof (pow10_pos (Z.of_N q)) as Hq.
  apply Qle_shift_div_l; [assumption|].
  rewrite pow10_sub.
  setoid_replace (10 ^ Z.of_N p / 10 ^ Z.of_N q * QN d)
    with (QN d * 10 ^ Z.of_N p / 10 ^ Z.of_N q) using relation Qeq by (field; lra).
  now apply Qle_shift_div_r.
Qed.

Lemma fraction_lt_pow10 (n d p q : N) :
  (0 < d)%N -> (n * 10 ^ q < d * 10 ^ p)%N ->
  QN n / QN d < 10 ^ (Z.of_N p - Z.of_N q).
Proof.
  intros Hd H. apply QN_lt in H. rewrite !QN_mul, !QN_pow10 in H.
  pose proof (QN_pos d Hd) as Hd'.
  pose proof (pow10_pos (Z.of_N q)) as Hq.
  apply Qlt_shift_div_r; [assumption|].
  rewrite pow10_sub.
  setoid_replace (10 ^ Z.of_N p / 10 ^ Z.of_N q * QN d)
    with (QN d * 10 ^ Z.of_N p / 10 ^ Z.of_N q) using relation Qeq by (field; lra).
  now apply Qlt_shift_div_l.
Qed.

(** The decade of a non-zero double. *)
Lemma decimal_exponent_decade (x : Q) :
  Qnum x <> 0%Z ->
  let e := decimal_exponent (Z.abs_N (Qnum x)) (N.pos (Qden x)) in
  10 ^ e <= Qabs x /\ Qabs x < 10 ^ (e + 1).
Proof.
  intro Hx. cbv zeta. rewrite Qabs_fraction.
  set (n := Z.abs_N (Qnum x)). set (d := N.pos (Qden x)).
  assert (Hn : (0 < n)%N) by (subst n; lia).
  assert (Hd : (0 < d)%N) by (subst d; lia).
  destruct (decimal_exponent_spec n d Hn Hd) as [(He & Hlow & Hup)|(He & Hlow & Hup)];
    set (e := decimal_exponent n d) in *.
  - split.
    + replace e with (Z.of_N (Z.to_N e) - Z.of_N 0)%Z by lia.
      apply pow10_le_fraction; [assumption|]. now rewrite N.pow_0_r, N.mul_1_r.
    + replace (e + 1)%Z with (Z.of_N (Z.to_N (e + 1)) - Z.of_N 0)%Z by lia.
      apply fraction_lt_pow10; [assumption|]. now rewrite N.pow_0_r, N.mul_1_r.
  - split.
    + replace e with (Z.of_N 0 - Z.of_N (Z.to_N (- e)))%Z by lia.
      apply pow10_le_fraction; [assumption|]. now rewrite N.pow_0_r, N.mul_1_r.
    + replace (e + 1)%Z with (Z.of_N 0 - Z.of_N (Z.to_N (- e - 1)))%Z by lia.
      apply fraction_lt_pow10; [assumption|]. now rewrite N.pow_0_r, N.mul_1_r.
Qed.

Lemma Qabs_signed (x : Q) : x == if (Qnum x <? 0)%Z then - Qabs x else Qabs x.
Proof.
  destruct x as [n d]. cbn [Qnum]. destruct (n <? 0)%Z eqn:E.
  - apply Z.ltb_lt in E. rewrite Qabs_neg; [ring|].
    unfold Qle. simpl. lia.
  - apply Z.ltb_ge in E. rewrite Qabs_pos; [reflexivity|].
    unfold Qle. simpl. lia.
Qed.

(** The value that [significand6] stands for, before the sign. *)
Definition significand_value (me : N * Z) : Q := QN (fst me) * 10 ^ (snd me - 5).

Lemma round_sig6_value (x : Q) :
  Qnum x <> 0%Z ->
  round_sig6 x
  == if (Qnum x <? 0)%Z then - significand_value (significand6 x)
     else significand_value (significand6 x).
Proof.
  intro Hx. unfold round_sig6, significand_value.
  apply Z.eqb_neq in Hx. rewrite Hx.
  destruct (significand6 x) as [m e]. cbn [fst snd]. unfold QN.
  destruct (Qnum x <? 0)%Z; reflexivity.
Qed.

(** The fraction [a / b] that [significand6] rounds to an integer is the
    magnitude scaled into [[10^5, 10^6)]. *)
Lemma significand6_fraction (x : Q) :
  Qnum x <> 0%Z ->
  let e := decimal_exponent (Z.abs_N (Qnum x)) (N.pos (Qden x)) in
  exists a b : N,
    (0 < b)%N /\
    QN a / QN b == Qabs x * 10 ^ (5 - e) /\
    (10 ^ 5 * b <= a < 10 ^ 6 * b)%N /\
    significand6 x
    = (if (round_half_even a b =? 10 ^ 6)%N then ((10 ^ 5)%N, (e + 1)%Z)
       else (round_half_even a b, e)).
Proof.
  intro Hx. cbv zeta.
  destruct (decimal_exponent_decade x Hx) as [Hlow Hup]. cbv zeta in Hlow, Hup.
  unfold significand6.
  set (n := Z.abs_N (Qnum x)) in *. set (d := N.pos (Qden x)) in *.
  set (e := decimal_exponent n d) in *.
  assert (Hd : (0 < d)%N) by (subst d; lia).
  assert (Hrange : forall a b : N, (0 < b)%N ->
            QN a / QN b == Qabs x * 10 ^ (5 - e) -> (10 ^ 5 * b <= a < 10 ^ 6 * b)%N).
  { intros a b Hb Hab. pose proof (QN_pos b Hb) as Hb'.
    pose proof (pow10_pos (5 - e)) as Hp.
    assert (H5 : 10 ^ e * 10 ^ (5 - e) == QN (10 ^ 5)).
    { rewrite <- pow10_add. replace (e + (5 - e))%Z with 5%Z by lia. reflexivity. }
    assert (H6 : 10 ^ (e + 1) * 10 ^ (5 - e) == QN (10 ^ 6)).
    { rewrite <- pow10_add. replace (e + 1 + (5 - e))%Z with 6%Z by lia. reflexivity. }
    assert (Ha : QN a == Qabs x * 10 ^ (5 - e) * QN b).
    { rewrite <- Hab. field. lra. }
    split.
    - apply QN_le_inv. rewrite QN_mul, Ha, <- H5.
      apply Qmult_le_compat_r; [|lra]. apply Qmult_le_compat_r; [assumption | lra].
    - apply QN_lt_inv. rewrite QN_mul, Ha, <- H6.
      apply Qmult_lt_compat_r; [assumption|]. apply Qmult_lt_compat_r; assumption. }
  destruct (e <=? 5)%Z eqn:E.
  - apply Z.leb_le in E.
    assert (Hab : QN (n * 10 ^ Z.to_N (5 - e)) / QN d == Qabs x * 10 ^ (5 - e)).
    { rewrite Qabs_fraction. fold n d. rewrite QN_mul, QN_pow10, Z2N.id by lia.
      pose proof (QN_pos d Hd). field. lra. }
    exists (n * 10 ^ Z.to_N (5 - e))%N, d.
    split; [assumption|]. split; [assumption|]. split; [now apply Hrange | reflexivity].
  - apply Z.leb_gt in E.
    assert (Hb : (0 < d * 10 ^ Z.to_N (e - 5))%N).
    { assert (10 ^ Z.to_N (e - 5) <> 0)%N by (apply N.pow_nonzero; discriminate). nia. }
    assert (Hab : QN n / QN (d * 10 ^ Z.to_N (e - 5)) == Qabs x * 10 ^ (5 - e)).
    { rewrite Qabs_fraction. fold n d. rewrite QN_mul, QN_pow10, Z2N.id by lia.
      replace (5 - e)%Z with (- (e - 5))%Z by lia. rewrite Qpower_opp.
      pose proof (QN_pos d Hd). pose proof (pow10_pos (e - 5)). field. split; lra. }
    exists n, (d * 10 ^ Z.to_N (e - 5))%N.
    split; [assumption|]. split; [assumption|]. split; [now apply Hrange | reflexivity].
Qed.

Lemma fraction_nearest (a b : N) :
  (0 < b)%N -> Qabs (QN a / QN b - QN (round_half_even a b)) <= 1 # 2.
Proof.
  intro Hb. destruct (round_half_even_nearest a b Hb) as [H1 H2]. cbv zeta in H1, H2.
  set (m := round_half_even a b) in *.
  apply QN_le in H1. apply QN_le in H2.
  rewrite ?QN_add, ?QN_mul in H1, H2. change (QN 2) with 2 in H1, H2.
  pose proof (QN_pos b Hb) as Hb'.
  apply Qabs_Qle_condition. split.
  - apply Qplus_le_l with (z := QN m). ring_simplify.
    apply Qle_shift_div_l; [assumption|]. lra.
  - apply Qplus_le_l with (z := QN m). ring_simplify.
    apply Qle_shift_div_r; [assumption|]. lra.
Qed.

(** The significand has six digits. *)
Lemma significand6_range (x : Q) :
  Qnum x <> 0%Z -> (10 ^ 5 <= fst (significand6 x) < 10 ^ 6)%N.
Proof.
  intro Hx. destruct (significand6_fraction x Hx) as (a & b & Hb & _ & Hab & ->).
  pose proof (round_half_even_bounds a b (10 ^ 5) (10 ^ 6) Hb (proj1 Hab) (proj2 Hab)) as H.
  destruct (round_half_even a b =? 10 ^ 6)%N eqn:E; cbn [fst].
  - split; [reflexivity | reflexivity].
  - apply N.eqb_neq in E. lia.
Qed.

(** [round_sig6 x] is within half a unit of the sixth significant digit of
    [x]. *)
Lemma round_sig6_nearest (x : Q) :
  Qnum x <> 0%Z ->
  Qabs (x - round_sig6 x) <= (1 # 2) * 10 ^ (snd (significand6 x) - 5).
Proof.
  intro Hx. rewrite (round_sig6_value x Hx).
  destruct (significand6_fraction x Hx) as (a & b & Hb & Hab & _ & Hsig).
  cbv zeta in Hab, Hsig. rewrite Hsig. clear Hsig.
  set (e := decimal_exponent (Z.abs_N (Qnum x)) (N.pos (Qden x))) in *.
  pose proof (fraction_nearest a b Hb) as Hnear. rewrite Hab in Hnear.
  set (m := round_half_even a b) in *.
  pose proof (pow10_pos (e - 5)) as Hp.
  assert (Hinv : 10 ^ (5 - e) * 10 ^ (e - 5) == 1).
  { rewrite <- pow10_add. replace (5 - e + (e - 5))%Z with 0%Z by lia. reflexivity. }
  assert (Hdiff : Qabs (Qabs x - QN m * 10 ^ (e - 5)) <= (1 # 2) * 10 ^ (e - 5)).
  { setoid_replace (Qabs x - QN m * 10 ^ (e - 5))
      with ((Qabs x * 10 ^ (5 - e) - QN m) * 10 ^ (e - 5)) using relation Qeq.
    - rewrite Qabs_Qmult, (Qabs_pos (10 ^ (e - 5))) by lra.
      apply Qmult_le_compat_r; [assumption | lra].
    - transitivity (Qabs x * (10 ^ (5 - e) * 10 ^ (e - 5)) - QN m * 10 ^ (e - 5));
        [rewrite Hinv; ring | ring]. }
  assert (Hgoal : forall v bound : Q,
            Qabs (Qabs x - v) <= bound ->
            Qabs (x - (if (Qnum x <? 0)%Z then - v else v)) <= bound).
  { intros v bound Hv. rewrite (Qabs_signed x) at 1.
    destruct (Qnum x <? 0)%Z; [|assumption].
    setoid_replace (- Qabs x - - v) with (- (Qabs x - v)) using relation Qeq by ring.
    now rewrite Qabs_opp. }
  apply Hgoal. unfold significand_value.
  destruct (m =? 10 ^ 6)%N eqn:E; cbn [fst snd]; [|assumption].
  apply N.eqb_eq in E.
  assert (Hten : 10 ^ (e + 1 - 5) == 10 * 10 ^ (e - 5)).
  { replace (e + 1 - 5)%Z with (1 + (e - 5))%Z by lia. now rewrite pow10_add. }
  rewrite Hten.
  setoid_replace (QN (10 ^ 5) * (10 * 10 ^ (e - 5))) with (QN m * 10 ^ (e - 5))
    using relation Qeq.
  - eapply Qle_trans; [exact Hdiff|]. lra.
  - rewrite E. change (QN (10 ^ 6)) with (QN (10 ^ 5) * 10). ring.
Qed.

(** A double with at most six significant digits is its own rounding. *)
Lemma round_sig6_exact (x : Q) (m : N) (j : Z) :
  (10 ^ 5 <= m < 10 ^ 6)%N -> Qabs x == QN m * 10 ^ j -> round_sig6 x == x.
Proof.
  intros Hm Hx.
  assert (Hnz : Qnum x <> 0%Z).
  { intro H0. assert (Habs : Qabs x == 0).
    { destruct x as [n d]. cbn [Qnum] in H0. subst n. reflexivity. }
    rewrite Habs in Hx. pose proof (pow10_pos j).
    assert (0 < QN m) by (apply QN_pos; lia).
    assert (0 < QN m * 10 ^ j) by (apply Qmult_lt_0_compat; assumption). lra. }
  rewrite (round_sig6_value x Hnz).
  transitivity (if (Qnum x <? 0)%Z then - Qabs x else Qabs x);
    [|symmetry; apply Qabs_signed].
  destruct (decimal_exponent_decade x Hnz) as [Hlow Hup]. cbv zeta in Hlow, Hup.
  destruct (significand6_fraction x Hnz) as (a & b & Hb & Hab & _ & Hsig).
  cbv zeta in Hab, Hsig. rewrite Hsig. clear Hsig.
  set (e := decimal_exponent (Z.abs_N (Qnum x)) (N.pos (Qden x))) in *.
  pose proof (pow10_pos j) as Hj.
  assert (Hm5 : QN (10 ^ 5) <= QN m) by (apply QN_le; lia).
  assert (Hm6 : QN m < QN (10 ^ 6)) by (apply QN_lt; lia).
  assert (He : e = (j + 5)%Z).
  { assert (H1 : 10 ^ e < 10 ^ (j + 6)).
    { eapply Qle_lt_trans; [exact Hlow|]. rewrite Hx.
      replace (j + 6)%Z with (6 + j)%Z by lia. rewrite pow10_add.
      apply Qmult_lt_compat_r; assumption. }
    assert (H2 : 10 ^ (j + 5) < 10 ^ (e + 1)).
    { eapply Qle_lt_trans; [|exact Hup]. rewrite Hx.
      replace (j + 5)%Z with (5 + j)%Z by lia. rewrite pow10_add.
      apply Qmult_le_compat_r; [assumption | lra]. }
    apply Qpower_lt_compat_l_inv in H1; [|reflexivity].
    apply Qpower_lt_compat_l_inv in H2; [|reflexivity]. lia. }
  assert (Hexact : a = (m * b)%N).
  { apply QN_eq_inv. rewrite QN_mul.
    pose proof (QN_pos b Hb) as Hb'.
    assert (Hq : QN a / QN b == QN m).
    { rewrite Hab, Hx, He. replace (5 - (j + 5))%Z with (- j)%Z by lia.
      rewrite Qpower_opp. field. lra. }
    rewrite <- Hq. field. lra. }
  rewrite Hexact, (round_half_even_exact m b Hb).
  assert (Hne : (m =? 10 ^ 6)%N = false) by (apply N.eqb_neq; lia).
  rewrite Hne. unfold significand_value. cbn [fst snd].
  rewrite He. replace (j + 5 - 5)%Z with j by lia.
  destruct (Qnum x <? 0)%Z; rewrite Hx; reflexivity.
Qed.

(** Doubles that six significant digits can write: zero, and
    [m * 10^j] up to sign with [10^5 <= m < 10^6]. *)
Definition six_digits (x : Q) : Prop :=
  x == 0 \/ exists (m : N) (j : Z), (10 ^ 5 <= m < 10 ^ 6)%N /\ Qabs x == QN m * 10 ^ j.

Example six_digits_examples :
  six_digits 0 /\ six_digits 0.0005 /\ six_digits (-12.5) /\ six_digits 1000.
Proof.
  split; [now left|].
  split; [right; exists 500000%N, (-9)%Z; split; [lia | reflexivity]|].
  split; [right; exists 125000%N, (-4)%Z; split; [lia | reflexivity]|].
  right. exists 100000%N, (-2)%Z. split; [lia | reflexivity].
Qed.

Lemma round_sig6_six_digits (x : Q) : six_digits x -> round_sig6 x == x.
Proof.
  intros [H0|(m & j & Hm & Hx)]; [|now apply (round_sig6_exact x m j)].
  unfold round_sig6.
  assert (Hn : Qnum x = 0%Z) by (unfold Qeq in H0; simpl in H0; lia).
  rewrite Hn. cbn [Z.eqb]. now symmetry.
Qed.

End RoundingProperties.

(** ** CSV export and import *)

Section CsvProperties.

Import Text StrategyManagement.

Lemma free_of_app (delim : ascii) (s1 s2 : text) :
  free_of delim s1 -> free_of delim s2 -> free_of delim (s1 ++ s2).
Proof. intros H1 H2. apply List.Forall_app. now split. Qed.

Lemma free_of_cons (delim c : ascii) (s : text) :
  Ascii.eqb c delim = false -> free_of delim s -> free_of delim (c :: s).
Proof. intros Hc Hs. now constructor. Qed.

(** Reading a token that is followed by its delimiter. *)
Lemma getlines_token (token rest : text) (delim : ascii) :
  free_of delim token ->
  getlines (token ++ delim :: rest) delim = token :: getlines rest delim.
Proof.
  intro H. induction H as [|c token Hc _ IH].
  - simpl. now rewrite Ascii.eqb_refl.
  - cbn [app getlines]. now rewrite Hc, IH.
Qed.

(** Reading the last token, which the end of the stream terminates. *)
Lemma getlines_last (token : text) (delim : ascii) :
  free_of delim token -> token <> [] -> getlines token delim = [token].
Proof.
  intros H Hne. induction H as [|c token Hc Hfree IH]; [contradiction|].
  cbn [getlines]. rewrite Hc.
  destruct token as [|c' token]; [reflexivity|].
  now rewrite IH.
Qed.

(** [getlines] is the loop [while (std::getline(is, token, delim))]. *)
Lemma getlines_getline (s : text) (delim : ascii) :
  getlines s delim
  = match getline s delim with
    | None => []
    | Some (token, rest) => token :: getlines rest delim
    end.
Proof.
  induction s as [|c s IH]; [reflexivity|].
  cbn [getlines getline getline_rest].
  destruct (Ascii.eqb c delim); [reflexivity|].
  rewrite IH. destruct s as [|c' s]; [reflexivity|].
  cbn [getline]. now destruct (getline_rest (c' :: s) delim).
Qed.

(** *** Parameters *)

Lemma csv_parameters_cons (param : Q) (rest : list Q) :
  rest <> [] ->
  csv_parameters (param :: rest) = print_double param ++ ";"%char :: csv_parameters rest.
Proof. destruct rest; [contradiction | reflexivity]. Qed.

Lemma csv_parameters_nonempty (parameters : list Q) :
  parameters <> [] -> csv_parameters parameters <> [].
Proof.
  destruct parameters as [|p [|q rest]]; [contradiction| |]; intros _ H.
  - now apply print_double_nonempty in H.
  - apply List.app_eq_nil in H. destruct H as [H _]. now apply print_double_nonempty in H.
Qed.

Lemma csv_parameters_free (delim : ascii) (parameters : list Q) :
  numeric_char delim = false -> Ascii.eqb ";" delim = false ->
  free_of delim (csv_parameters parameters).
Proof.
  intros Hnum Hsemi.
  induction parameters as [|p [|q rest] IH]; [constructor| |].
  - apply numeric_free_of; [assumption | apply print_double_numeric].
  - rewrite csv_parameters_cons by discriminate.
    apply free_of_app; [apply numeric_free_of; [assumption | apply print_double_numeric]|].
    now apply free_of_cons.
Qed.

Lemma getlines_csv_parameters (parameters : list Q) :
  getlines (csv_parameters parameters) ";" = List.map print_double parameters.
Proof.
  induction parameters as [|p [|q rest] IH]; [reflexivity| |].
  - apply getlines_last; [|apply print_double_nonempty].
    apply numeric_free_of; [reflexivity | apply print_double_numeric].
  - rewrite csv_parameters_cons by discriminate.
    rewrite getlines_token, IH; [reflexivity|].
    apply numeric_free_of; [reflexivity | apply print_double_numeric].
Qed.

(** The value read back for a printed double. *)
Definition reads_back (original imported : Q) : Prop := imported == round_sig6 original.

Lemma double_list_print (parameters : list Q) :
  exists values,
    double_list (List.map print_double parameters) = Returned values /\
    Forall2 reads_back parameters values.
Proof.
  induction parameters as [|p rest (values & Hvalues & Hall)].
  - exists []. split; [reflexivity | constructor].
  - destruct (stod_print_double p) as (v & Hv & Heq).
    exists (v :: values). cbn [List.map double_list]. rewrite Hv, Hvalues.
    split; [reflexivity | now constructor].
Qed.

Lemma double_field_print (tokens : list text) (i : nat) (x : Q) :
  List.nth_error tokens i = Some (print_double x) ->
  exists v, double_field tokens i = Returned v /\ reads_back x v.
Proof.
  intro H. unfold double_field. rewrite H.
  destruct (stod_print_double x) as (v & -> & Hv). now exists v.
Qed.

(** *** Rows *)

(** A row without its newline. *)
Definition csv_line (strategy : StrategyMetrics.t) : text :=
  chars (StrategyMetrics.strategy_name strategy) ++ ","%char
    :: print_double (StrategyMetrics.total_return strategy) ++ ","%char
    :: print_double (StrategyMetrics.sharpe_ratio strategy) ++ ","%char
    :: print_double (StrategyMetrics.max_drawdown strategy) ++ ","%char
    :: print_double (StrategyMetrics.win_rate strategy) ++ ","%char
    :: print_double (StrategyMetrics.profit_factor strategy) ++ ","%char
    :: print_int (StrategyMetrics.total_trades strategy) ++ ","%char
    :: print_double (StrategyMetrics.composite_score strategy) ++ ","%char
    :: csv_parameters (StrategyMetrics.parameters strategy).

Lemma csv_row_line (strategy : StrategyMetrics.t) :
  csv_row strategy = csv_line strategy ++ [newline].
Proof.
  unfold csv_row, csv_line.
  repeat (rewrite <- List.app_assoc; rewrite <- List.app_comm_cons).
  reflexivity.
Qed.

(** What the exported file can carry: a name without comma or newline, and
    a trade count that is an [int]. *)
Definition csv_safe (strategy : StrategyMetrics.t) : Prop :=
  free_of "," (chars (StrategyMetrics.strategy_name strategy)) /\
  free_of newline (chars (StrategyMetrics.strategy_name strategy)) /\
  int_range (StrategyMetrics.total_trades strategy).

(** What comes back for a strategy: the name, the trade count, and each
    double as it was printed, with six significant digits. *)
Definition reimported (original imported : StrategyMetrics.t) : Prop :=
  StrategyMetrics.strategy_name imported = StrategyMetrics.strategy_name original /\
  reads_back (StrategyMetrics.total_return original) (StrategyMetrics.total_return imported) /\
  reads_back (StrategyMetrics.sharpe_ratio original) (StrategyMetrics.sharpe_ratio imported) /\
  reads_back (StrategyMetrics.max_drawdown original) (StrategyMetrics.max_drawdown imported) /\
  reads_back (StrategyMetrics.win_rate original) (StrategyMetrics.win_rate imported) /\
  reads_back (StrategyMetrics.profit_factor original)
    (StrategyMetrics.profit_factor imported) /\
  StrategyMetrics.total_trades imported = StrategyMetrics.total_trades original /\
  reads_back (StrategyMetrics.composite_score original)
    (StrategyMetrics.composite_score imported) /\
  Forall2 reads_back (StrategyMetrics.parameters original)
    (StrategyMetrics.parameters imported).

Lemma csv_line_free_of_newline (strategy : StrategyMetrics.t) :
  csv_safe strategy -> free_of newline (csv_line strategy).
Proof.
  intros (_ & Hname & _). unfold csv_line.
  repeat first
    [ apply free_of_app
    | apply free_of_cons; [reflexivity|]
    | exact Hname
    | apply numeric_free_of; [reflexivity | apply print_double_numeric]
    | apply numeric_free_of; [reflexivity | apply print_int_numeric]
    | apply csv_parameters_free; reflexivity ].
Qed.

Lemma csv_line_tokens (strategy : StrategyMetrics.t) :
  csv_safe strategy ->
  getlines (csv_line strategy) ","
  = chars (StrategyMetrics.strategy_name strategy)
    :: print_double (StrategyMetrics.total_return strategy)
    :: print_double (StrategyMetrics.sharpe_ratio strategy)
    :: print_double (StrategyMetrics.max_drawdown strategy)
    :: print_double (StrategyMetrics.win_rate strategy)
    :: print_double (StrategyMetrics.profit_factor strategy)
    :: print_int (StrategyMetrics.total_trades strategy)
    :: print_double (StrategyMetrics.composite_score strategy)
    :: match StrategyMetrics.parameters strategy with
       | [] => []
       | _ => [csv_parameters (StrategyMetrics.parameters strategy)]
       end.
Proof.
  intros (Hname & _ & _). unfold csv_line.
  rewrite getlines_token by exact Hname.
  do 5 (rewrite getlines_token
          by (apply numeric_free_of; [reflexivity | apply print_double_numeric])).
  rewrite getlines_token
    by (apply numeric_free_of; [reflexivity | apply print_int_numeric]).
  rewrite getlines_token
    by (apply numeric_free_of; [reflexivity | apply print_double_numeric]).
  do 8 f_equal.
  destruct (StrategyMetrics.parameters strategy) as [|p rest] eqn:E; [reflexivity|].
  apply getlines_last.
  - apply csv_parameters_free; reflexivity.
  - apply csv_parameters_nonempty. discriminate.
Qed.

Lemma import_row_csv_line (strategy : StrategyMetrics.t) :
  csv_safe strategy ->
  exists imported,
    import_row (csv_line strategy) = Returned imported /\ reimported strategy imported.
Proof.
  intro Hsafe. unfold import_row.
  rewrite (csv_line_tokens strategy Hsafe).
  destruct Hsafe as (_ & _ & Hrange).
  match goal with |- context [double_field ?toks 1] => set (tokens := toks) end.
  destruct (double_field_print tokens 1 (StrategyMetrics.total_return strategy) eq_refl)
    as (v1 & -> & H1).
  destruct (double_field_print tokens 2 (StrategyMetrics.sharpe_ratio strategy) eq_refl)
    as (v2 & -> & H2).
  destruct (double_field_print tokens 3 (StrategyMetrics.max_drawdown strategy) eq_refl)
    as (v3 & -> & H3).
  destruct (double_field_print tokens 4 (StrategyMetrics.win_rate strategy) eq_refl)
    as (v4 & -> & H4).
  destruct (double_field_print tokens 5 (StrategyMetrics.profit_factor strategy) eq_refl)
    as (v5 & -> & H5).
  destruct (double_field_print tokens 7 (StrategyMetrics.composite_score strategy) eq_refl)
    as (v7 & -> & H7).
  unfold int_field. subst tokens. cbn [List.nth_error bind].
  rewrite (stoi_print_int _ Hrange).
  destruct (double_list_print (StrategyMetrics.parameters strategy))
    as (values & Hvalues & Hall).
  destruct (StrategyMetrics.parameters strategy) as [|p rest] eqn:E.
  - cbn in Hvalues. injection Hvalues as <-.
    cbn [List.nth_error bind]. eexists. split; [reflexivity|].
    unfold reimported. cbn. rewrite E, string_of_list_ascii_of_string.
    repeat split; assumption.
  - cbn [List.nth_error]. rewrite getlines_csv_parameters, Hvalues. cbn [bind].
    eexists. split; [reflexivity|].
    unfold reimported. cbn. rewrite E, string_of_list_ascii_of_string.
    repeat split; assumption.
Qed.

(** *** Files *)

Lemma export_strategies_to_csv_rows (strategies : list StrategyMetrics.t) :
  export_strategies_to_csv strategies
  = csv_header ++ newline
      :: List.concat (List.map (fun strategy => csv_line strategy ++ [newline]) strategies).
Proof.
  unfold export_strategies_to_csv, for_each.
  assert (H : forall file,
    List.fold_left (fun file strategy => file ++ csv_row strategy) strategies file
    = file ++ List.concat
                (List.map (fun strategy => csv_line strategy ++ [newline]) strategies)).
  { induction strategies as [|s rest IH]; intro file.
    - simpl. now rewrite List.app_nil_r.
    - cbn [List.fold_left List.map List.concat].
      now rewrite IH, csv_row_line, <- List.app_assoc. }
  rewrite H, <- List.app_assoc. reflexivity.
Qed.

Lemma getlines_rows (lines : list text) :
  Forall (free_of newline) lines ->
  getlines (List.concat (List.map (fun line => line ++ [newline]) lines)) newline = lines.
Proof.
  intro H. induction H as [|line lines Hline _ IH]; [reflexivity|].
  cbn [List.map List.concat]. rewrite <- List.app_assoc. cbn [app].
  now rewrite getlines_token, IH.
Qed.

Lemma csv_header_free_of_newline : free_of newline csv_header.
Proof. unfold free_of. apply List.Forall_forall. intros c Hc.
  apply (proj1 (List.forallb_forall (fun c => negb (Ascii.eqb c newline)) csv_header)) in Hc.
  - now apply negb_true_iff.
  - reflexivity.
Qed.

Lemma import_rows_csv_lines (strategies : list StrategyMetrics.t) :
  Forall csv_safe strategies ->
  exists imported,
    import_rows (List.map csv_line strategies) = Returned imported /\
    Forall2 reimported strategies imported.
Proof.
  intro H. induction H as [|s rest Hs _ (imported & Himported & Hall)].
  - exists []. split; [reflexivity | constructor].
  - destruct (import_row_csv_line s Hs) as (m & Hm & Hrow).
    exists (m :: imported). cbn [List.map import_rows]. rewrite Hm. cbn [bind].
    rewrite Himported. split; [reflexivity | now constructor].
Qed.

(** The round trip as the specification states it: the import succeeds and
    every numeric member and parameter comes back with its value. *)
Definition same_numbers (original imported : StrategyMetrics.t) : Prop :=
  StrategyMetrics.total_return imported == StrategyMetrics.total_return original /\
  StrategyMetrics.sharpe_ratio imported == StrategyMetrics.sharpe_ratio original /\
  StrategyMetrics.max_drawdown imported == StrategyMetrics.max_drawdown original /\
  StrategyMetrics.win_rate imported == StrategyMetrics.win_rate original /\
  StrategyMetrics.profit_factor imported == StrategyMetrics.profit_factor original /\
  StrategyMetrics.total_trades imported = StrategyMetrics.total_trades original /\
  StrategyMetrics.composite_score imported == StrategyMetrics.composite_score original /\
  Forall2 Qeq (StrategyMetrics.parameters original) (StrategyMetrics.parameters imported).

Definition lossless_round_trip (strategies : list StrategyMetrics.t) : Prop :=
  exists imported,
    import_strategies_from_csv (export_strategies_to_csv strategies) = Returned imported /\
    Forall2 same_numbers strategies imported.

(** Strategies all of whose exported doubles have at most six significant
    digits. *)
Definition six_digit_numbers (strategy : StrategyMetrics.t) : Prop :=
  six_digits (StrategyMetrics.total_return strategy) /\
  six_digits (StrategyMetrics.sharpe_ratio strategy) /\
  six_digits (StrategyMetrics.max_drawdown strategy) /\
  six_digits (StrategyMetrics.win_rate strategy) /\
  six_digits (StrategyMetrics.profit_factor strategy) /\
  six_digits (StrategyMetrics.composite_score strategy) /\
  Forall six_digits (StrategyMetrics.parameters strategy).

Lemma reads_back_six_digits (x v : Q) : six_digits x -> reads_back x v -> v == x.
Proof. intros Hx Hv. unfold reads_back in Hv. now rewrite Hv, round_sig6_six_digits. Qed.

Lemma reimported_six_digits (original imported : StrategyMetrics.t) :
  six_digit_numbers original -> reimported original imported ->
  same_numbers original imported.
Proof.
  intros (S1 & S2 & S3 & S4 & S5 & S6 & Sp) (_ & R1 & R2 & R3 & R4 & R5 & Rt & R6 & Rp).
  unfold same_numbers.
  repeat split; try (now apply reads_back_six_digits); try assumption.
  revert Sp. induction Rp as [|p v ps vs Hpv _ IH]; intro Sp; [constructor|].
  inversion Sp as [|? ? Hp Hps]; subst.
  constructor; [symmetry; now apply reads_back_six_digits | now apply IH].
Qed.

(** C5, as amended.  For strategies whose names contain neither a comma nor
    a newline (and whose trade counts are [int]s), importing the exported
    file succeeds and returns one record per strategy, in order, with the
    same name and the same [total_trades], and with every exported double
    (the five metrics, the composite score and each parameter) equal to the
    original rounded to six significant decimal digits; when all these
    doubles have at most six significant digits, every number comes back
    unchanged. *)
Theorem csv_round_trip_six_digits (strategies : list StrategyMetrics.t) :
  Forall csv_safe strategies ->
  exists imported,
    import_strategies_from_csv (export_strategies_to_csv strategies) = Returned imported /\
    Forall2 reimported strategies imported /\
    (Forall six_digit_numbers strategies -> Forall2 same_numbers strategies imported).
Proof.
  intro Hsafe. unfold import_strategies_from_csv.
  rewrite export_strategies_to_csv_rows.
  rewrite getlines_token by apply csv_header_free_of_newline.
  rewrite <- (List.map_map csv_line (fun line => line ++ [newline])).
  rewrite getlines_rows.
  - destruct (import_rows_csv_lines strategies Hsafe) as (imported & Himport & Hall).
    exists imported. split; [assumption|]. split; [assumption|].
    intro Hsix. clear Himport Hsafe.
    induction Hall as [|s m ss ms Hsm _ IH]; [constructor|].
    inversion Hsix as [|? ? Hs Hss]; subst.
    constructor; [now apply reimported_six_digits | now apply IH].
  - apply List.Forall_forall. intros line Hin.
    apply List.in_map_iff in Hin. destruct Hin as (s & <- & Hs).
    apply csv_line_free_of_newline.
    rewrite List.Forall_forall in Hsafe. now apply Hsafe.
Qed.

End CsvProperties.

(** A strategy whose Sharpe ratio, [1025/1024 = 1.0009765625], has eleven
    significant digits. *)
Definition fine_sharpe : StrategyMetrics.t :=
  StrategyMetrics.mk "SMA" [10; 40; 0.0005] "DEMO" 0.1234 (1025 # 1024) 0.05 0.5 1000 12.5 7
    0 0 0 0 0 0 0 0.61 [].

(** C5, counterexample.  The Sharpe ratio [1.0009765625] is written as
    [1.00098] and read back as such. *)
Lemma csv_round_trip_loses_digits : ~ lossless_round_trip [fine_sharpe].
Proof.
  intros (imported & Himport & Hsame).
  vm_compute in Himport. injection Himport as <-.
  inversion Hsame as [|? m ? ? Hm _]; subst.
  destruct Hm as (_ & Hsharpe & _).
  vm_compute in Hsharpe. discriminate.
Qed.

Lemma fine_sharpe_safe : Forall csv_safe [fine_sharpe].
Proof.
  constructor; [|constructor].
  split; [|split].
  - repeat constructor.
  - repeat constructor.
  - split; vm_compute; [discriminate | reflexivity].
Defined.

Lemma csv_round_trip_six_digits_witness :
  exists imported,
    StrategyManagement.import_strategies_from_csv
      (StrategyManagement.export_strategies_to_csv [fine_sharpe]) = Returned imported /\
    Forall2 reimported [fine_sharpe] imported /\
    (Forall six_digit_numbers [fine_sharpe] -> Forall2 same_numbers [fine_sharpe] imported).
Proof. exact (csv_round_trip_six_digits [fine_sharpe] fine_sharpe_safe). Defined.

(** * Further properties of the code *)

(** ** The SMA crossover strategy: signals *)

Section SmaSignals.

Import SmaCrossStrategy.

Variable sqrt : Q -> Q.

(** What a bar leaves behind while the strategy has not traded: no trade, no
    position, the initial capital in cash, and the closes seen so far. *)
Record untouched (closes : list Q) (s0 s : t) : Prop := {
  untouched_trades : trades_ s = [];
  untouched_position : current_position_ s = Position.mk (symbol_ s0) 0 0 0 0 0;
  untouched_signal : position_ s = 0%Z;
  untouched_cash : cash_ s = 100000;
  untouched_value : portfolio_value_ s = 100000;
  untouched_peak : peak_portfolio_value_ s = 100000;
  untouched_previous : previous_value_ s = 100000;
  untouched_drawdown : max_drawdown_ s = 0;
  untouched_closes : closes_ s = closes;
  untouched_sw : sw_ s = sw_ s0;
  untouched_lw : lw_ s = lw_ s0
}.

Lemma on_start_untouched (s0 : t) : untouched [] s0 (on_start s0).
Proof. constructor; reflexivity. Qed.

Lemma size_snoc {A : Type} (v : list A) (x : A) : size (v ++ [x]) = (size v + 1)%Z.
Proof. unfold size. rewrite List.length_app. simpl. lia. Qed.

Lemma size_nonneg {A : Type} (v : list A) : (0 <= size v)%Z.
Proof. unfold size. lia. Qed.

Lemma size_t_of_int_small (n : Z) : (0 <= n < 2 ^ 64)%Z -> size_t_of_int n = n.
Proof. intro H. unfold size_t_of_int. now apply Z.mod_small. Qed.

(** A bar of the warm-up, when fewer closes than the long window are known. *)
Lemma on_bar_warm_up (closes : list Q) (s0 s : t) (b : Bar.t) :
  untouched closes s0 s ->
  (size closes + 1 < lw_ s0 < 2 ^ 64)%Z ->
  untouched (closes ++ [Bar.close b]) s0 (on_bar sqrt b s).
Proof.
  intros [Ht Hp Hs Hc Hv Hk Hpr Hd Hcl Hsw Hlw] Hn.
  pose proof (size_nonneg closes) as Hsize.
  unfold on_bar. sma_cbn. rewrite Hcl, Hlw, size_snoc.
  rewrite size_t_of_int_small by lia.
  destruct (size closes + 1 <? lw_ s0)%Z eqn:E; [|apply Z.ltb_ge in E; lia].
  unfold update_position_value, quantity. sma_cbn. rewrite Hp. sma_cbn.
  change (0 =? 0) with true. cbn iota.
  constructor; sma_cbn; auto.
Qed.

Lemma run_warm_up (bars : list Bar.t) (closes : list Q) (s0 s : t) :
  untouched closes s0 s ->
  (size closes + size bars < lw_ s0 < 2 ^ 64)%Z ->
  untouched (closes ++ List.map Bar.close bars) s0 (run sqrt bars s).
Proof.
  revert closes s. induction bars as [|b bars IH]; intros closes s H Hn.
  - simpl. now rewrite List.app_nil_r.
  - unfold run, for_each. simpl.
    change (closes ++ Bar.close b :: List.map Bar.close bars)
      with (closes ++ [Bar.close b] ++ List.map Bar.close bars).
    rewrite List.app_assoc.
    apply IH.
    + apply on_bar_warm_up; [exact H|].
      unfold size in *. simpl length in Hn. lia.
    + rewrite size_snoc. unfold size in *. simpl length in Hn. lia.
Qed.

(** *** A flat market *)

Lemma at_constant (c : Q) (closes : list Q) (i : Z) :
  Forall (fun x => x == c) closes -> (0 <= i < size closes)%Z -> at_ closes i == c.
Proof.
  intros H Hi. unfold at_.
  rewrite List.Forall_forall in H. apply H. apply List.nth_In. unfold size in Hi. lia.
Qed.

Lemma window_sum_fold (c : Q) (closes : list Q) (k a : nat) (acc : Q) :
  Forall (fun x => x == c) closes -> (a + k <= List.length closes)%nat ->
  for_each (List.seq a k) (fun i sum => sum + at_ closes (size closes - 1 - Z.of_nat i)) acc
  == acc + inject_Z (Z.of_nat k) * c.
Proof.
  intro H. revert a acc. induction k as [|k IH]; intros a acc Hk.
  - unfold for_each. simpl. ring.
  - unfold for_each in *. simpl List.fold_left.
    rewrite IH by lia.
    rewrite (at_constant c closes) by (auto; unfold size; lia).
    rewrite Nat2Z.inj_succ. unfold Z.succ. rewrite inject_Z_plus. ring.
Qed.

Lemma window_sum_constant (c : Q) (closes : list Q) (w : Z) :
  Forall (fun x => x == c) closes -> (0 <= w <= size closes)%Z ->
  window_sum w closes == to_double w * c.
Proof.
  intros H Hw. unfold window_sum.
  rewrite (window_sum_fold c) by (auto; unfold size in Hw; lia).
  unfold to_double. rewrite Z2Nat.id by lia. ring.
Qed.

(** The average of a window of equal closes is that close. *)
Lemma window_average_constant (c : Q) (closes : list Q) (w : Z) :
  Forall (fun x => x == c) closes -> (1 <= w <= size closes)%Z ->
  window_sum w closes / to_double w == c.
Proof.
  intros H Hw. rewrite (window_sum_constant c) by (auto; lia).
  field. unfold to_double. intro H0.
  assert (Hlt : 0 < inject_Z w) by (change 0 with (inject_Z 0); rewrite <- Zlt_Qlt; lia).
  rewrite H0 in Hlt. now apply Qlt_irrefl in Hlt.
Qed.

(** With both windows filled by equal closes the averages agree and there is
    no signal. *)
Lemma generate_signal_constant (c : Q) (s : t) :
  0 < c -> Forall (fun x => x == c) (closes_ s) ->
  (1 <= sw_ s <= lw_ s)%Z -> (lw_ s <= size (closes_ s))%Z -> (lw_ s < 2 ^ 64)%Z ->
  generate_signal (calculate_smas s) = 0%Z.
Proof.
  intros Hc Hcl Hw Hn Hlt.
  pose proof (window_average_constant c (closes_ s) (sw_ s) Hcl ltac:(lia)) as Hshort.
  pose proof (window_average_constant c (closes_ s) (lw_ s) Hcl ltac:(lia)) as Hlong.
  unfold calculate_smas.
  rewrite (size_t_of_int_small (sw_ s)) by lia.
  destruct (size (closes_ s) >=? sw_ s)%Z eqn:E1; [|rewrite Z.geb_leb in E1; apply Z.leb_gt in E1; lia].
  sma_cbn. rewrite (size_t_of_int_small (lw_ s)) by lia.
  destruct (size (closes_ s) >=? lw_ s)%Z eqn:E2; [|rewrite Z.geb_leb in E2; apply Z.leb_gt in E2; lia].
  unfold generate_signal. sma_cbn.
  set (short := window_sum (sw_ s) (closes_ s) / to_double (sw_ s)) in *.
  set (long := window_sum (lw_ s) (closes_ s) / to_double (lw_ s)) in *.
  destruct (short =? 0) eqn:Es; [reflect_Q; lra|].
  destruct (long =? 0) eqn:El; [reflect_Q; lra|].
  cbn [orb].
  destruct (short >? long) eqn:Eg; [reflect_Q; lra|].
  destruct (short <? long) eqn:Eh; [reflect_Q; lra|].
  reflexivity.
Qed.

Lemma calculate_smas_untouched (closes : list Q) (s0 s : t) :
  untouched closes s0 s -> untouched closes s0 (calculate_smas s).
Proof.
  intros [Ht Hp Hs Hc Hv Hk Hpr Hd Hcl Hsw Hlw].
  unfold calculate_smas. repeat break_if; constructor; sma_cbn; auto.
Qed.

Lemma execute_trading_logic_untouched (closes : list Q) (s0 s : t) (b : Bar.t) :
  untouched closes s0 s -> untouched closes s0 (execute_trading_logic sqrt b 0 s).
Proof.
  intros [Ht Hp Hs Hc Hv Hk Hpr Hd Hcl Hsw Hlw].
  unfold execute_trading_logic, quantity. rewrite Hp. cbn [Position.quantity].
  change (0 =? 0) with true. cbn [negb]. cbn iota. rewrite Hs.
  change (0 =? 0)%Z with true. cbn [negb]. cbn iota.
  unfold update_position_value, quantity. rewrite Hp. cbn [Position.quantity].
  change (0 =? 0) with true. cbn iota.
  constructor; sma_cbn; auto.
Qed.

Lemma update_performance_metrics_untouched (closes : list Q) (s0 s : t) :
  untouched closes s0 s -> untouched closes s0 (update_performance_metrics s).
Proof.
  intros [Ht Hp Hs Hc Hv Hk Hpr Hd Hcl Hsw Hlw].
  unfold update_performance_metrics. rewrite Hv, Hk.
  change (100000 >? 100000) with false. cbn iota. rewrite Hk, Hv, Hd.
  change (100000 >? 0) with true. cbn iota.
  change ((100000 - 100000) / 100000 >? 0) with false. cbn iota.
  rewrite Hpr. change (100000 >? 0) with true. cbn iota.
  constructor; sma_cbn; auto.
Qed.

(** A bar closing at [c] after closes all equal to [c]. *)
Lemma on_bar_flat (c : Q) (closes : list Q) (s0 s : t) (b : Bar.t) :
  0 < c -> Forall (fun x => x == c) closes -> Bar.close b == c ->
  (1 <= sw_ s0 <= lw_ s0)%Z -> (lw_ s0 < 2 ^ 64)%Z ->
  untouched closes s0 s ->
  untouched (closes ++ [Bar.close b]) s0 (on_bar sqrt b s).
Proof.
  intros Hc Hall Hb Hw Hlt H.
  destruct (Z_lt_ge_dec (size closes + 1) (lw_ s0)) as [Hwarm|Hfull];
    [apply on_bar_warm_up; [exact H | lia]|].
  assert (H1 : untouched (closes ++ [Bar.close b]) s0
                 (set_closes_ (closes_ s ++ [Bar.close b]) s)).
  { destruct H as [Ht Hp Hs Hcash Hv Hk Hpr Hd Hcl Hsw Hlw].
    constructor; sma_cbn; auto. now rewrite Hcl. }
  unfold on_bar.
  set (s1 := set_closes_ (closes_ s ++ [Bar.close b]) s) in *.
  assert (Hl1 : lw_ s1 = lw_ s0) by apply H1.
  assert (Hs1 : sw_ s1 = sw_ s0) by apply H1.
  assert (Hc1 : closes_ s1 = closes ++ [Bar.close b]) by apply H1.
  rewrite Hl1, size_t_of_int_small by lia.
  rewrite Hc1, size_snoc.
  destruct (size closes + 1 <? lw_ s0)%Z eqn:E; [apply Z.ltb_lt in E; lia|].
  rewrite (generate_signal_constant c s1).
  - assert (H2 : untouched (closes ++ [Bar.close b]) s0
                   (execute_trading_logic sqrt b 0 (calculate_smas s1)))
      by now apply execute_trading_logic_untouched, calculate_smas_untouched.
    apply update_performance_metrics_untouched.
    destruct H2 as [Ht Hp Hs Hcash Hv Hk Hpr Hd Hcl Hsw Hlw].
    constructor; sma_cbn; auto.
  - exact Hc.
  - rewrite Hc1. apply List.Forall_app. split; [exact Hall|]. now constructor.
  - lia.
  - rewrite Hc1, size_snoc. lia.
  - lia.
Qed.

Lemma run_flat (c : Q) (bars : list Bar.t) (closes : list Q) (s0 s : t) :
  0 < c -> Forall (fun x => x == c) closes ->
  Forall (fun b => Bar.close b == c) bars ->
  (1 <= sw_ s0 <= lw_ s0)%Z -> (lw_ s0 < 2 ^ 64)%Z ->
  untouched closes s0 s ->
  untouched (closes ++ List.map Bar.close bars) s0 (run sqrt bars s).
Proof.
  intros Hc Hall Hbars Hw Hlt. revert closes s Hall.
  induction Hbars as [|b bars Hb Hbars IH]; intros closes s Hall H.
  - simpl. now rewrite List.app_nil_r.
  - unfold run, for_each. simpl.
    change (closes ++ Bar.close b :: List.map Bar.close bars)
      with (closes ++ [Bar.close b] ++ List.map Bar.close bars).
    rewrite List.app_assoc.
    apply IH.
    + apply List.Forall_app. split; [exact Hall|]. now constructor.
    + now apply (on_bar_flat c).
Qed.

Lemma on_finish_untouched (closes : list Q) (s0 s : t) :
  untouched closes s0 s ->
  trades_ (on_finish sqrt s) = [] /\ portfolio_value_ (on_finish sqrt s) = 100000 /\
  get_total_return (on_finish sqrt s) == 0 /\ get_trade_count (on_finish sqrt s) = 0%Z.
Proof.
  intros [Ht Hp Hs Hcash Hv Hk Hpr Hd Hcl Hsw Hlw].
  unfold on_finish, calculate_final_metrics, get_total_return, get_trade_count, quantity.
  sma_cbn. rewrite Hp. sma_cbn. change (0 =? 0) with true. cbn [negb]. sma_cbn.
  rewrite Ht, Hcash. repeat split; reflexivity.
Qed.

(** X1.  Until as many bars as the long window have been seen the strategy
    does not trade: after fewer bars than the long window there is no trade
    record, no position, and the portfolio is the untouched initial capital
    of 100000. *)
Theorem no_trade_before_long_window (s0 : t) (bars : list Bar.t) :
  (size bars < lw_ s0 < 2 ^ 64)%Z ->
  let s := run sqrt bars (on_start s0) in
  trades_ s = [] /\ quantity s = 0 /\ cash_ s = 100000 /\ portfolio_value_ s = 100000 /\
  closes_ s = List.map Bar.close bars.
Proof.
  intros Hn s.
  destruct (run_warm_up bars [] s0 (on_start s0) (on_start_untouched s0) Hn)
    as [Ht Hp Hs Hcash Hv Hk Hpr Hd Hcl Hsw Hlw].
  subst s. unfold quantity. rewrite Hp. auto.
Qed.


End SmaSignals.

Lemma no_trade_before_long_window_witness :
  let s :=
    run identity_sqrt [flat_bar 20240102 100; flat_bar 20240103 120]
      (SmaCrossStrategy.on_start (SmaCrossStrategy.make 1 3 0.001 "DEMO")) in
  SmaCrossStrategy.trades_ s = [] /\ SmaCrossStrategy.quantity s = 0 /\
  SmaCrossStrategy.cash_ s = 100000 /\ SmaCrossStrategy.portfolio_value_ s = 100000 /\
  SmaCrossStrategy.closes_ s = [100; 120].
Proof.
  apply (no_trade_before_long_window identity_sqrt (SmaCrossStrategy.make 1 3 0.001 "DEMO")
           [flat_bar 20240102 100; flat_bar 20240103 120]).
  vm_compute. split; reflexivity.
Defined.


(** ** The SMA crossover strategy: risk limits and protective exits *)

Lemma fmax_lub (a b c : Q) : a <= c -> b <= c -> fmax a b <= c.
Proof. intros Ha Hb. unfold fmax. now destruct (a <? b). Qed.

Lemma fmin_glb (a b c : Q) : c <= a -> c <= b -> c <= fmin a b.
Proof. intros Ha Hb. unfold fmin. now destruct (b <? a). Qed.

Lemma Qmult_le_nonneg_l (x y z : Q) : x <= y -> 0 <= z -> z * x <= z * y.
Proof. intros Hxy Hz. rewrite !(Qmult_comm z). now apply Qmult_le_compat_r. Qed.

Section SmaRisk.

Import SmaCrossStrategy.

Variable sqrt : Q -> Q.

Lemma calculate_volatility_adjustment_limits (s : t) :
  0.5 <= calculate_volatility_adjustment sqrt s <= 2.
Proof.
  unfold calculate_volatility_adjustment.
  repeat break_if; try (split; lra).
  split; [apply fmax_le_l|].
  apply fmax_lub; [lra | apply fmin_le_l].
Qed.

Lemma calculate_base_position_size_limits (portfolio_value : Q) (s : t) :
  0 <= portfolio_value -> 0.001 <= RiskConfig.max_portfolio_risk (risk_config_ s) ->
  portfolio_value * 0.001 <= calculate_base_position_size portfolio_value s
  <= portfolio_value * RiskConfig.max_portfolio_risk (risk_config_ s).
Proof.
  intros Hv Hr. unfold calculate_base_position_size. break_if.
  - split; [|lra]. apply Qmult_le_nonneg_l; lra.
  - match goal with |- context [fmax ?k 0.001] => set (kelly := fmax k 0.001) end.
    assert (Hk : 0.001 <= kelly <= RiskConfig.max_portfolio_risk (risk_config_ s)).
    { split; [apply fmax_le_r|]. apply fmax_lub; [apply fmin_le_r | exact Hr]. }
    split; apply Qmult_le_nonneg_l; lra.
Qed.

(** X3.  The volatility adjustment always lies between 0.5 and 2, and for a
    non-negative portfolio value and a risk budget of at least 0.1% the
    position size lies between 0.1% of the portfolio value and the budget
    [max_portfolio_risk] times the portfolio value, with or without
    volatility sizing and whatever the trade history. *)
Theorem position_size_within_risk_budget (portfolio_value : Q) (s : t) :
  0 <= portfolio_value -> 0.001 <= RiskConfig.max_portfolio_risk (risk_config_ s) ->
  0.5 <= calculate_volatility_adjustment sqrt s <= 2 /\
  portfolio_value * 0.001 <= calculate_position_size sqrt portfolio_value s
  <= portfolio_value * RiskConfig.max_portfolio_risk (risk_config_ s).
Proof.
  intros Hv Hr. split; [apply calculate_volatility_adjustment_limits|].
  pose proof (calculate_base_position_size_limits portfolio_value s Hv Hr) as Hb.
  unfold calculate_position_size. break_if; [exact Hb|].
  split; [apply fmax_le_l|].
  apply fmax_lub; [|apply fmin_le_l].
  apply Qmult_le_nonneg_l; lra.
Qed.

(** *** Protective exits *)

(** What [close_position] does to an open position at a positive price. *)
Lemma close_position_open (date : Z) (price : Q) (s : t) :
  ~ quantity s == 0 -> 0 < price ->
  let s' := close_position date price s in
  let size := Qabs (quantity s) in
  let entry_price := Position.avg_entry_price (current_position_ s) in
  quantity s' = 0 /\ position_ s' = position_ s /\
  trades_ s'
  = trades_ s
    ++ [{| Trade.date := date;
           Trade.side := if quantity s >? 0 then Trade.SELL else Trade.BUY;
           Trade.type := Trade.EXIT;
           Trade.price := price;
           Trade.quantity := size;
           Trade.pnl :=
             quantity s * (price - entry_price)
             - fee_ s * (size * entry_price + size * price);
           Trade.symbol := symbol_ s |}] /\
  cash_ s'
  = (if quantity s >? 0 then cash_ s + (size * price - fee_ s * (size * price))
     else cash_ s - (size * price + fee_ s * (size * price))) /\
  portfolio_value_ s' = cash_ s'.
Proof.
  intros Hq Hp. cbn zeta. unfold close_position.
  destruct (quantity s =? 0) eqn:E0; [reflect_Q; contradiction|].
  destruct (price <=? 0) eqn:E1; [reflect_Q; lra|].
  cbn [orb]. unfold quantity in *.
  destruct (Position.quantity (current_position_ s) >? 0) eqn:E2; sma_cbn;
    repeat split; reflexivity.
Qed.

(** X4.  A long position with a stop-loss is closed on a bar that closes at
    or below the stop, whatever the signal: the position is sold in full at
    the close of the bar, an [EXIT] record is appended, no new position is
    opened on that bar and the remembered signal is left as it was. *)
Theorem stop_loss_closes_long_position (b : Bar.t) (signal : Z) (s : t) :
  0 < quantity s -> 0 < stop_loss_price_ s ->
  0 < Bar.close b -> Bar.close b <= stop_loss_price_ s ->
  let s' := execute_trading_logic sqrt b signal s in
  quantity s' = 0 /\ position_ s' = position_ s /\
  portfolio_value_ s' = cash_ s' /\
  cash_ s' = cash_ s + (quantity s * Bar.close b - fee_ s * (quantity s * Bar.close b)) /\
  exists exit,
    trades_ s' = trades_ s ++ [exit] /\
    Trade.type exit = Trade.EXIT /\ Trade.side exit = Trade.SELL /\
    Trade.date exit = Bar.date b /\ Trade.price exit = Bar.close b /\
    Trade.quantity exit = quantity s.
Proof.
  intros Hq Hstop Hp Hle. cbn zeta.
  assert (Hne : ~ quantity s == 0) by lra.
  pose proof (close_position_open (Bar.date b) (Bar.close b) s Hne Hp) as Hclose.
  cbn zeta in Hclose.
  assert (Hexit : execute_trading_logic sqrt b signal s
                  = close_position (Bar.date b) (Bar.close b) s).
  { unfold execute_trading_logic, should_exit_position.
    assert (E0 : (quantity s =? 0) = false) by now apply Qeqb_neq.
    assert (E1 : (quantity s >? 0) = true) by now apply Qltb_lt.
    assert (E2 : (stop_loss_price_ s >? 0) = true) by now apply Qltb_lt.
    assert (E3 : (Bar.close b <=? stop_loss_price_ s) = true) by now apply Qle_bool_iff.
    rewrite E0, E1, E2, E3. reflexivity. }
  rewrite Hexit.
  assert (E1 : (quantity s >? 0) = true) by now apply Qltb_lt.
  rewrite E1 in Hclose.
  assert (Habs : Qabs (quantity s) = quantity s).
  { unfold Qabs. destruct (quantity s) as [[|n|n] d]; try reflexivity.
    unfold Qlt in Hq. simpl in Hq. lia. }
  rewrite Habs in Hclose.
  destruct Hclose as (H1 & H2 & H3 & H4 & H5).
  repeat (split; [assumption|]).
  eexists. split; [exact H3|]. repeat split; reflexivity.
Qed.

(** X23.  Protective levels only tighten.  Asking whether to exit leaves the
    stop-loss and the take-profit where they are, never lowers the trailing
    stop of a long position and never raises that of a short one; and when
    the trailing stop of a long position is active and the answer is no, it
    ends at least at the close less the trailing percentage. *)
Theorem trailing_stop_only_tightens (b : Bar.t) (s : t) :
  let s' := snd (should_exit_position b s) in
  stop_loss_price_ s' = stop_loss_price_ s /\
  take_profit_price_ s' = take_profit_price_ s /\
  (0 < quantity s -> trailing_stop_price_ s <= trailing_stop_price_ s') /\
  (quantity s < 0 -> trailing_stop_price_ s' <= trailing_stop_price_ s) /\
  (0 < quantity s -> RiskConfig.enable_trailing_stop (risk_config_ s) = true ->
   0 < trailing_stop_price_ s -> fst (should_exit_position b s) = false ->
   Bar.close b * (1 - RiskConfig.trailing_stop_pct (risk_config_ s))
   <= trailing_stop_price_ s').
Proof.
  cbn zeta. unfold should_exit_position, update_trailing_stop.
  repeat break_if; cbn [fst snd]; sma_cbn; reflect_Q;
    repeat split; intros; try reflexivity; try discriminate; try lra;
    repeat match goal with H : _ \/ _ |- _ => destruct H end;
    reflect_Q; try congruence; lra.
Qed.

End SmaRisk.

Lemma position_size_within_risk_budget_witness :
  let s := SmaCrossStrategy.on_start (SmaCrossStrategy.make 10 40 0.0005 "DEMO") in
  100000 * 0.001 <= SmaCrossStrategy.calculate_position_size identity_sqrt 100000 s
  <= 100000 * RiskConfig.max_portfolio_risk (SmaCrossStrategy.risk_config_ s).
Proof.
  intro s.
  refine (proj2 (position_size_within_risk_budget identity_sqrt 100000 s _ _)).
  - vm_compute. discriminate.
  - vm_compute. discriminate.
Defined.

(** SMA(1, 2) is long after closes of 100 and 102, with its stop at 99.96. *)
Definition long_after_two_bars : SmaCrossStrategy.t :=
  run identity_sqrt [flat_bar 20240102 100; flat_bar 20240103 102]
    (SmaCrossStrategy.on_start (SmaCrossStrategy.make 1 2 0.001 "DEMO")).

Lemma stop_loss_closes_long_position_witness :
  let s' :=
    SmaCrossStrategy.execute_trading_logic identity_sqrt (flat_bar 20240104 99) 1
      long_after_two_bars in
  SmaCrossStrategy.quantity s' = 0 /\
  SmaCrossStrategy.position_ s' = SmaCrossStrategy.position_ long_after_two_bars.
Proof.
  intro s'.
  destruct (stop_loss_closes_long_position identity_sqrt (flat_bar 20240104 99) 1
              long_after_two_bars) as (H1 & H2 & _).
  - vm_compute. reflexivity.
  - vm_compute. reflexivity.
  - vm_compute. reflexivity.
  - vm_compute. discriminate.
  - split; [exact H1 | exact H2].
Defined.

(** A bar closing higher pulls the trailing stop of the long position up. *)
Lemma trailing_stop_only_tightens_witness :
  let s' :=
    snd (SmaCrossStrategy.should_exit_position (flat_bar 20240104 103) long_after_two_bars) in
  SmaCrossStrategy.trailing_stop_price_ long_after_two_bars
  <= SmaCrossStrategy.trailing_stop_price_ s'.
Proof.
  intro s'.
  destruct (trailing_stop_only_tightens (flat_bar 20240104 103) long_after_two_bars)
    as (_ & _ & H & _).
  apply H. vm_compute. reflexivity.
Defined.

(** ** The SMA crossover strategy: the trade log and the books *)

(** The quantity of an entry with its direction: positive when bought. *)
Definition signed_quantity (entry : Trade.t) : Q :=
  match Trade.side entry with
  | Trade.BUY => Trade.quantity entry
  | Trade.SELL => - Trade.quantity entry
  end.

Definition opposite (side : Trade.Side) : Trade.Side :=
  match side with Trade.BUY => Trade.SELL | Trade.SELL => Trade.BUY end.

(** The result of a round trip: the price move on the signed quantity, less
    the fee on the entry and on the exit notional. *)
Definition round_trip_pnl (fee : Q) (entry exit : Trade.t) : Q :=
  signed_quantity entry * (Trade.price exit - Trade.price entry)
  - fee * (Trade.quantity entry * Trade.price entry
           + Trade.quantity entry * Trade.price exit).

(** An exit that closes the position of an entry. *)
Record closes_entry (fee : Q) (entry exit : Trade.t) : Prop := {
  closes_entry_entry : Trade.type entry = Trade.ENTRY;
  closes_entry_exit : Trade.type exit = Trade.EXIT;
  closes_entry_side : Trade.side exit = opposite (Trade.side entry);
  closes_entry_quantity : Trade.quantity exit == Trade.quantity entry;
  closes_entry_positive : 0 < Trade.quantity entry;
  closes_entry_pnl : Trade.pnl exit == round_trip_pnl fee entry exit
}.

(** A log made of entries each followed at once by its exit. *)
Inductive round_trips (fee : Q) : list Trade.t -> Prop :=
| round_trips_nil : round_trips fee []
| round_trips_snoc (log : list Trade.t) (entry exit : Trade.t) :
    round_trips fee log -> closes_entry fee entry exit ->
    round_trips fee (log ++ [entry; exit]).

(** The sum of the results recorded on the exits of a log. *)
Fixpoint total_pnl (trades : list Trade.t) : Q :=
  match trades with
  | [] => 0
  | trade :: rest => (if Trade.is_exit trade then Trade.pnl trade else 0) + total_pnl rest
  end.

(** The notional traded by the records of a log. *)
Fixpoint turnover (trades : list Trade.t) : Q :=
  match trades with
  | [] => 0
  | trade :: rest => Trade.quantity trade * Trade.price trade + turnover rest
  end.

Lemma total_pnl_app (l1 l2 : list Trade.t) :
  total_pnl (l1 ++ l2) == total_pnl l1 + total_pnl l2.
Proof.
  induction l1 as [|tr l1 IH]; simpl; [ring|]. rewrite IH. ring.
Qed.

Lemma turnover_app (l1 l2 : list Trade.t) :
  turnover (l1 ++ l2) == turnover l1 + turnover l2.
Proof.
  induction l1 as [|tr l1 IH]; simpl; [ring|]. rewrite IH. ring.
Qed.

Section SmaBooks.

Import SmaCrossStrategy.

Variable sqrt : Q -> Q.

(** The books of a strategy with fee rate [fee]: either it is flat, its log
    is made of round trips and its cash is the initial capital plus their
    results; or its log is such a log followed by one entry, which is the
    open position, and the cash has paid for (or received) its notional and
    paid its entry fee.  In both cases the fees paid are the fee rate times
    the turnover of the log. *)
Inductive books (fee : Q) (s : t) : Prop :=
| books_flat :
    fee_ s = fee -> quantity s == 0 ->
    round_trips fee (trades_ s) ->
    cash_ s == 100000 + total_pnl (trades_ s) ->
    fees_paid_ s == fee * turnover (trades_ s) ->
    books fee s
| books_open (log : list Trade.t) (entry : Trade.t) :
    fee_ s = fee -> trades_ s = log ++ [entry] ->
    round_trips fee log ->
    Trade.type entry = Trade.ENTRY ->
    0 < Trade.quantity entry -> 0 < Trade.price entry ->
    quantity s == signed_quantity entry ->
    Position.avg_entry_price (current_position_ s) = Trade.price entry ->
    cash_ s == 100000 + total_pnl log - signed_quantity entry * Trade.price entry
               - fee * (Trade.quantity entry * Trade.price entry) ->
    fees_paid_ s == fee * turnover (trades_ s) ->
    books fee s.

(** The members the books are made of. *)
Definition same_books (s s' : t) : Prop :=
  fee_ s' = fee_ s /\ trades_ s' = trades_ s /\ cash_ s' = cash_ s /\
  fees_paid_ s' = fees_paid_ s /\
  Position.quantity (current_position_ s') = Position.quantity (current_position_ s) /\
  Position.avg_entry_price (current_position_ s')
  = Position.avg_entry_price (current_position_ s).

Lemma books_same (fee : Q) (s s' : t) : same_books s s' -> books fee s -> books fee s'.
Proof.
  intros (Hf & Ht & Hc & Hp & Hq & Ha) [H1 H2 H3 H4 H5 | log entry H1 H2 H3 H4 H5 H6 H7 H8 H9 H10];
    unfold quantity in *.
  - apply books_flat; unfold quantity; rewrite ?Hf, ?Ht, ?Hc, ?Hp, ?Hq; assumption.
  - apply (books_open fee s' log entry); unfold quantity;
      rewrite ?Hf, ?Ht, ?Hc, ?Hp, ?Hq, ?Ha; assumption.
Qed.

Lemma signed_quantity_nonzero (entry : Trade.t) :
  0 < Trade.quantity entry -> ~ signed_quantity entry == 0.
Proof. unfold signed_quantity. destruct (Trade.side entry); intros H H0; lra. Qed.

Lemma books_flat_inv (fee : Q) (s : t) :
  books fee s -> quantity s == 0 ->
  fee_ s = fee /\ round_trips fee (trades_ s) /\
  cash_ s == 100000 + total_pnl (trades_ s) /\
  fees_paid_ s == fee * turnover (trades_ s).
Proof.
  intros [H1 H2 H3 H4 H5 | log entry H1 H2 H3 H4 H5 H6 H7 H8 H9 H10] Hq; [auto|].
  exfalso. apply (signed_quantity_nonzero entry H5). now rewrite <- H7.
Qed.

Lemma books_fees (fee : Q) (s : t) :
  books fee s -> fee_ s = fee /\ fees_paid_ s == fee * turnover (trades_ s).
Proof. intros [H1 H2 H3 H4 H5 | log entry H1 H2 H3 H4 H5 H6 H7 H8 H9 H10]; auto. Qed.

Lemma on_start_books (s0 : t) : books (fee_ s0) (on_start s0).
Proof.
  apply books_flat; try reflexivity; try apply round_trips_nil; cbn; ring.
Qed.

Lemma update_position_value_same (price : Q) (s : t) :
  same_books s (update_position_value price s).
Proof. unfold same_books, update_position_value. break_if; sma_cbn; repeat split. Qed.

Lemma update_performance_metrics_same (s : t) :
  same_books s (update_performance_metrics s).
Proof.
  unfold same_books, update_performance_metrics. repeat break_if; sma_cbn; repeat split.
Qed.

Lemma calculate_smas_same (s : t) : same_books s (calculate_smas s).
Proof. unfold same_books, calculate_smas. repeat break_if; sma_cbn; repeat split. Qed.

Lemma update_trailing_stop_same (price : Q) (s : t) :
  same_books s (update_trailing_stop price s).
Proof.
  unfold same_books, update_trailing_stop. repeat break_if; sma_cbn; repeat split.
Qed.

Lemma should_exit_position_same (b : Bar.t) (s : t) :
  same_books s (snd (should_exit_position b s)).
Proof.
  unfold should_exit_position.
  repeat break_if; cbn [snd]; try apply update_trailing_stop_same;
    unfold same_books; repeat split.
Qed.

Lemma Qabs_signed_quantity (q : Q) (entry : Trade.t) :
  0 < Trade.quantity entry -> q == signed_quantity entry -> Qabs q == Trade.quantity entry.
Proof.
  intros Hpos ->. unfold signed_quantity. destruct (Trade.side entry).
  - apply Qabs_pos. lra.
  - rewrite Qabs_opp. apply Qabs_pos. lra.
Qed.

(** Closing keeps the books: nothing happens on a flat position or at a
    price that is not positive; otherwise the open entry gets its exit. *)
Lemma close_position_books (fee : Q) (date : Z) (price : Q) (s : t) :
  books fee s -> books fee (close_position date price s).
Proof.
  intro H.
  destruct (quantity s =? 0) eqn:E0.
  { apply (books_same fee s); [|exact H].
    unfold same_books, close_position. rewrite E0. cbn [orb]. sma_cbn. repeat split. }
  destruct (price <=? 0) eqn:E1.
  { apply (books_same fee s); [|exact H].
    unfold same_books, close_position. rewrite E0, E1. cbn [orb]. sma_cbn. repeat split. }
  reflect_Q.
  pose proof (close_position_open date price s E0 E1) as Hclose. cbn zeta in Hclose.
  destruct Hclose as (Hq & _ & Ht & Hc & _).
  assert (Hfee : fee_ (close_position date price s) = fee_ s
                 /\ fees_paid_ (close_position date price s)
                    = fees_paid_ s + fee_ s * (Qabs (quantity s) * price)).
  { unfold close_position.
    destruct (quantity s =? 0) eqn:E0'; [reflect_Q; contradiction|].
    destruct (price <=? 0) eqn:E1'; [reflect_Q; lra|].
    cbn [orb]. break_if; sma_cbn; split; reflexivity. }
  destruct Hfee as [Hfee Hpaid].
  destruct H as [H1 H2 H3 H4 H5 | log entry H1 H2 H3 H4 H5 H6 H7 H8 H9 H10];
    [contradiction|].
  pose proof (Qabs_signed_quantity _ entry H5 H7) as Habs.
  set (exit :=
         {| Trade.date := date;
            Trade.side := if quantity s >? 0 then Trade.SELL else Trade.BUY;
            Trade.type := Trade.EXIT;
            Trade.price := price;
            Trade.quantity := Qabs (quantity s);
            Trade.pnl :=
              quantity s * (price - Position.avg_entry_price (current_position_ s))
              - fee_ s * (Qabs (quantity s)
                          * Position.avg_entry_price (current_position_ s)
                          + Qabs (quantity s) * price);
            Trade.symbol := symbol_ s |}) in *.
  assert (Hpnl : Trade.pnl exit == round_trip_pnl fee entry exit).
  { unfold round_trip_pnl, exit. cbn [Trade.pnl Trade.price].
    rewrite H8, H1, Habs, H7. ring. }
  assert (Hside : Trade.side exit = opposite (Trade.side entry)
                  /\ (if quantity s >? 0 then signed_quantity entry == Trade.quantity entry
                      else signed_quantity entry == - Trade.quantity entry)).
  { unfold exit. cbn [Trade.side]. unfold signed_quantity in *.
    destruct (Trade.side entry); destruct (quantity s >? 0) eqn:Eq; reflect_Q;
      cbn [opposite]; split; try reflexivity; lra. }
  destruct Hside as [Hside Hsign].
  assert (Hlog : trades_ (close_position date price s) = log ++ [entry; exit]).
  { rewrite Ht, H2, <- List.app_assoc. reflexivity. }
  apply books_flat.
  - congruence.
  - rewrite Hq. reflexivity.
  - rewrite Hlog. apply round_trips_snoc; [exact H3|].
    constructor; auto.
  - rewrite Hlog, total_pnl_app. cbn [total_pnl Trade.is_exit].
    unfold Trade.is_exit at 1 2. rewrite H4. cbn [Trade.type exit]. cbn iota.
    change (Trade.type exit) with Trade.EXIT. cbn iota.
    rewrite Hpnl, Hc. unfold round_trip_pnl. change (Trade.price exit) with price.
    destruct (quantity s >? 0); rewrite H9, Habs, Hsign, H1; ring.
  - rewrite Hpaid, H10, Ht, turnover_app. cbn [turnover].
    change (Trade.quantity exit) with (Qabs (quantity s)).
    change (Trade.price exit) with price. rewrite H1. ring.
Qed.

(** Opening on a flat position adds the entry to the books; at a price that
    is not positive nothing happens. *)
Lemma open_position_books (fee : Q) (date : Z) (price : Q) (direction : Z) (s : t) :
  books fee s -> quantity s == 0 \/ price <= 0 ->
  books fee (open_position sqrt date price direction s).
Proof.
  intros H Hflat. unfold open_position.
  destruct (price <=? 0) eqn:E0; [exact H|].
  destruct (calculate_position_size sqrt (portfolio_value_ s) s <=? 0) eqn:E1; [exact H|].
  reflect_Q. destruct Hflat as [Hflat|Hflat]; [|lra].
  destruct (books_flat_inv fee s H Hflat) as (Hf & Hlog & Hcash & Hfees).
  set (size := calculate_position_size sqrt (portfolio_value_ s) s) in *.
  set (entry :=
         {| Trade.date := date;
            Trade.side := if (direction >? 0)%Z then Trade.BUY else Trade.SELL;
            Trade.type := Trade.ENTRY;
            Trade.price := price;
            Trade.quantity := size / price;
            Trade.pnl := 0;
            Trade.symbol := symbol_ s |}).
  assert (Hq : 0 < size / price).
  { apply Qlt_shift_div_l; lra. }
  eapply books_same; [apply update_position_value_same|].
  apply (books_open fee _ (trades_ s) entry).
  - destruct (direction >? 0)%Z; sma_cbn; exact Hf.
  - destruct (direction >? 0)%Z; sma_cbn; reflexivity.
  - exact Hlog.
  - reflexivity.
  - exact Hq.
  - exact E0.
  - unfold quantity, signed_quantity, entry. cbn [Trade.side Trade.quantity].
    destruct (direction >? 0)%Z; sma_cbn; reflexivity.
  - destruct (direction >? 0)%Z; sma_cbn; reflexivity.
  - unfold signed_quantity, entry. cbn [Trade.side Trade.quantity Trade.price].
    destruct (direction >? 0)%Z; sma_cbn; rewrite Hcash, Hf; ring.
  - destruct (direction >? 0)%Z; sma_cbn; rewrite Hfees, Hf, turnover_app;
      cbn [turnover]; unfold entry; cbn [Trade.quantity Trade.price]; ring.
Qed.

Lemma execute_trading_logic_books (fee : Q) (b : Bar.t) (signal : Z) (s : t) :
  books fee s -> books fee (execute_trading_logic sqrt b signal s).
Proof.
  intro H. unfold execute_trading_logic.
  assert (H1 : books fee (snd (should_exit_position b s)))
    by (eapply books_same; [apply should_exit_position_same | exact H]).
  assert (H2 : forall s1, books fee s1 ->
    books fee
      (update_position_value (Bar.close b)
         (if negb (signal =? position_ s1)%Z
          then
            set_position_ signal
              ((fun s2 =>
                  if negb (signal =? 0)%Z
                  then open_position sqrt (Bar.date b) (Bar.close b) signal s2 else s2)
                 (if negb (quantity s1 =? 0)
                  then close_position (Bar.date b) (Bar.close b) s1 else s1))
          else s1))).
  { intros s1 Hs1.
    eapply books_same; [apply update_position_value_same|].
    break_if; [|assumption].
    assert (H3 : forall s2, books fee s2 -> books fee (set_position_ signal s2)).
    { intros s2. apply books_same. unfold same_books. sma_cbn. repeat split. }
    apply H3. cbn beta.
    destruct (negb (signal =? 0)%Z) eqn:Es.
    - apply open_position_books.
      + break_if; [apply close_position_books|]; assumption.
      + destruct (quantity s1 =? 0) eqn:Eq; cbn [negb].
        * left. now reflect_Q.
        * destruct (Qlt_le_dec 0 (Bar.close b)) as [Hp|Hp]; [left|now right].
          apply close_position_flat. exact Hp.
    - break_if; [apply close_position_books|]; assumption. }
  destruct (negb (quantity s =? 0)); [destruct (should_exit_position b s) as [e s1]|];
    cbn [snd] in *.
  - destruct e; [now apply close_position_books | now apply H2].
  - now apply H2.
Qed.

Lemma on_bar_books (fee : Q) (b : Bar.t) (s : t) :
  books fee s -> books fee (on_bar sqrt b s).
Proof.
  intro H. unfold on_bar.
  assert (H0 : books fee (set_closes_ (closes_ s ++ [Bar.close b]) s)).
  { revert H. apply books_same. unfold same_books. sma_cbn. repeat split. }
  break_if.
  - eapply books_same; [apply update_position_value_same | exact H0].
  - eapply books_same; [apply update_performance_metrics_same|].
    assert (H3 : forall s2, books fee s2 ->
      books fee (set_last_date_ (Bar.date b) (set_last_price_ (Bar.close b) s2))).
    { intros s2. apply books_same. unfold same_books. sma_cbn. repeat split. }
    apply H3, execute_trading_logic_books.
    eapply books_same; [apply calculate_smas_same | exact H0].
Qed.

Lemma run_books (fee : Q) (bars : list Bar.t) (s : t) :
  books fee s -> books fee (run sqrt bars s).
Proof.
  revert s. induction bars as [|b bars IH]; intros s H; [exact H|].
  unfold run, for_each in *. simpl. apply IH, on_bar_books, H.
Qed.

(** [on_finish] closes what is open, at the last price seen or else at the
    entry price, and leaves flat books. *)
Lemma on_finish_books (fee : Q) (s : t) :
  books fee s ->
  let s' := on_finish sqrt s in
  books fee s' /\ quantity s' == 0 /\ portfolio_value_ s' = cash_ s'.
Proof.
  intro H. cbn zeta. unfold on_finish, calculate_final_metrics.
  match goal with
  | |- context [set_portfolio_value_ (cash_ ?x) ?x] => set (s1 := x)
  end.
  assert (H1 : books fee s1 /\ quantity s1 == 0).
  { subst s1. destruct (quantity s =? 0) eqn:Eq; cbn [negb].
    - split; [exact H | now reflect_Q].
    - split; [now apply close_position_books|].
      apply close_position_flat.
      break_if; reflect_Q; [assumption|].
      destruct H as [H1 H2 H3 H4 H5 | log entry H1 H2 H3 H4 H5 H6 H7 H8 H9 H10];
        [contradiction | now rewrite H8]. }
  destruct H1 as [H1 H2].
  split; [|split; [exact H2 | reflexivity]].
  revert H1. apply books_same. unfold same_books. sma_cbn. repeat split.
Qed.

(** The books after a complete simulation. *)
Lemma complete_run_books (s0 : t) (bars : list Bar.t) :
  let s := on_finish sqrt (run sqrt bars (on_start s0)) in
  round_trips (fee_ s0) (trades_ s) /\
  portfolio_value_ s == 100000 + total_pnl (trades_ s).
Proof.
  cbn zeta.
  destruct (on_finish_books (fee_ s0) (run sqrt bars (on_start s0))
              (run_books _ bars _ (on_start_books s0))) as (H & Hq & Hv).
  destruct (books_flat_inv _ _ H Hq) as (_ & Hlog & Hcash & _).
  split; [exact Hlog | now rewrite Hv].
Qed.

(** X5.  After a complete simulation ([on_start], any bars, [on_finish]) the
    trade log consists of round trips: each [ENTRY] is directly followed by
    one [EXIT] on the opposite side and for the same quantity, and the
    result recorded on the exit is the price move on the signed quantity
    less the fee on the entry and on the exit notional. *)
Theorem trade_log_is_round_trips (s0 : t) (bars : list Bar.t) :
  round_trips (fee_ s0) (trades_ (on_finish sqrt (run sqrt bars (on_start s0)))).
Proof. apply complete_run_books. Qed.



End SmaBooks.

(** ** The risk metrics of the tester *)

Lemma for_each_snoc {A S : Type} (v : list A) (x : A) (body : A -> S -> S) (init : S) :
  for_each (v ++ [x]) body init = body x (for_each v body init).
Proof. unfold for_each. now rewrite List.fold_left_app. Qed.

Section RiskMetrics.

Import StrategyTester.

(** *** Maximum drawdown *)

(** The decline from [peak] to [value], as a fraction of [peak]. *)
Definition decline (peak value : Q) : Q := (peak - value) / peak.

Lemma Qinv_le_inv (a b : Q) : 0 < a -> a <= b -> / b <= / a.
Proof.
  intros Ha Hab.
  assert (Hb : 0 < b) by lra.
  assert (Hia : 0 < / a) by now apply Qinv_lt_0_compat.
  assert (Hib : 0 < / b) by now apply Qinv_lt_0_compat.
  assert (H1 : / b == (/ a * / b) * a) by (field; split; lra).
  assert (H2 : / a == (/ a * / b) * b) by (field; split; lra).
  assert (H3 : (/ a * / b) * a <= (/ a * / b) * b).
  { apply Qmult_le_nonneg_l; [exact Hab|].
    apply Qlt_le_weak, Qmult_lt_0_compat; assumption. }
  apply (Qle_trans _ (/ a * / b * a)); [rewrite <- H1; apply Qle_refl|].
  apply (Qle_trans _ (/ a * / b * b)); [exact H3 | rewrite <- H2; apply Qle_refl].
Qed.

Lemma decline_monotone (a peak value : Q) :
  0 < a -> a <= peak -> 0 < value -> decline a value <= decline peak value.
Proof.
  intros Ha Hle Hv. unfold decline.
  assert (H1 : (a - value) / a == 1 - value * / a) by (field; lra).
  assert (H2 : (peak - value) / peak == 1 - value * / peak) by (field; lra).
  rewrite H1, H2.
  pose proof (Qinv_le_inv a peak Ha Hle) as Hinv.
  pose proof (Qmult_le_nonneg_l _ _ value Hinv (Qlt_le_weak _ _ Hv)). lra.
Qed.

Lemma decline_below_one (peak value : Q) : 0 < peak -> 0 < value -> decline peak value < 1.
Proof.
  intros Hp Hv. unfold decline.
  assert (H : (peak - value) / peak == 1 - value * / peak) by (field; lra).
  rewrite H.
  assert (0 < value * / peak) by (apply Qmult_lt_0_compat; [|apply Qinv_lt_0_compat]; lra).
  lra.
Qed.

(** The loop of [calculate_max_drawdown], from any peak and drawdown. *)
Definition drawdown_loop (values : list Q) (peak max_dd : Q) : Q * Q :=
  for_each values
    (fun value '(peak, max_dd) =>
       if value >? peak then (value, max_dd)
       else
         let dd := (peak - value) / peak in
         if dd >? max_dd then (peak, dd) else (peak, max_dd))
    (peak, max_dd).

Lemma calculate_max_drawdown_loop (first : Q) (rest : list Q) :
  calculate_max_drawdown (first :: rest) = snd (drawdown_loop rest first 0).
Proof.
  unfold calculate_max_drawdown. break_if; [|reflexivity].
  apply Z.ltb_lt in E. unfold size in E. destruct rest; [reflexivity | simpl in E; lia].
Qed.

Lemma drawdown_loop_snoc (values : list Q) (value peak max_dd : Q) :
  drawdown_loop (values ++ [value]) peak max_dd
  = (let '(peak, max_dd) := drawdown_loop values peak max_dd in
     if value >? peak then (value, max_dd)
     else if decline peak value >? max_dd then (peak, decline peak value)
          else (peak, max_dd)).
Proof. unfold drawdown_loop. rewrite for_each_snoc. reflexivity. Qed.

Lemma drawdown_loop_nonneg (values : list Q) (peak max_dd : Q) :
  0 <= max_dd -> 0 <= snd (drawdown_loop values peak max_dd).
Proof.
  intro H. induction values as [|value values IH] using List.rev_ind; [exact H|].
  rewrite drawdown_loop_snoc.
  destruct (drawdown_loop values peak max_dd) as [p d]. cbn [snd] in *.
  repeat break_if; cbn [snd]; reflect_Q; lra.
Qed.

Lemma calculate_max_drawdown_nonneg (values : list Q) : 0 <= calculate_max_drawdown values.
Proof.
  destruct values as [|first rest]; [cbn; lra|].
  rewrite calculate_max_drawdown_loop. apply drawdown_loop_nonneg. lra.
Qed.

(** A value [a] of the series followed, later, by a value [b]. *)
Definition later_in (values : list Q) (a b : Q) : Prop :=
  exists l1 l2 l3, values = l1 ++ a :: l2 ++ b :: l3.

Lemma later_in_snoc (values : list Q) (x a b : Q) :
  later_in (values ++ [x]) a b -> later_in values a b \/ (List.In a values /\ b = x).
Proof.
  intros (l1 & l2 & l3 & H).
  destruct (List.exists_last (l := b :: l3)) as (l3' & y & Hy); [discriminate|].
  rewrite Hy in H.
  change (l1 ++ a :: l2 ++ l3' ++ [y]) with (l1 ++ (a :: l2) ++ l3' ++ [y]) in H.
  rewrite !List.app_assoc in H.
  apply List.app_inj_tail in H. destruct H as [H ->].
  destruct l3' as [|b' l3'].
  - injection Hy as -> _. right. split; [|reflexivity].
    rewrite H, List.app_nil_r. apply List.in_or_app. right. now left.
  - injection Hy as -> Hy. left. exists l1, l2, l3'.
    rewrite H, <- !List.app_assoc. reflexivity.
Qed.

Lemma later_in_last (values : list Q) (a x : Q) :
  List.In a values -> later_in (values ++ [x]) a x.
Proof.
  intro H. apply List.in_split in H. destruct H as (l1 & l2 & ->).
  exists l1, l2, []. now rewrite <- List.app_assoc.
Qed.

Lemma later_in_more (values : list Q) (x a b : Q) :
  later_in values a b -> later_in (values ++ [x]) a b.
Proof.
  intros (l1 & l2 & l3 & ->). exists l1, l2, (l3 ++ [x]).
  rewrite <- !List.app_assoc. cbn [app]. rewrite <- List.app_assoc. reflexivity.
Qed.

(** The state of the loop after a prefix [seen] of a series of positive
    values: the peak is the largest value seen, and the drawdown is the
    largest decline from a value to a later one, or [0]. *)
Record drawdown_state (seen : list Q) (peak max_dd : Q) : Prop := {
  drawdown_peak_seen : List.In peak seen;
  drawdown_peak_max : forall a, List.In a seen -> a <= peak;
  drawdown_range : 0 <= max_dd < 1;
  drawdown_bound : forall a b, later_in seen a b -> decline a b <= max_dd;
  drawdown_attained :
    max_dd = 0 \/ exists a b, later_in seen a b /\ max_dd = decline a b
}.

Lemma drawdown_loop_state (first : Q) (rest : list Q) :
  Forall (fun v => 0 < v) (first :: rest) ->
  let '(peak, max_dd) := drawdown_loop rest first 0 in
  drawdown_state (first :: rest) peak max_dd.
Proof.
  induction rest as [|x rest IH] using List.rev_ind; intro Hpos.
  - cbn. constructor.
    + now left.
    + intros a [<-|[]]. lra.
    + lra.
    + intros a b (l1 & l2 & l3 & H). exfalso.
      apply (f_equal (@List.length Q)) in H.
      rewrite List.length_app in H. cbn [List.length] in H.
      rewrite List.length_app in H. cbn [List.length] in H. lia.
    + now left.
  - rewrite drawdown_loop_snoc.
    assert (Hpos' : Forall (fun v => 0 < v) (first :: rest) /\ 0 < x).
    { change (first :: rest ++ [x]) with ((first :: rest) ++ [x]) in Hpos.
      apply List.Forall_app in Hpos. destruct Hpos as [H1 H2].
      split; [exact H1 | now inversion H2]. }
    destruct Hpos' as [Hrest Hx].
    specialize (IH Hrest).
    destruct (drawdown_loop rest first 0) as [peak max_dd].
    destruct IH as [Hin Hmax Hrange Hbound Hatt].
    assert (Hpeak : 0 < peak).
    { rewrite List.Forall_forall in Hrest. now apply Hrest. }
    change (first :: rest ++ [x]) with ((first :: rest) ++ [x]).
    assert (Hnew : forall a, List.In a (first :: rest) -> decline a x <= decline peak x).
    { intros a Ha. apply decline_monotone; auto.
      rewrite List.Forall_forall in Hrest. now apply Hrest. }
    destruct (x >? peak) eqn:E1; [|destruct (decline peak x >? max_dd) eqn:E2];
      reflect_Q; constructor.
    + apply List.in_or_app. right. now left.
    + intros a Ha. apply List.in_app_or in Ha. destruct Ha as [Ha|[<-|[]]]; [|lra].
      specialize (Hmax a Ha). lra.
    + exact Hrange.
    + intros a b Hab. apply later_in_snoc in Hab. destruct Hab as [Hab|[Ha ->]].
      * now apply Hbound.
      * eapply Qle_trans; [apply (Hnew a Ha)|].
        unfold decline.
        assert (H : (peak - x) / peak == (peak - x) * / peak) by reflexivity.
        rewrite H.
        assert (0 < / peak) by now apply Qinv_lt_0_compat.
        assert (Hneg : (peak - x) * / peak <= 0 * / peak).
        { apply Qmult_le_compat_r; lra. }
        lra.
    + destruct Hatt as [->|(a & b & Hab & ->)]; [now left|].
      right. exists a, b. split; [now apply later_in_more | reflexivity].
    + apply List.in_or_app. now left.
    + intros a Ha. apply List.in_app_or in Ha. destruct Ha as [Ha|[<-|[]]]; [|lra].
      now apply Hmax.
    + split; [lra|]. now apply decline_below_one.
    + intros a b Hab. apply later_in_snoc in Hab. destruct Hab as [Hab|[Ha ->]].
      * specialize (Hbound a b Hab). lra.
      * now apply Hnew.
    + right. exists peak, x. split; [now apply later_in_last | reflexivity].
    + apply List.in_or_app. now left.
    + intros a Ha. apply List.in_app_or in Ha. destruct Ha as [Ha|[<-|[]]]; [|lra].
      now apply Hmax.
    + exact Hrange.
    + intros a b Hab. apply later_in_snoc in Hab. destruct Hab as [Hab|[Ha ->]].
      * now apply Hbound.
      * specialize (Hnew a Ha). lra.
    + destruct Hatt as [->|(a & b & Hab & ->)]; [now left|].
      right. exists a, b. split; [now apply later_in_more | reflexivity].
Qed.


(** *** Value at risk and expected shortfall *)

Lemma insert_sorted_in (x y : Q) (v : list Q) :
  List.In y (insert_sorted x v) <-> y = x \/ List.In y v.
Proof.
  induction v as [|z v IH]; cbn [insert_sorted].
  - cbn. intuition.
  - break_if; cbn [List.In]; [intuition|]. rewrite IH. intuition.
Qed.

Lemma insert_sorted_length (x : Q) (v : list Q) :
  List.length (insert_sorted x v) = S (List.length v).
Proof.
  induction v as [|z v IH]; cbn [insert_sorted]; [reflexivity|].
  break_if; cbn [List.length]; [reflexivity | now rewrite IH].
Qed.

Lemma sort_in (y : Q) (v : list Q) : List.In y (sort v) <-> List.In y v.
Proof.
  unfold sort. induction v as [|x v IH]; cbn [List.fold_right]; [reflexivity|].
  rewrite insert_sorted_in, IH. cbn. intuition.
Qed.

Lemma sort_length (v : list Q) : List.length (sort v) = List.length v.
Proof.
  unfold sort. induction v as [|x v IH]; cbn [List.fold_right]; [reflexivity|].
  now rewrite insert_sorted_length, IH.
Qed.

(** The value at risk is the loss on one of the returns. *)
Lemma calculate_var_in (returns : list Q) (confidence : Q) :
  returns <> [] -> exists r, List.In r returns /\ calculate_var returns confidence = - r.
Proof.
  intro Hne. unfold calculate_var. destruct returns as [|r0 returns]; [contradiction|].
  set (sorted := sort (r0 :: returns)).
  assert (Hlen : List.length sorted = S (List.length returns)) by apply sort_length.
  match goal with |- context [at_ sorted ?i] => set (index := i) end.
  exists (at_ sorted index). split; [|reflexivity].
  apply sort_in. fold sorted. unfold at_. apply List.nth_In.
  subst index. unfold size. rewrite Hlen.
  break_if; [lia|]. rewrite Z.geb_leb in E. apply Z.leb_gt in E. lia.
Qed.

(** The loop of [calculate_expected_shortfall]: the sum and the number of
    the losses that reach [threshold]. *)
Definition shortfall_loop (returns : list Q) (threshold : Q) (sum : Q) (count : Z) : Q * Z :=
  for_each returns
    (fun ret '(sum, count) =>
       if - ret >=? threshold then (sum + - ret, (count + 1)%Z) else (sum, count))
    (sum, count).

Lemma shortfall_loop_spec (returns : list Q) (threshold sum : Q) (count : Z) :
  (0 <= count)%Z -> to_double count * threshold <= sum ->
  let '(sum', count') := shortfall_loop returns threshold sum count in
  (count <= count')%Z /\ to_double count' * threshold <= sum' /\
  ((exists r, List.In r returns /\ threshold <= - r) -> (count < count')%Z).
Proof.
  revert sum count. induction returns as [|ret returns IH]; intros sum count Hc Hs.
  - cbn. repeat split; [lia | exact Hs|]. intros (r & [] & _).
  - unfold shortfall_loop, for_each in *. cbn [List.fold_left].
    destruct (- ret >=? threshold) eqn:E; reflect_Q.
    + specialize (IH (sum + - ret) (count + 1)%Z ltac:(lia)).
      destruct (List.fold_left _ returns _) as [sum' count'].
      destruct IH as (H1 & H2 & H3).
      { unfold to_double in *. rewrite inject_Z_plus.
        change (inject_Z 1) with 1. lra. }
      repeat split; [lia | exact H2 | intros _; lia].
    + specialize (IH sum count Hc Hs).
      destruct (List.fold_left _ returns _) as [sum' count'].
      destruct IH as (H1 & H2 & H3).
      repeat split; [exact H1 | exact H2|].
      intros (r & [<-|Hin] & Hr); [lra|]. apply H3. now exists r.
Qed.


End RiskMetrics.



(** ** What [test_strategy] reports *)

Lemma calculate_composite_score_at_most_one (sharpe_ratio max_drawdown total_return : Q)
    (total_trades : Z) :
  0 <= max_drawdown ->
  StrategyMetrics.calculate_composite_score sharpe_ratio max_drawdown total_return total_trades
  <= 1.
Proof.
  intro Hdd. unfold StrategyMetrics.calculate_composite_score.
  pose proof (fmin_le_r (sharpe_ratio / 2) 1) as Hs.
  pose proof (fmin_le_r (total_return / 0.5) 1) as Hr.
  pose proof (fmin_le_r (to_double total_trades / 50) 1) as Ht.
  assert (Hd : fmax 0 (1 - max_drawdown) <= 1) by (apply fmax_lub; lra).
  set (s := fmin (sharpe_ratio / 2) 1) in *.
  set (d := fmax 0 (1 - max_drawdown)) in *.
  set (r := fmin (total_return / 0.5) 1) in *.
  set (t := fmin (to_double total_trades / 50) 1) in *.
  lra.
Qed.

Section TestStrategyProperties.

Import StrategyTester.

Variable sqrt : Q -> Q.
Variable make_rsi_strategy : Z -> Q -> Q -> Z -> Q -> string -> Strategy.t.
Variable make_macd_strategy : Z -> Z -> Z -> Q -> Q -> Q -> string -> Strategy.t.

Local Abbreviation test_strategy :=
  (test_strategy sqrt make_rsi_strategy make_macd_strategy).
Local Abbreviation create_strategy :=
  (create_strategy sqrt make_rsi_strategy make_macd_strategy).

(** *** The validators *)

(** X10.  The chronological validation returns normally exactly when every
    bar is dated strictly later than the bar before it; equal dates are
    refused like decreasing ones. *)
Theorem chronological_validation_accepts_increasing_dates_only (data : list Bar.t) :
  validate_chronological_order data = Returned tt <-> strictly_increasing_dates data.
Proof.
  split; [|apply validate_chronological_order_increasing].
  intros H i prev cur Hp Hc.
  destruct (Z_lt_le_dec (Bar.date prev) (Bar.date cur)) as [Hlt|Hle]; [exact Hlt|].
  rewrite (validate_chronological_order_throws data i prev cur Hp Hc Hle) in H.
  discriminate.
Qed.

(** *** The calls made on the strategy *)

Lemma run_bars_fold (data : list Bar.t) (strategy : Strategy.t) (values : list Q)
    (events : list Event) :
  let '(values', _, events') :=
    for_each data
      (fun bar '(portfolio_values, strategy, events) =>
         let strategy := Strategy.call strategy (Strategy.on_bar strategy bar) in
         (portfolio_values ++ [Strategy.portfolio_value strategy], strategy,
          events ++ [OnBar bar]))
      (values, strategy, events) in
  events' = events ++ List.map OnBar data /\
  List.length values' = (List.length values + List.length data)%nat.
Proof.
  revert strategy values events.
  induction data as [|b data IH]; intros strategy values events.
  - cbn. rewrite List.app_nil_r. split; [reflexivity | lia].
  - unfold for_each in *. cbn [List.fold_left].
    specialize (IH (Strategy.call strategy (Strategy.on_bar strategy b))
                  (values ++ [Strategy.portfolio_value
                                (Strategy.call strategy (Strategy.on_bar strategy b))])
                  (events ++ [OnBar b])).
    destruct (List.fold_left _ data _) as [[values' strategy'] events'].
    destruct IH as [-> ->]. rewrite <- List.app_assoc, List.length_app. cbn. split; [reflexivity | lia].
Qed.

Lemma run_strategy_simulation_events (strategy : Strategy.t) (data : list Bar.t) :
  snd (run_strategy_simulation strategy data)
  = OnStart :: List.map OnBar data ++ [OnFinish].
Proof.
  unfold run_strategy_simulation, run_bars.
  pose proof (run_bars_fold data (Strategy.call strategy (Strategy.on_start strategy)) [] [])
    as H.
  destruct (for_each data _ _) as [[values strategy'] events].
  destruct H as [-> _]. reflexivity.
Qed.

(** X11.  Bad prices do not stop a test.  On non-empty data with strictly
    increasing dates, for any configuration the factory accepts, the
    strategy is created and driven through [on_start], [on_bar] for every
    bar in order, and [on_finish], whatever the prices of the bars are:
    the integrity and OHLC checks only report.  The metrics carry the data. *)
Theorem test_runs_whatever_the_prices (config : StrategyTestConfig.t) (data : list Bar.t)
    (strategy : Strategy.t) :
  data <> [] -> strictly_increasing_dates data ->
  create_strategy (StrategyTestConfig.strategy_name config)
    (StrategyTestConfig.parameters config) (StrategyTestConfig.symbol config)
  = Some strategy ->
  snd (test_strategy config data)
  = StrategyCreated :: OnStart :: List.map OnBar data ++ [OnFinish] /\
  StrategyMetrics.market_data (fst (test_strategy config data)) = data.
Proof.
  intros Hne Hinc Hcreate.
  unfold StrategyTester.test_strategy.
  rewrite (validate_chronological_order_increasing data Hinc).
  destruct data as [|b data]; [contradiction|].
  cbn [validate_data_integrity validate_ohlc_relationships]. rewrite Hcreate.
  pose proof (run_strategy_simulation_values (b :: data) strategy) as Hvals.
  pose proof (run_strategy_simulation_events strategy (b :: data)) as Hevents.
  destruct (run_strategy_simulation strategy (b :: data)) as [[pvs final] evs].
  cbn [fst snd] in *.
  destruct pvs as [|pv pvs]; [contradiction|].
  destruct (trade_statistics (Strategy.trades final)) as [[[w l] n] c].
  cbn [fst snd StrategyMetrics.market_data]. now rewrite Hevents.
Qed.

(** *** Strategies the factory does not know *)

(** The names and parameter counts [StrategyFactory::create_strategy]
    accepts. *)
Definition supported (strategy_name : string) (parameters : list Q) : Prop :=
  (strategy_name = "SMA"%string /\ (3 <= size parameters)%Z) \/
  (strategy_name = "RSI"%string /\ (5 <= size parameters)%Z) \/
  (strategy_name = "MACD"%string /\ (6 <= size parameters)%Z).

Lemma create_strategy_unsupported (strategy_name : string) (parameters : list Q)
    (symbol : string) :
  ~ supported strategy_name parameters ->
  create_strategy strategy_name parameters symbol = None.
Proof.
  intro H. unfold StrategyTester.create_strategy, supported in *.
  destruct (String.eqb strategy_name "SMA" && (size parameters >=? 3)%Z) eqn:E1.
  { exfalso. apply H. left. apply andb_true_iff in E1. destruct E1 as [E1 E2].
    apply String.eqb_eq in E1. rewrite Z.geb_leb in E2. apply Z.leb_le in E2. auto. }
  destruct (String.eqb strategy_name "RSI" && (size parameters >=? 5)%Z) eqn:E2.
  { exfalso. apply H. right. left. apply andb_true_iff in E2. destruct E2 as [E2 E3].
    apply String.eqb_eq in E2. rewrite Z.geb_leb in E3. apply Z.leb_le in E3. auto. }
  destruct (String.eqb strategy_name "MACD" && (size parameters >=? 6)%Z) eqn:E3.
  { exfalso. apply H. right. right. apply andb_true_iff in E3. destruct E3 as [E3 E4].
    apply String.eqb_eq in E3. rewrite Z.geb_leb in E4. apply Z.leb_le in E4. auto. }
  reflexivity.
Qed.

(** X12.  A configuration whose name is not exactly [SMA], [RSI] or [MACD],
    or that has fewer parameters than its strategy takes (3, 5 and 6), is
    not run: the factory returns null and [test_strategy] returns the
    default metrics, all zero, under the name, parameters and symbol of the
    configuration, on any data. *)
Theorem unsupported_strategy_is_not_run (config : StrategyTestConfig.t) (data : list Bar.t) :
  ~ supported (StrategyTestConfig.strategy_name config) (StrategyTestConfig.parameters config) ->
  create_strategy (StrategyTestConfig.strategy_name config)
    (StrategyTestConfig.parameters config) (StrategyTestConfig.symbol config) = None /\
  test_strategy config data
  = (StrategyMetrics.initial (StrategyTestConfig.strategy_name config)
       (StrategyTestConfig.parameters config) (StrategyTestConfig.symbol config),
     []).
Proof.
  intro H.
  pose proof (create_strategy_unsupported _ _ (StrategyTestConfig.symbol config) H) as Hnone.
  split; [exact Hnone|].
  unfold StrategyTester.test_strategy. rewrite Hnone.
  destruct (validate_chronological_order data); [|reflexivity].
  destruct (validate_data_integrity data); [|reflexivity].
  destruct (validate_ohlc_relationships data); reflexivity.
Qed.

(** *** The ranges of the reported metrics *)

Lemma statistics_fold_wins (trades : list Trade.t) (w l : Q) (n c : Z) :
  let '(_, _, n', c') :=
    List.fold_left (fun acc tr => statistics_step tr acc) trades (w, l, n, c) in
  (n <= n')%Z /\ (n' - n <= c' - c)%Z.
Proof.
  revert w l n c. induction trades as [|tr trades IH]; intros w l n c.
  - cbn. lia.
  - cbn [List.fold_left]. unfold statistics_step at 2.
    destruct (Trade.type tr).
    + apply IH.
    + destruct (Trade.pnl tr >? 0); [|destruct (Trade.pnl tr <? 0)].
      * specialize (IH (w + Trade.pnl tr) l (n + 1)%Z (c + 1)%Z).
        destruct (List.fold_left _ trades _) as [[[w' l'] n'] c']. lia.
      * specialize (IH w (l + Qabs (Trade.pnl tr)) n (c + 1)%Z).
        destruct (List.fold_left _ trades _) as [[[w' l'] n'] c']. lia.
      * specialize (IH w l n (c + 1)%Z).
        destruct (List.fold_left _ trades _) as [[[w' l'] n'] c']. lia.
Qed.

Lemma trade_statistics_wins (trades : list Trade.t) :
  let '(_, _, winning_trades, completed_trades) := trade_statistics trades in
  (0 <= winning_trades <= completed_trades)%Z.
Proof.
  unfold trade_statistics, for_each.
  pose proof (statistics_fold_wins trades 0 0 0 0) as H.
  destruct (List.fold_left _ trades _) as [[[w l] n] c]. lia.
Qed.

Lemma win_fraction (winning completed : Z) :
  (0 <= winning <= completed)%Z -> (0 < completed)%Z ->
  0 <= to_double winning / to_double completed <= 1.
Proof.
  intros Hw Hc. unfold to_double.
  assert (H0 : 0 < inject_Z completed)
    by (change 0 with (inject_Z 0); rewrite <- Zlt_Qlt; lia).
  assert (H1 : 0 <= inject_Z winning)
    by (change 0 with (inject_Z 0); rewrite <- Zle_Qle; lia).
  assert (H2 : inject_Z winning <= inject_Z completed) by (rewrite <- Zle_Qle; lia).
  split.
  - apply Qle_shift_div_l; [exact H0 | lra].
  - apply Qle_shift_div_r; [exact H0 | lra].
Qed.

(** X13.  Whatever the configuration and the data, the metrics returned by
    [test_strategy] have a win rate between 0 and 1, a maximum drawdown that
    is not negative, and a composite score of at most 1. *)
Theorem reported_metrics_are_in_range (config : StrategyTestConfig.t) (data : list Bar.t) :
  let metrics := fst (test_strategy config data) in
  0 <= StrategyMetrics.win_rate metrics <= 1 /\
  0 <= StrategyMetrics.max_drawdown metrics /\
  StrategyMetrics.composite_score metrics <= 1.
Proof.
  cbn zeta.
  assert (Hdefault : forall events,
    let metrics :=
      fst (StrategyMetrics.initial (StrategyTestConfig.strategy_name config)
             (StrategyTestConfig.parameters config) (StrategyTestConfig.symbol config),
           events : list Event) in
    0 <= StrategyMetrics.win_rate metrics <= 1 /\
    0 <= StrategyMetrics.max_drawdown metrics /\
    StrategyMetrics.composite_score metrics <= 1).
  { intro events. cbn. repeat split; lra. }
  unfold StrategyTester.test_strategy.
  destruct (validate_chronological_order data); [|apply Hdefault].
  destruct (validate_data_integrity data); [|apply Hdefault].
  destruct (validate_ohlc_relationships data); [|apply Hdefault].
  destruct (create_strategy _ _ _) as [strategy|]; [|apply Hdefault].
  destruct (run_strategy_simulation strategy data) as [[pvs final] evs].
  destruct pvs as [|pv pvs]; [apply Hdefault|].
  pose proof (trade_statistics_wins (Strategy.trades final)) as Hwins.
  destruct (trade_statistics (Strategy.trades final)) as [[[w l] n] c].
  cbn [fst StrategyMetrics.win_rate StrategyMetrics.max_drawdown
       StrategyMetrics.composite_score].
  assert (Hdd : 0 <= (if negb (size (returns_of (pv :: pvs)) =? 0)%Z
                      then calculate_max_drawdown (pv :: pvs) else 0)).
  { break_if; [apply calculate_max_drawdown_nonneg | lra]. }
  split; [|split; [exact Hdd | now apply calculate_composite_score_at_most_one]].
  destruct (c >? 0)%Z eqn:E; [|lra].
  apply win_fraction; [exact Hwins|]. rewrite Z.gtb_ltb in E. now apply Z.ltb_lt in E.
Qed.

End TestStrategyProperties.

Lemma test_runs_whatever_the_prices_witness :
  let data := [Bar.mk 20240102 100 90 120 (-5) 0; Bar.mk 20240103 0 0 0 0 0] in
  snd (StrategyTester.test_strategy identity_sqrt no_rsi no_macd sma_1_2 data)
  = StrategyCreated :: OnStart :: List.map OnBar data ++ [OnFinish].
Proof.
  intro data.
  refine (proj1 (test_runs_whatever_the_prices identity_sqrt no_rsi no_macd sma_1_2 data
                   (make_sma_strategy identity_sqrt 1 2 0.001 "DEMO") _ _ _)).
  - discriminate.
  - intros i prev cur Hp Hc. destruct i as [|[|i]].
    + injection Hp as <-. injection Hc as <-. reflexivity.
    + discriminate.
    + destruct i; discriminate.
  - reflexivity.
Defined.

(** The factory takes the name as it is: a lower-case [sma] is unknown. *)
Lemma unsupported_strategy_is_not_run_witness :
  let config :=
    StrategyTestConfig.mk "sma" [10; 40; 0.0005] "DEMO" 100000 1000 true true true in
  StrategyTester.test_strategy identity_sqrt no_rsi no_macd config two_clean_bars
  = (StrategyMetrics.initial "sma" [10; 40; 0.0005] "DEMO", []).
Proof.
  intro config.
  refine (proj2 (unsupported_strategy_is_not_run identity_sqrt no_rsi no_macd config
                   two_clean_bars _)).
  intros [[H _]|[[H _]|[H _]]]; discriminate.
Defined.

(** ** The registry: signatures and rows *)

Section SignatureProperties.

Import Text StrategyManagement StrategyRegistry.

Lemma fixed_digits_numeric (k : nat) (n : N) : numeric (fixed_digits k n).
Proof. apply digits_numeric, fixed_digits_digits. Qed.

Lemma print_fixed_numeric (p : nat) (x : Q) : numeric (print_fixed p x).
Proof.
  unfold print_fixed.
  apply numeric_app; [apply sign_of_numeric|].
  apply numeric_app; [apply print_N_numeric|].
  destruct p; [constructor|].
  constructor; [reflexivity | apply fixed_digits_numeric].
Qed.

(** The text of a signature: each parameter with eight decimals, followed
    by a bar. *)
Lemma signature_text (parameters : list Q) (oss : text) :
  for_each parameters (fun param oss => oss ++ print_fixed 8 param ++ ["|"%char]) oss
  = oss ++ List.concat (List.map (fun param => print_fixed 8 param ++ ["|"%char]) parameters).
Proof.
  revert oss. induction parameters as [|p parameters IH]; intro oss.
  - cbn. now rewrite List.app_nil_r.
  - unfold for_each in *. cbn [List.fold_left List.map List.concat].
    rewrite IH, <- !List.app_assoc. reflexivity.
Qed.

Lemma getlines_signature (parameters : list Q) :
  getlines (List.concat (List.map (fun param => print_fixed 8 param ++ ["|"%char]) parameters))
    "|"
  = List.map (print_fixed 8) parameters.
Proof.
  induction parameters as [|p parameters IH]; [reflexivity|].
  cbn [List.map List.concat]. rewrite <- List.app_assoc. cbn [app].
  rewrite getlines_token, IH; [reflexivity|].
  apply numeric_free_of; [reflexivity | apply print_fixed_numeric].
Qed.

Lemma chars_str (s : text) : chars (str s) = s.
Proof. apply list_ascii_of_string_of_list_ascii. Qed.

(** Splitting a signature at the bars gives the parameters back as they
    were printed. *)
Lemma signature_tokens (parameters : list Q) :
  getlines (chars (generate_strategy_signature parameters)) "|"
  = List.map (print_fixed 8) parameters.
Proof.
  unfold generate_strategy_signature.
  rewrite chars_str, signature_text. cbn [app]. apply getlines_signature.
Qed.

(** X14.  Two parameter vectors have the same signature exactly when they
    have the same length and, position by position, the same rendering
    with eight decimals: the signature loses nothing but the digits beyond
    the eighth decimal. *)
Theorem signatures_agree_iff_renderings_agree (p q : list Q) :
  generate_strategy_signature p = generate_strategy_signature q
  <-> List.map (print_fixed 8) p = List.map (print_fixed 8) q.
Proof.
  split; intro H.
  - rewrite <- !signature_tokens. now rewrite H.
  - unfold generate_strategy_signature. rewrite !signature_text. cbn [app].
    f_equal.
    rewrite <- (List.map_map (print_fixed 8) (fun s => s ++ ["|"%char])).
    rewrite <- (List.map_map (print_fixed 8) (fun s => s ++ ["|"%char]) q).
    now rewrite H.
Qed.

End SignatureProperties.

Section RegistryRows.

Import StrategyRegistry.

(** No two rows of [strategies] carry the same signature: the [UNIQUE]
    constraint on [parameters_hash]. *)
Definition unique_signatures (d : Database) : Prop :=
  List.NoDup (List.map parameters_hash (strategies d)).

Lemma filter_other_hash (signature other : string) (rows : list StrategyRow) :
  other <> signature ->
  List.filter (has_hash other) (List.filter (fun r => negb (has_hash signature r)) rows)
  = List.filter (has_hash other) rows.
Proof.
  intro Hne. induction rows as [|row rows IH]; [reflexivity|].
  cbn [List.filter].
  destruct (has_hash signature row) eqn:E1; cbn [negb].
  - destruct (has_hash other row) eqn:E2; [|exact IH].
    exfalso. unfold has_hash in *.
    apply String.eqb_eq in E1, E2. congruence.
  - cbn [List.filter]. destruct (has_hash other row); now rewrite IH.
Qed.

Lemma saved_count_other (now : Z) (metrics : StrategyMetrics.t) (d : Database)
    (other : string) :
  other <> generate_strategy_signature (StrategyMetrics.parameters metrics) ->
  count_strategies other (saved now metrics d) = count_strategies other d.
Proof.
  intro Hne. unfold saved, count_strategies, update_region, insert_or_replace_strategy.
  cbn [snd strategies].
  rewrite List.filter_app, filter_other_hash by exact Hne.
  cbn [List.filter]. unfold has_hash at 2. cbn [parameters_hash].
  destruct (String.eqb_spec
              (generate_strategy_signature (StrategyMetrics.parameters metrics)) other)
    as [Heq|_]; [congruence|].
  now rewrite List.app_nil_r.
Qed.

(** X15.  A successful save makes [is_strategy_tested] answer yes for the
    signature of the saved parameters, and changes the answer for no other
    signature. *)
Theorem save_marks_its_signature_only (now : Z) (metrics : StrategyMetrics.t) (r : t)
    (d : Database) :
  db_ r = Some d ->
  let r' := snd (save_strategy_result now metrics r) in
  fst (save_strategy_result now metrics r) = true /\
  is_strategy_tested (generate_strategy_signature (StrategyMetrics.parameters metrics)) r'
  = true /\
  forall other,
    other <> generate_strategy_signature (StrategyMetrics.parameters metrics) ->
    is_strategy_tested other r' = is_strategy_tested other r.
Proof.
  intros Hd. cbn zeta.
  rewrite (save_strategy_result_initialized now metrics r d Hd). cbn [fst snd].
  unfold is_strategy_tested. cbn [db_]. rewrite Hd.
  split; [reflexivity|]. split.
  - now rewrite saved_count.
  - intros other Hne. now rewrite saved_count_other.
Qed.

Lemma filter_split_length {A : Type} (f : A -> bool) (l : list A) :
  (List.length (List.filter f l) + List.length (List.filter (fun x => negb (f x)) l))%nat
  = List.length l.
Proof.
  induction l as [|x l IH]; [reflexivity|].
  cbn [List.filter]. destruct (f x); cbn [negb List.length]; lia.
Qed.

Lemma unique_signature_count (signature : string) (rows : list StrategyRow) :
  List.NoDup (List.map parameters_hash rows) ->
  (List.length (List.filter (has_hash signature) rows) <= 1)%nat.
Proof.
  induction rows as [|row rows IH]; intro H; [cbn; lia|].
  cbn [List.map] in H. inversion H as [|? ? Hnot Hrest]; subst.
  cbn [List.filter]. destruct (has_hash signature row) eqn:E; [|now apply IH].
  cbn [List.length].
  assert (Hnone : List.filter (has_hash signature) rows = []).
  { destruct (List.filter (has_hash signature) rows) as [|row' rows'] eqn:Ef; [reflexivity|].
    exfalso. apply Hnot.
    assert (Hin : List.In row' (List.filter (has_hash signature) rows))
      by (rewrite Ef; now left).
    apply List.filter_In in Hin. destruct Hin as [Hin Hhash].
    unfold has_hash in *. apply String.eqb_eq in E, Hhash.
    rewrite E, <- Hhash. now apply List.in_map. }
  rewrite Hnone. cbn. lia.
Qed.

Lemma filter_map_not_in (signature : string) (rows : list StrategyRow) :
  ~ List.In signature
      (List.map parameters_hash (List.filter (fun r => negb (has_hash signature r)) rows)).
Proof.
  intro H. apply List.in_map_iff in H. destruct H as (row & Hhash & Hin).
  apply List.filter_In in Hin. destruct Hin as [_ Hneg].
  unfold has_hash in Hneg. rewrite Hhash, String.eqb_refl in Hneg. discriminate.
Qed.

Lemma NoDup_map_filter {A B : Type} (g : A -> B) (f : A -> bool) (l : list A) :
  List.NoDup (List.map g l) -> List.NoDup (List.map g (List.filter f l)).
Proof.
  induction l as [|x l IH]; intro H; [constructor|].
  cbn [List.map] in H. inversion H as [|? ? Hnot Hrest]; subst.
  cbn [List.filter]. destruct (f x); [|now apply IH].
  cbn [List.map]. constructor; [|now apply IH].
  intro Hin. apply Hnot. apply List.in_map_iff in Hin. destruct Hin as (y & Hy & Hin).
  apply List.filter_In in Hin. destruct Hin as [Hin _].
  rewrite <- Hy. now apply List.in_map.
Qed.

Lemma NoDup_snoc {A : Type} (l : list A) (a : A) :
  List.NoDup l -> ~ List.In a l -> List.NoDup (l ++ [a]).
Proof.
  induction l as [|x l IH]; intros H Hn; cbn [app].
  - constructor; [intros []|constructor].
  - inversion H as [|? ? Hx Hl]; subst. constructor.
    + intro Hin. apply List.in_app_or in Hin. destruct Hin as [Hin|[<-|[]]].
      * contradiction.
      * apply Hn. now left.
    + apply IH; [exact Hl|]. intro Hin. apply Hn. now right.
Qed.

(** The rows after a save: those of other signatures, then the new row. *)
Lemma saved_rows (now : Z) (metrics : StrategyMetrics.t) (d : Database) :
  exists row,
    parameters_hash row = generate_strategy_signature (StrategyMetrics.parameters metrics) /\
    strategies (saved now metrics d)
    = List.filter
        (fun r =>
           negb (has_hash (generate_strategy_signature (StrategyMetrics.parameters metrics)) r))
        (strategies d) ++ [row].
Proof.
  unfold saved, update_region, insert_or_replace_strategy. cbn [snd strategies].
  eexists. split; [|reflexivity]. reflexivity.
Qed.

(** X16.  A save keeps the signatures of the stored rows distinct, and on a
    registry whose rows have distinct signatures it adds one row when the
    signature was not yet tested and none when it was: the old row is
    replaced. *)
Theorem save_adds_a_row_for_a_new_signature_only (now : Z) (metrics : StrategyMetrics.t)
    (r : t) (d : Database) :
  db_ r = Some d -> unique_signatures d ->
  let signature := generate_strategy_signature (StrategyMetrics.parameters metrics) in
  let r' := snd (save_strategy_result now metrics r) in
  (exists d', db_ r' = Some d' /\ unique_signatures d') /\
  get_total_strategy_count r'
  = if is_strategy_tested signature r then get_total_strategy_count r
    else (get_total_strategy_count r + 1)%Z.
Proof.
  intros Hd Huniq. cbn zeta.
  rewrite (save_strategy_result_initialized now metrics r d Hd). cbn [snd].
  set (signature := generate_strategy_signature (StrategyMetrics.parameters metrics)).
  destruct (saved_rows now metrics d) as (row & Hhash & Hrows). fold signature in Hhash, Hrows.
  split.
  - exists (saved now metrics d). split; [reflexivity|].
    unfold unique_signatures. rewrite Hrows, List.map_app. cbn [List.map].
    rewrite Hhash.
    apply NoDup_snoc; [now apply NoDup_map_filter | apply filter_map_not_in].
  - unfold get_total_strategy_count, is_strategy_tested. cbn [db_]. rewrite Hd.
    unfold count_strategies, size.
    rewrite Hrows, List.length_app. cbn [List.length].
    pose proof (filter_split_length (has_hash signature) (strategies d)) as Hsplit.
    pose proof (unique_signature_count signature (strategies d) Huniq) as Hone.
    destruct (Z.of_nat (List.length (List.filter (has_hash signature) (strategies d))) >? 0)%Z
      eqn:E; [rewrite Z.gtb_ltb in E; apply Z.ltb_lt in E
             |rewrite Z.gtb_ltb in E; apply Z.ltb_ge in E]; lia.
Qed.

(** X17.  The exploration update reports success but never adds a region:
    the [UPDATE] statement is done whether or not a row matched, so the
    [INSERT] that follows a failed update is not reached.  A region without
    a row stays without one, and its exploration count stays 0, after
    [update_exploration_region] and after [save_strategy_result]. *)
Theorem exploration_update_never_adds_a_region (now : Z) (region_id : string) (score : Q)
    (metrics : StrategyMetrics.t) (r : t) (d : Database) :
  db_ r = Some d ->
  let updated := update_exploration_region now region_id score r in
  let stored := save_strategy_result now metrics r in
  fst updated = true /\
  (forall id d', db_ (snd updated) = Some d' ->
     parameter_regions d' !! id = None <-> parameter_regions d !! id = None) /\
  (forall id d', db_ (snd stored) = Some d' ->
     parameter_regions d' !! id = None <-> parameter_regions d !! id = None) /\
  (parameter_regions d !! region_id = None ->
   get_exploration_count region_id (snd updated) = 0%Z) /\
  (parameter_regions d
     !! generate_parameter_region_id (StrategyMetrics.parameters metrics) = None ->
   get_exploration_count
     (generate_parameter_region_id (StrategyMetrics.parameters metrics)) (snd stored) = 0%Z).
Proof.
  intro Hd. cbn zeta.
  rewrite (save_strategy_result_initialized now metrics r d Hd).
  unfold update_exploration_region, get_exploration_count. rewrite Hd.
  unfold update_region. cbn [is_done negb fst snd db_].
  assert (Halter : forall (f : RegionRow -> RegionRow) key id (m : gmap string RegionRow),
            alter f key m !! id = None <-> m !! id = None).
  { intros f key id m. destruct (decide (key = id)) as [->|Hne].
    - rewrite lookup_alter_eq. destruct (m !! id); cbn; split; congruence.
    - now rewrite lookup_alter_ne. }
  split; [reflexivity|]. split; [|split; [|split]].
  - intros id d' Hd'. injection Hd' as <-. cbn [parameter_regions]. apply Halter.
  - intros id d' Hd'. injection Hd' as <-.
    unfold saved, update_region, insert_or_replace_strategy. cbn [snd parameter_regions].
    apply Halter.
  - intro Hnone. cbn [parameter_regions].
    now rewrite (proj2 (Halter _ region_id region_id _) Hnone).
  - intro Hnone. now rewrite saved_region_absent.
Qed.

End RegistryRows.

Lemma save_marks_its_signature_only_witness :
  StrategyRegistry.is_strategy_tested
    (StrategyRegistry.generate_strategy_signature (StrategyMetrics.parameters sample_metrics))
    (snd (StrategyRegistry.save_strategy_result 1 sample_metrics explored_once))
  = true.
Proof.
  refine (proj1 (proj2 (save_marks_its_signature_only 1 sample_metrics explored_once _ _))).
  reflexivity.
Defined.

Lemma save_adds_a_row_for_a_new_signature_only_witness :
  StrategyRegistry.get_total_strategy_count
    (snd (StrategyRegistry.save_strategy_result 1 sample_metrics explored_once))
  = 1%Z.
Proof.
  refine (proj2 (save_adds_a_row_for_a_new_signature_only 1 sample_metrics explored_once
                   _ eq_refl _)).
  constructor.
Defined.

(** A registry that is open and has no region yet. *)
Definition fresh_registry : StrategyRegistry.t :=
  StrategyRegistry.mk (Some StrategyRegistry.empty_database) "strategy_registry.db".

Lemma exploration_update_never_adds_a_region_witness :
  StrategyRegistry.get_exploration_count "10|40|0|"
    (snd (StrategyRegistry.save_strategy_result 1 sample_metrics fresh_registry)) = 0%Z.
Proof.
  refine (proj2 (proj2 (proj2 (proj2
    (exploration_update_never_adds_a_region 1 "10|40|0|" 0.61 sample_metrics fresh_registry
       StrategyRegistry.empty_database eq_refl)))) _).
  reflexivity.
Defined.

(** ** The registry: reading a saved row back *)

Section LoadProperties.

Import Text StrategyManagement StrategyRegistry StrategyRegistryQueries.

Lemma parameters_json_items_cons (param : Q) (rest : list Q) :
  rest <> [] ->
  parameters_json_items (param :: rest)
  = print_double param ++ ","%char :: parameters_json_items rest.
Proof. destruct rest; [contradiction | reflexivity]. Qed.

Lemma getlines_parameters_json_items (parameters : list Q) :
  getlines (parameters_json_items parameters) "," = List.map print_double parameters.
Proof.
  induction parameters as [|p [|q rest] IH]; [reflexivity| |].
  - apply getlines_last; [|apply print_double_nonempty].
    apply numeric_free_of; [reflexivity | apply print_double_numeric].
  - rewrite parameters_json_items_cons by discriminate.
    rewrite getlines_token, IH; [reflexivity|].
    apply numeric_free_of; [reflexivity | apply print_double_numeric].
Qed.

Lemma parse_parameters_print (parameters : list Q) :
  exists values,
    parse_parameters (List.map print_double parameters) = Returned values /\
    Forall2 reads_back parameters values.
Proof.
  induction parameters as [|p rest (values & Hvalues & Hall)].
  - exists []. split; [reflexivity | constructor].
  - destruct (stod_print_double p) as (v & Hv & Heq).
    exists (v :: values). cbn [List.map parse_parameters].
    pose proof (print_double_nonempty p) as Hne.
    destruct (print_double p) as [|c token] eqn:Ep; [contradiction|].
    rewrite Hv, Hvalues.
    split; [reflexivity | now constructor].
Qed.

(** The brackets come off the JSON array. *)
Lemma substr_json (items : text) :
  let json := "["%char :: items ++ ["]"%char] in
  substr json 1 (size_t_sub (size json) 2) = Returned items.
Proof.
  cbn zeta. unfold substr, size_t_sub, size.
  cbn [List.length]. rewrite List.length_app. cbn [List.length].
  destruct (1 >? _)%Z eqn:E1; [rewrite Z.gtb_ltb in E1; apply Z.ltb_lt in E1; lia|].
  destruct (_ <? 2)%Z eqn:E2; [apply Z.ltb_lt in E2; lia|].
  f_equal. change (Z.to_nat 1) with 1%nat. cbn [List.skipn]. rewrite ?List.skipn_O.
  replace (Z.to_nat _) with (List.length items + 0)%nat by lia.
  rewrite List.firstn_app_2. cbn [List.firstn]. apply List.app_nil_r.
Qed.


End LoadProperties.


(** ** Testing with deduplication *)

Section DeduplicationProperties.

Import StrategyRegistry SmartStrategyTester.

Variable sqrt : Q -> Q.
Variable make_rsi_strategy : Z -> Q -> Q -> Z -> Q -> string -> Strategy.t.
Variable make_macd_strategy : Z -> Z -> Z -> Q -> Q -> Q -> string -> Strategy.t.
Variable now : Z -> Z.

Local Abbreviation test_strategy :=
  (StrategyTester.test_strategy sqrt make_rsi_strategy make_macd_strategy).
Local Abbreviation deduplication_loop :=
  (deduplication_loop sqrt make_rsi_strategy make_macd_strategy now).
Local Abbreviation test_strategies_with_deduplication :=
  (test_strategies_with_deduplication sqrt make_rsi_strategy make_macd_strategy now).

(** The signature under which a result is stored. *)
Definition signature_of (metrics : StrategyMetrics.t) : string :=
  generate_strategy_signature (StrategyMetrics.parameters metrics).

(** [test_strategy] returns the parameters it was given. *)
Lemma test_strategy_parameters (config : StrategyTestConfig.t) (data : list Bar.t) :
  StrategyMetrics.parameters (fst (test_strategy config data))
  = StrategyTestConfig.parameters config.
Proof.
  unfold StrategyTester.test_strategy.
  destruct (StrategyTester.validate_chronological_order data); [|reflexivity].
  destruct (StrategyTester.validate_data_integrity data); [|reflexivity].
  destruct (StrategyTester.validate_ohlc_relationships data); [|reflexivity].
  destruct (StrategyTester.create_strategy _ _ _ _ _ _) as [strategy|]; [|reflexivity].
  destruct (StrategyTester.run_strategy_simulation strategy data) as [[pvs final] evs].
  destruct pvs as [|pv pvs]; [reflexivity|].
  destruct (StrategyTester.trade_statistics (Strategy.trades final)) as [[[w l] n] c].
  reflexivity.
Qed.

Lemma save_strategy_result_tested (time : Z) (metrics : StrategyMetrics.t) (r : t)
    (d : Database) (signature : string) :
  db_ r = Some d ->
  is_strategy_tested signature (snd (save_strategy_result time metrics r))
  = String.eqb signature (signature_of metrics) || is_strategy_tested signature r.
Proof.
  intro Hd. rewrite (save_strategy_result_initialized time metrics r d Hd). cbn [snd].
  unfold is_strategy_tested. cbn [db_]. rewrite Hd.
  destruct (String.eqb_spec signature (signature_of metrics)) as [->|Hne]; cbn [orb].
  - unfold signature_of. now rewrite saved_count.
  - now rewrite saved_count_other.
Qed.

(** What the loop has established once it has produced [results] and left
    the registry [r'], having started on the registry [r]. *)
Record deduplicated (r : t) (results : list StrategyMetrics.t) (r' : t) : Prop := {
  deduplicated_open : exists d', db_ r' = Some d';
  deduplicated_distinct : List.NoDup (List.map signature_of results);
  deduplicated_new :
    Forall (fun metrics => is_strategy_tested (signature_of metrics) r = false) results;
  deduplicated_recorded :
    Forall (fun metrics => is_strategy_tested (signature_of metrics) r' = true) results;
  deduplicated_kept :
    forall signature,
      is_strategy_tested signature r = true -> is_strategy_tested signature r' = true
}.

Lemma deduplication_loop_deduplicated (configs : list StrategyTestConfig.t)
    (data : list Bar.t) (max_attempts : Z) (r : t) (results : list StrategyMetrics.t)
    (attempts : Z) (r1 : t) :
  deduplicated r results r1 ->
  let '(results', r') := deduplication_loop configs data max_attempts results attempts r1 in
  deduplicated r results' r' /\
  (List.length results' <= List.length results + List.length configs)%nat /\
  exists tested,
    results' = results ++ List.map (fun config => fst (test_strategy config data)) tested /\
    List.incl tested configs.
Proof.
  revert results attempts r1.
  induction configs as [|config configs IH]; intros results attempts r1 H.
  - cbn. split; [exact H|]. split; [lia|]. exists [].
    cbn. rewrite List.app_nil_r. split; [reflexivity | apply List.incl_refl].
  - cbn [SmartStrategyTester.deduplication_loop].
    destruct (attempts >=? max_attempts)%Z.
    { split; [exact H|]. split; [cbn; lia|]. exists [].
      cbn. rewrite List.app_nil_r. split; [reflexivity | intros x []]. }
    set (signature := generate_strategy_signature (StrategyTestConfig.parameters config)).
    destruct (is_strategy_tested signature r1) eqn:Etested.
    { specialize (IH results (attempts + 1)%Z r1 H).
      destruct (deduplication_loop configs data max_attempts results (attempts + 1) r1)
        as [results' r'].
      destruct IH as (Hd & Hlen & tested & Hres & Hincl).
      split; [exact Hd|]. split; [cbn; lia|].
      exists tested. split; [exact Hres|]. now apply List.incl_tl. }
    set (metrics := fst (test_strategy config data)).
    assert (Hsig : signature_of metrics = signature).
    { unfold signature_of, metrics. now rewrite test_strategy_parameters. }
    destruct H as [[d1 Hd1] Hdistinct Hnew Hrecorded Hkept].
    pose proof (save_strategy_result_initialized (now attempts) metrics r1 d1 Hd1) as Hsave.
    pose proof (fun s => save_strategy_result_tested (now attempts) metrics r1 d1 s Hd1)
      as Htested.
    destruct (save_strategy_result (now attempts) metrics r1) as [ok r2].
    cbn [snd] in Htested. injection Hsave as _ Hr2.
    assert (H2 : deduplicated r (results ++ [metrics]) r2).
    { constructor.
      - exists (saved (now attempts) metrics d1). now rewrite Hr2.
      - rewrite List.map_app. cbn [List.map]. apply NoDup_snoc; [exact Hdistinct|].
        intro Hin. apply List.in_map_iff in Hin. destruct Hin as (m & Hm & Hin).
        rewrite List.Forall_forall in Hrecorded. specialize (Hrecorded m Hin).
        rewrite Hm, Hsig in Hrecorded. congruence.
      - apply List.Forall_app. split; [exact Hnew|]. constructor; [|constructor].
        rewrite Hsig.
        destruct (is_strategy_tested signature r) eqn:E; [|reflexivity].
        apply Hkept in E. congruence.
      - apply List.Forall_app. split.
        + eapply List.Forall_impl; [|exact Hrecorded].
          intros m Hm. cbn beta in *. rewrite Htested, Hm. apply orb_true_r.
        + constructor; [|constructor]. rewrite Htested, String.eqb_refl. reflexivity.
      - intros s Hs. rewrite Htested, (Hkept s Hs). apply orb_true_r. }
    specialize (IH (results ++ [metrics]) (attempts + 1)%Z r2 H2).
    destruct (deduplication_loop configs data max_attempts (results ++ [metrics])
                (attempts + 1) r2) as [results' r'].
    destruct IH as (Hd & Hlen & tested & Hres & Hincl).
    split; [exact Hd|]. split.
    { rewrite List.length_app in Hlen. cbn in *. lia. }
    exists (config :: tested). split.
    + rewrite Hres, <- List.app_assoc. reflexivity.
    + intros x [<-|Hx]; [now left | right; now apply Hincl].
Qed.

(** X19.  On an open registry [test_strategies_with_deduplication] tests no
    signature twice: the results have pairwise distinct signatures, none of
    them was in the registry before and all of them are in it afterwards;
    what was in the registry stays in it; and every result is the outcome of
    [test_strategy] on one of the configurations, of which there are at
    least as many as results. *)
Theorem deduplication_tests_each_signature_once (configs : list StrategyTestConfig.t)
    (data : list Bar.t) (max_attempts : Z) (r : t) (d : Database) :
  db_ r = Some d ->
  let '(results, r') := test_strategies_with_deduplication configs data max_attempts r in
  List.NoDup (List.map signature_of results) /\
  Forall (fun metrics =>
            is_strategy_tested (signature_of metrics) r = false /\
            is_strategy_tested (signature_of metrics) r' = true /\
            exists config,
              List.In config configs /\ metrics = fst (test_strategy config data))
    results /\
  (forall signature,
     is_strategy_tested signature r = true -> is_strategy_tested signature r' = true) /\
  (List.length results <= List.length configs)%nat.
Proof.
  intro Hd. unfold SmartStrategyTester.test_strategies_with_deduplication.
  assert (H0 : deduplicated r [] r).
  { constructor; [now exists d | constructor | constructor | constructor | auto]. }
  pose proof (deduplication_loop_deduplicated configs data max_attempts r [] 0%Z r H0) as H.
  destruct (deduplication_loop configs data max_attempts [] 0 r) as [results r'].
  destruct H as ([_ Hdistinct Hnew Hrecorded Hkept] & Hlen & tested & Hres & Hincl).
  split; [exact Hdistinct|]. split; [|split; [exact Hkept | cbn in Hlen; lia]].
  rewrite List.Forall_forall in *. intros m Hm.
  split; [now apply Hnew|]. split; [now apply Hrecorded|].
  cbn [app] in Hres. rewrite Hres in Hm.
  apply List.in_map_iff in Hm. destruct Hm as (config & <- & Hin).
  exists config. split; [now apply Hincl | reflexivity].
Qed.

End DeduplicationProperties.

(** The same configuration submitted twice is tested once. *)
Lemma deduplication_tests_each_signature_once_witness :
  List.NoDup
    (List.map signature_of
       (fst (SmartStrategyTester.test_strategies_with_deduplication identity_sqrt no_rsi
               no_macd (fun attempt => attempt) [sma_1_2; sma_1_2] three_rising_bars 1000
               fresh_registry))).
Proof.
  pose proof (deduplication_tests_each_signature_once identity_sqrt no_rsi no_macd
                (fun attempt => attempt) [sma_1_2; sma_1_2] three_rising_bars 1000
                fresh_registry StrategyRegistry.empty_database eq_refl) as H.
  destruct (SmartStrategyTester.test_strategies_with_deduplication identity_sqrt no_rsi
              no_macd (fun attempt => attempt) [sma_1_2; sma_1_2] three_rising_bars 1000
              fresh_registry) as [results r'].
  exact (proj1 H).
Defined.

(** ** Random parameters *)

Lemma between_ends (first second u : Q) :
  first <= second -> 0 <= u <= 1 ->
  first <= first + (second - first) * u <= second.
Proof.
  intros Hle [H0 H1].
  assert (Ha : 0 <= (second - first) * u) by (apply Qmult_le_0_compat; lra).
  assert (Hb : (second - first) * u <= (second - first) * 1)
    by (apply Qmult_le_nonneg_l; lra).
  lra.
Qed.

Section RandomProperties.

Variable RAND_MAX : Z.
Variable rand_values : nat -> Z.

Local Abbreviation rand_unit := (Random.rand_unit RAND_MAX rand_values).
Local Abbreviation generate_random_parameters :=
  (Random.generate_random_parameters RAND_MAX rand_values).
Local Abbreviation generate_exploration_parameters :=
  (ExplorationManager.generate_exploration_parameters RAND_MAX rand_values).
Local Abbreviation mutate_around_successful :=
  (ExplorationManager.mutate_around_successful RAND_MAX rand_values).
Local Abbreviation generate_sma_configs := (Random.generate_sma_configs rand_values).

(** A parameter drawn for a range whose ends are in order lies between
    them. *)
Definition within (range : Q * Q) (param : Q) : Prop :=
  fst range <= snd range -> fst range <= param <= snd range.

Lemma rand_unit_range (drawn : nat) :
  (0 < RAND_MAX)%Z -> (forall i, (0 <= rand_values i <= RAND_MAX)%Z) ->
  0 <= fst (rand_unit drawn) <= 1 /\ snd (rand_unit drawn) = S drawn.
Proof.
  intros Hmax Hrand. unfold Random.rand_unit, Random.rand. cbn [fst snd].
  split; [|reflexivity].
  specialize (Hrand drawn). unfold to_double.
  assert (H0 : 0 < inject_Z RAND_MAX)
    by (change 0 with (inject_Z 0); rewrite <- Zlt_Qlt; lia).
  assert (H1 : 0 <= inject_Z (rand_values drawn))
    by (change 0 with (inject_Z 0); rewrite <- Zle_Qle; lia).
  assert (H2 : inject_Z (rand_values drawn) <= inject_Z RAND_MAX)
    by (rewrite <- Zle_Qle; lia).
  split.
  - apply Qle_shift_div_l; [exact H0 | lra].
  - apply Qle_shift_div_r; [exact H0 | lra].
Qed.

Lemma generate_random_parameters_fold (ranges : list (Q * Q)) (params : list Q)
    (drawn : nat) :
  (0 < RAND_MAX)%Z -> (forall i, (0 <= rand_values i <= RAND_MAX)%Z) ->
  exists new,
    for_each ranges
      (fun range '(params, drawn) =>
         let '(u, drawn) := rand_unit drawn in
         let param := fst range + (snd range - fst range) * u in
         (params ++ [param], drawn))
      (params, drawn)
    = (params ++ new, (drawn + List.length ranges)%nat) /\
    Forall2 within ranges new.
Proof.
  intros Hmax Hrand. revert params drawn.
  induction ranges as [|range ranges IH]; intros params drawn.
  - exists []. cbn. rewrite List.app_nil_r, Nat.add_0_r. split; [reflexivity | constructor].
  - unfold for_each in *. cbn [List.fold_left].
    destruct (rand_unit_range drawn Hmax Hrand) as [Hu Hdrawn].
    destruct (rand_unit drawn) as [u drawn']. cbn [fst snd] in *. subst drawn'.
    destruct (IH (params ++ [fst range + (snd range - fst range) * u]) (S drawn))
      as (new & Hnew & Hall).
    exists ((fst range + (snd range - fst range) * u) :: new).
    rewrite Hnew, <- List.app_assoc. cbn [app List.length].
    split; [f_equal; lia|].
    constructor; [|exact Hall]. intro Hle. now apply between_ends.
Qed.


(** *** Mutation *)

(** The value at index [i] is the base value or lies in the range of the
    index. *)
Definition kept_or_clamped (base_params : list Q) (ranges : list (Q * Q)) (i : nat) (x : Q)
  : Prop :=
  base_params !! i = Some x \/
  exists range, ranges !! i = Some range /\ within range x.

Lemma clamp_within (range : Q * Q) (value : Q) :
  within range (fmax (fst range) (fmin (snd range) value)).
Proof.
  intro Hle. split; [apply fmax_le_l|].
  apply fmax_lub; [exact Hle | apply fmin_le_l].
Qed.

Lemma mutate_fold (base_params : list Q) (ranges : list (Q * Q)) (k a : nat)
    (mutated : list Q) (drawn : nat) :
  (a + k <= List.length base_params)%nat ->
  (List.length base_params <= List.length ranges)%nat ->
  List.length mutated = List.length base_params ->
  (forall i x, mutated !! i = Some x -> kept_or_clamped base_params ranges i x) ->
  let '(mutated', _) :=
    for_each (List.seq a k)
      (fun i '(mutated_params, drawn) =>
         let '(rand_val, drawn) := rand_unit drawn in
         if rand_val <? 0.3 then
           let '(u, drawn) := rand_unit drawn in
           let mutation := -0.1 + 0.2 * u in
           let range := List.nth i ranges (0, 0) in
           let value := List.nth i base_params 0 + (snd range - fst range) * mutation in
           let value := fmax (fst range) (fmin (snd range) value) in
           (<[i := value]> mutated_params, drawn)
         else (mutated_params, drawn))
      (mutated, drawn) in
  List.length mutated' = List.length base_params /\
  forall i x, mutated' !! i = Some x -> kept_or_clamped base_params ranges i x.
Proof.
  revert a mutated drawn. induction k as [|k IH]; intros a mutated drawn Hk Hr Hlen Hall.
  - cbn. auto.
  - unfold for_each in *. cbn [List.seq List.fold_left].
    destruct (rand_unit drawn) as [rand_val drawn1].
    destruct (rand_val <? 0.3).
    + destruct (rand_unit drawn1) as [u drawn2].
      apply IH; [lia | exact Hr | now rewrite length_insert|].
      intros i x Hx. apply list_lookup_insert_Some in Hx.
      destruct Hx as [(<- & <- & Hi)|[Hne Hx]]; [|now apply Hall].
      right. exists (List.nth a ranges (0, 0)). split; [|apply clamp_within].
      destruct (nth_lookup_or_length ranges a (0, 0)) as [H|H]; [exact H | lia].
    + apply IH; [lia | exact Hr | exact Hlen | exact Hall].
Qed.

(** X21.  [mutate_around_successful] returns as many parameters as it was
    given, and each of them is either the base parameter at its index or a
    value clamped into the range of its index (between the ends of the
    range when these are in order), whatever [rand()] returns. *)
Theorem mutated_parameters_are_kept_or_clamped (base_params : list Q)
    (ranges : list (Q * Q)) (drawn : nat) :
  (List.length base_params <= List.length ranges)%nat ->
  let mutated := fst (mutate_around_successful base_params ranges drawn) in
  List.length mutated = List.length base_params /\
  forall i x, mutated !! i = Some x -> kept_or_clamped base_params ranges i x.
Proof.
  intro Hr. cbn zeta.
  pose proof (mutate_fold base_params ranges (List.length base_params) 0 base_params drawn
                ltac:(lia) Hr eq_refl) as H.
  change (for_each _ _ _) with (mutate_around_successful base_params ranges drawn) in H.
  destruct (mutate_around_successful base_params ranges drawn) as [mutated drawn'].
  cbn [fst]. apply H. intros i x Hx. now left.
Qed.

(** *** SMA configurations *)

(** What [generate_sma_configs] promises of a configuration. *)
Definition sma_config_in (short_min short_max long_min long_max : Z)
    (config : StrategyTestConfig.t) : Prop :=
  StrategyTestConfig.strategy_name config = "SMA"%string /\
  exists short_win long_win fee,
    StrategyTestConfig.parameters config = [to_double short_win; to_double long_win; fee] /\
    (short_win <= long_win)%Z /\
    (Z.min short_min long_min <= short_win)%Z /\
    (long_win <= Z.max short_max long_max)%Z /\
    0.0001 <= fee <= 0.00109.

Lemma for_each_seq_invariant {S : Type} (body : nat -> S -> S) (I : nat -> S -> Prop)
    (k a : nat) (init : S) :
  I 0%nat init -> (forall i j st, I j st -> I (Datatypes.S j) (body i st)) ->
  I k (for_each (List.seq a k) body init).
Proof.
  intros H0 Hstep.
  assert (H : forall a st j, I j st -> I (j + k)%nat (for_each (List.seq a k) body st)).
  { clear H0. induction k as [|k IH]; intros a' st j Hj.
    - cbn. now rewrite Nat.add_0_r.
    - unfold for_each in *. cbn [List.seq List.fold_left].
      replace (j + Datatypes.S k)%nat with (Datatypes.S j + k)%nat by lia.
      apply IH, Hstep, Hj. }
  exact (H a init 0%nat H0).
Qed.

(** X22.  For [short_min <= short_max] and [long_min <= long_max], with
    [rand()] returning non-negative numbers, [generate_sma_configs] returns
    [num_configs] configurations from three draws each; each is named
    [SMA] and has three parameters: a short window that is not above the
    long window, both between the smaller minimum and the larger maximum,
    and a fee between 0.0001 and 0.00109. *)
Theorem generated_sma_configs_are_ordered (num_configs short_min short_max long_min
    long_max : Z) (drawn : nat) :
  (short_min <= short_max)%Z -> (long_min <= long_max)%Z ->
  (forall i, (0 <= rand_values i)%Z) ->
  let generated :=
    generate_sma_configs num_configs short_min short_max long_min long_max drawn in
  List.length (fst generated) = Z.to_nat num_configs /\
  snd generated = (drawn + 3 * Z.to_nat num_configs)%nat /\
  Forall (sma_config_in short_min short_max long_min long_max) (fst generated).
Proof.
  intros Hs Hl Hrand. cbn zeta. unfold Random.generate_sma_configs.
  apply (for_each_seq_invariant _
           (fun n st =>
              List.length (fst st) = n /\ snd st = (drawn + 3 * n)%nat /\
              Forall (sma_config_in short_min short_max long_min long_max) (fst st))).
  { cbn. repeat split; [lia | constructor]. }
  intros _ n [configs drawn0] (Hlen & Hdrawn & Hall). cbn [fst snd] in *.
  unfold Random.rand.
  pose proof (Z.rem_bound_pos (rand_values drawn0) (short_max - short_min + 1)
                (Hrand _) ltac:(lia)) as H1.
  pose proof (Z.rem_bound_pos (rand_values (S drawn0)) (long_max - long_min + 1)
                (Hrand _) ltac:(lia)) as H2.
  pose proof (Z.rem_bound_pos (rand_values (S (S drawn0))) 100 (Hrand _) ltac:(lia)) as H3.
  set (fee := 0.0001 + to_double (Z.rem (rand_values (S (S drawn0))) 100) * 0.00001).
  assert (Hfee : 0.0001 <= fee <= 0.00109).
  { unfold fee, to_double.
    assert (Ha : 0 <= inject_Z (Z.rem (rand_values (S (S drawn0))) 100))
      by (change 0 with (inject_Z 0); rewrite <- Zle_Qle; lia).
    assert (Hb : inject_Z (Z.rem (rand_values (S (S drawn0))) 100) <= 99)
      by (change 99 with (inject_Z 99); rewrite <- Zle_Qle; lia).
    lra. }
  destruct (_ >=? _)%Z eqn:E;
    [rewrite Z.geb_leb in E; apply Z.leb_le in E
    |rewrite Z.geb_leb in E; apply Z.leb_gt in E];
    cbn [fst snd]; rewrite List.length_app; cbn [List.length];
    (split; [lia|]); (split; [lia|]);
    (apply List.Forall_app; split; [exact Hall|]); (constructor; [|constructor]);
    (split; [reflexivity|]); eexists; eexists; eexists;
    (split; [reflexivity|]); repeat split; try lia; apply Hfee.
Qed.

End RandomProperties.

(** A generator that alternates between its smallest and its largest
    number. *)
Definition alternating_rand (i : nat) : Z := if Nat.even i then 0%Z else 2147483647%Z.

Lemma alternating_rand_range (i : nat) : (0 <= alternating_rand i <= 2147483647)%Z.
Proof. unfold alternating_rand. destruct (Nat.even i); lia. Defined.


Lemma mutated_parameters_are_kept_or_clamped_witness :
  List.length
    (fst (ExplorationManager.mutate_around_successful 2147483647 alternating_rand
            [10; 40; 0.0005] [(5, 50); (20, 200); (0.0001, 0.001)] 0))
  = 3%nat.
Proof.
  refine (proj1 (mutated_parameters_are_kept_or_clamped 2147483647 alternating_rand
                   [10; 40; 0.0005] [(5, 50); (20, 200); (0.0001, 0.001)] 0 _)).
  cbn. lia.
Defined.

Lemma generated_sma_configs_are_ordered_witness :
  Forall (sma_config_in 5 50 20 200)
    (fst (Random.generate_sma_configs alternating_rand 3 5 50 20 200 0)).
Proof.
  refine (proj2 (proj2 (generated_sma_configs_are_ordered alternating_rand 3 5 50 20 200 0
                          _ _ _))).
  - lia.
  - lia.
  - intro i. apply alternating_rand_range.
Defined.

(** ** Strategy discovery *)

Section DiscoveryProperties.

Import StrategyRegistry SmartStrategyTester.

Variable sqrt : Q -> Q.
Variable make_rsi_strategy : Z -> Q -> Q -> Z -> Q -> string -> Strategy.t.
Variable make_macd_strategy : Z -> Z -> Z -> Q -> Q -> Q -> string -> Strategy.t.
Variable now : Z -> Z.
Variable RAND_MAX : Z.
Variable rand_values : nat -> Z.

Local Abbreviation test_strategy :=
  (StrategyTester.test_strategy sqrt make_rsi_strategy make_macd_strategy).
Local Abbreviation discovery_loop :=
  (discovery_loop sqrt make_rsi_strategy make_macd_strategy now RAND_MAX rand_values).
Local Abbreviation discover_strategies :=
  (discover_strategies sqrt make_rsi_strategy make_macd_strategy now RAND_MAX rand_values).
Local Abbreviation generate_exploration_parameters :=
  (ExplorationManager.generate_exploration_parameters RAND_MAX rand_values).

(** [test_strategy] returns the name it was given. *)
Lemma test_strategy_name (config : StrategyTestConfig.t) (data : list Bar.t) :
  StrategyMetrics.strategy_name (fst (test_strategy config data))
  = StrategyTestConfig.strategy_name config.
Proof.
  unfold StrategyTester.test_strategy.
  destruct (StrategyTester.validate_chronological_order data); [|reflexivity].
  destruct (StrategyTester.validate_data_integrity data); [|reflexivity].
  destruct (StrategyTester.validate_ohlc_relationships data); [|reflexivity].
  destruct (StrategyTester.create_strategy _ _ _ _ _ _) as [strategy|]; [|reflexivity].
  destruct (StrategyTester.run_strategy_simulation strategy data) as [[pvs final] evs].
  destruct pvs as [|pv pvs]; [reflexivity|].
  destruct (StrategyTester.trade_statistics (Strategy.trades final)) as [[[w l] n] c].
  reflexivity.
Qed.

(** One parameter is generated per range. *)
Lemma generate_exploration_parameters_length (ranges : list (Q * Q)) (registry : t)
    (drawn : nat) :
  List.length (fst (generate_exploration_parameters ranges registry drawn))
  = List.length ranges.
Proof.
  assert (H : forall params drawn0,
    List.length
      (fst (for_each ranges
              (fun range '(params, drawn) =>
                 let '(u, drawn) := Random.rand_unit RAND_MAX rand_values drawn in
                 let random_value := fst range + (snd range - fst range) * u in
                 (params ++ [random_value], drawn))
              (params, drawn0)))
    = (List.length params + List.length ranges)%nat).
  { induction ranges as [|range ranges IH]; intros params drawn0.
    - cbn. lia.
    - unfold for_each in *. cbn [List.fold_left].
      destruct (Random.rand_unit RAND_MAX rand_values drawn0) as [u drawn1].
      rewrite IH, List.length_app. cbn. lia. }
  unfold ExplorationManager.generate_exploration_parameters.
  destruct (StrategyRegistryQueries.get_underexplored_regions registry);
    exact (H [] drawn).
Qed.

(** The exploration update leaves the strategies alone. *)
Lemma update_exploration_stats_tested (time : Z) (parameters : list Q) (score : Q) (r : t)
    (signature : string) :
  is_strategy_tested signature
    (ExplorationManager.update_exploration_stats time parameters score r)
  = is_strategy_tested signature r /\
  (forall d, db_ r = Some d ->
     exists d', db_ (ExplorationManager.update_exploration_stats time parameters score r)
                = Some d').
Proof.
  unfold ExplorationManager.update_exploration_stats, update_exploration_region,
    is_strategy_tested.
  destruct (db_ r) as [d|] eqn:Hd.
  - cbn [update_region is_done negb snd db_]. split; [reflexivity|].
    intros d0 _. eauto.
  - cbn [snd]. rewrite Hd. split; [reflexivity|]. intros d0 H. discriminate.
Qed.

(** What [discover_strategies] promises of a result: an SMA strategy whose
    windows are whole numbers, the short one at least 2 and the long one at
    least 5 above it. *)
Definition discovered (metrics : StrategyMetrics.t) : Prop :=
  StrategyMetrics.strategy_name metrics = "SMA"%string /\
  exists short_win long_win fee,
    StrategyMetrics.parameters metrics = [to_double short_win; to_double long_win; fee] /\
    (2 <= short_win)%Z /\ (short_win + 5 <= long_win)%Z.

Lemma discovery_loop_spec (fuel : nat) (data : list Bar.t)
    (target_count max_total_attempts : Z) (r : t) (results : list StrategyMetrics.t)
    (attempts : Z) (r1 : t) (drawn : nat) :
  deduplicated r results r1 -> Forall discovered results ->
  let '(results', r', _) :=
    discovery_loop fuel data target_count max_total_attempts results attempts r1 drawn in
  deduplicated r results' r' /\ Forall discovered results' /\
  (size results' <= Z.max (size results) (size_t_of_int target_count))%Z /\
  (size results' - size results <= Z.max 0 (max_total_attempts - attempts))%Z.
Proof.
  revert results attempts r1 drawn.
  induction fuel as [|fuel IH]; intros results attempts r1 drawn H Hall.
  - cbn [SmartStrategyTester.discovery_loop].
    split; [exact H|]. split; [exact Hall|]. split; lia.
  - cbn [SmartStrategyTester.discovery_loop].
    destruct (size results <? size_t_of_int target_count)%Z eqn:Etarget;
      [|cbn [andb]; split; [exact H|]; split; [exact Hall|]; split; lia].
    destruct (attempts <? max_total_attempts)%Z eqn:Eattempts;
      [|cbn [andb]; split; [exact H|]; split; [exact Hall|]; split; lia].
    cbn [andb]. apply Z.ltb_lt in Etarget, Eattempts.
    pose proof (generate_exploration_parameters_length param_ranges r1 drawn) as Hlen.
    destruct (generate_exploration_parameters param_ranges r1 drawn) as [generated drawn1].
    cbn [fst] in Hlen.
    destruct generated as [|p0 [|p1 [|p2 [|p3 generated]]]]; try discriminate Hlen.
    change (size [p0; p1; p2] >=? 2)%Z with true. cbn iota.
    cbn [List.nth].
    set (short_win := Z.max 2 (trunc p0)).
    set (long_win := Z.max (short_win + 5) (trunc p1)).
    change (<[1%nat := to_double long_win]> (<[0%nat := to_double short_win]> [p0; p1; p2]))
      with [to_double short_win; to_double long_win; p2].
    set (parameters := [to_double short_win; to_double long_win; p2]).
    set (signature := generate_strategy_signature parameters).
    destruct (is_strategy_tested signature r1) eqn:Etested.
    { specialize (IH results (attempts + 1)%Z r1 drawn1 H Hall).
      destruct (discovery_loop fuel data target_count max_total_attempts results
                  (attempts + 1) r1 drawn1) as [[results' r'] drawn'].
      destruct IH as (Hd & Hall' & Ht & Ha).
      split; [exact Hd|]. split; [exact Hall'|]. split; lia. }
    match goal with
    | |- context [test_strategy ?c data] => set (config := c)
    end.
    set (metrics := fst (test_strategy config data)).
    assert (Hparams : StrategyMetrics.parameters metrics = parameters)
      by apply test_strategy_parameters.
    assert (Hname : StrategyMetrics.strategy_name metrics = "SMA"%string)
      by apply test_strategy_name.
    assert (Hsig : signature_of metrics = signature)
      by (unfold signature_of; now rewrite Hparams).
    destruct H as [[d1 Hd1] Hdistinct Hnew Hrecorded Hkept].
    pose proof (save_strategy_result_initialized (now attempts) metrics r1 d1 Hd1) as Hsave.
    pose proof (fun s => save_strategy_result_tested (now attempts) metrics r1 d1 s Hd1)
      as Htested.
    destruct (save_strategy_result (now attempts) metrics r1) as [ok r2].
    cbn [snd] in Htested. injection Hsave as _ Hr2.
    set (r3 := ExplorationManager.update_exploration_stats (now attempts) parameters
                 (StrategyMetrics.composite_score metrics) r2).
    assert (Hr3 : forall s, is_strategy_tested s r3
                            = String.eqb s (signature_of metrics) || is_strategy_tested s r1).
    { intro s. unfold r3.
      rewrite (proj1 (update_exploration_stats_tested _ _ _ r2 s)). apply Htested. }
    assert (H2 : deduplicated r (results ++ [metrics]) r3).
    { constructor.
      - apply (proj2 (update_exploration_stats_tested _ _ _ r2 signature)
                 (saved (now attempts) metrics d1)).
        now rewrite Hr2.
      - rewrite List.map_app. cbn [List.map]. apply NoDup_snoc; [exact Hdistinct|].
        intro Hin. apply List.in_map_iff in Hin. destruct Hin as (m & Hm & Hin).
        rewrite List.Forall_forall in Hrecorded. specialize (Hrecorded m Hin).
        rewrite Hm, Hsig in Hrecorded. congruence.
      - apply List.Forall_app. split; [exact Hnew|]. constructor; [|constructor].
        rewrite Hsig.
        destruct (is_strategy_tested signature r) eqn:E; [|reflexivity].
        apply Hkept in E. congruence.
      - apply List.Forall_app. split.
        + eapply List.Forall_impl; [|exact Hrecorded].
          intros m Hm. cbn beta in *. rewrite Hr3, Hm. apply orb_true_r.
        + constructor; [|constructor]. rewrite Hr3, String.eqb_refl. reflexivity.
      - intros s Hs. rewrite Hr3, (Hkept s Hs). apply orb_true_r. }
    assert (Hall2 : Forall discovered (results ++ [metrics])).
    { apply List.Forall_app. split; [exact Hall|]. constructor; [|constructor].
      split; [exact Hname|]. exists short_win, long_win, p2.
      split; [exact Hparams|]. unfold long_win, short_win. lia. }
    specialize (IH (results ++ [metrics]) (attempts + 1)%Z r3 drawn1 H2 Hall2).
    destruct (discovery_loop fuel data target_count max_total_attempts (results ++ [metrics])
                (attempts + 1) r3 drawn1) as [[results' r'] drawn'].
    destruct IH as (Hd & Hall' & Ht & Ha).
    rewrite size_snoc in Ht, Ha.
    split; [exact Hd|]. split; [exact Hall'|]. split; lia.
Qed.

(** The loop ends by its condition: fuel beyond the attempts that are left
    changes nothing. *)
Lemma discovery_loop_fuel (fuel extra : nat) (data : list Bar.t)
    (target_count max_total_attempts : Z) (results : list StrategyMetrics.t)
    (attempts : Z) (r1 : t) (drawn : nat) :
  (max_total_attempts - attempts <= Z.of_nat fuel)%Z ->
  discovery_loop (fuel + extra) data target_count max_total_attempts results attempts r1 drawn
  = discovery_loop fuel data target_count max_total_attempts results attempts r1 drawn.
Proof.
  revert results attempts r1 drawn.
  induction fuel as [|fuel IH]; intros results attempts r1 drawn Hfuel.
  - cbn [Nat.add SmartStrategyTester.discovery_loop].
    destruct extra as [|extra]; [reflexivity|].
    cbn [SmartStrategyTester.discovery_loop].
    destruct (attempts <? max_total_attempts)%Z eqn:E; [apply Z.ltb_lt in E; lia|].
    now rewrite andb_false_r.
  - cbn [Nat.add SmartStrategyTester.discovery_loop].
    destruct (_ && _); [|reflexivity].
    destruct (generate_exploration_parameters param_ranges r1 drawn) as [generated drawn1].
    match goal with
    | |- context [is_strategy_tested ?s r1] => destruct (is_strategy_tested s r1)
    end.
    + apply IH. lia.
    + match goal with
      | |- context [save_strategy_result ?time ?m r1] =>
          destruct (save_strategy_result time m r1) as [ok r2]
      end.
      apply IH. lia.
Qed.

(** X24.  On an open registry [discover_strategies] returns results with
    pairwise distinct signatures, none of which was in the registry before
    and all of which are in it afterwards; each result is an SMA strategy
    with whole windows, the short one at least 2 and the long one at least 5
    above it; there are at most [max_total_attempts] results, and at most
    [target_count] when that is not negative.  The loop ends by its own
    condition within [max_total_attempts] iterations. *)
Theorem discovery_returns_distinct_ordered_strategies (data : list Bar.t)
    (target_count max_total_attempts : Z) (r : t) (d : Database) (drawn : nat) :
  db_ r = Some d ->
  let '(results, r', drawn') :=
    discover_strategies data target_count max_total_attempts r drawn in
  List.NoDup (List.map signature_of results) /\
  Forall (fun metrics =>
            discovered metrics /\
            is_strategy_tested (signature_of metrics) r = false /\
            is_strategy_tested (signature_of metrics) r' = true)
    results /\
  (size results <= Z.max 0 max_total_attempts)%Z /\
  ((0 <= target_count < 2 ^ 63)%Z -> (size results <= target_count)%Z) /\
  forall fuel,
    (Z.to_nat max_total_attempts <= fuel)%nat ->
    discovery_loop fuel data target_count max_total_attempts [] 0%Z r drawn
    = (results, r', drawn').
Proof.
  intro Hd.
  assert (H0 : deduplicated r [] r).
  { constructor; [now exists d | constructor | constructor | constructor | auto]. }
  pose proof (discovery_loop_spec (Z.to_nat max_total_attempts) data target_count
                max_total_attempts r [] 0%Z r drawn H0 (List.Forall_nil _)) as H.
  assert (Hfuel : forall fuel, (Z.to_nat max_total_attempts <= fuel)%nat ->
            discovery_loop fuel data target_count max_total_attempts [] 0%Z r drawn
            = discover_strategies data target_count max_total_attempts r drawn).
  { intros fuel Hle. unfold SmartStrategyTester.discover_strategies.
    replace fuel with (Z.to_nat max_total_attempts + (fuel - Z.to_nat max_total_attempts))%nat
      by lia.
    apply discovery_loop_fuel. lia. }
  unfold SmartStrategyTester.discover_strategies in *.
  destruct (discovery_loop (Z.to_nat max_total_attempts) data target_count max_total_attempts
              [] 0 r drawn) as [[results r'] drawn'].
  destruct H as ([_ Hdistinct Hnew Hrecorded Hkept] & Hall & Ht & Ha).
  split; [exact Hdistinct|]. split; [|split; [|split; [|exact Hfuel]]].
  - rewrite List.Forall_forall in *. intros m Hm. auto.
  - change (size (@nil StrategyMetrics.t)) with 0%Z in Ha. lia.
  - intro Hrange. change (size (@nil StrategyMetrics.t)) with 0%Z in Ht.
    unfold size_t_of_int in Ht. rewrite Z.mod_small in Ht by lia. lia.
Qed.

End DiscoveryProperties.

Lemma discovery_returns_distinct_ordered_strategies_witness :
  List.NoDup
    (List.map signature_of
       (fst (fst (SmartStrategyTester.discover_strategies identity_sqrt no_rsi no_macd
                    (fun attempt => attempt) 2147483647 alternating_rand three_rising_bars
                    2 4 fresh_registry 0)))).
Proof.
  pose proof (discovery_returns_distinct_ordered_strategies identity_sqrt no_rsi no_macd
                (fun attempt => attempt) 2147483647 alternating_rand three_rising_bars
                2 4 fresh_registry StrategyRegistry.empty_database 0 eq_refl) as H.
  destruct (SmartStrategyTester.discover_strategies identity_sqrt no_rsi no_macd
              (fun attempt => attempt) 2147483647 alternating_rand three_rising_bars
              2 4 fresh_registry 0) as [[results r'] drawn'].
  exact (proj1 H).
Defined.

(** ** The tester and the books of the strategy *)

Section TesterAndBooks.

Import StrategyTester.

Variable sqrt : Q -> Q.
Variable make_rsi_strategy : Z -> Q -> Q -> Z -> Q -> string -> Strategy.t.
Variable make_macd_strategy : Z -> Z -> Z -> Q -> Q -> Q -> string -> Strategy.t.

Local Abbreviation test_strategy :=
  (test_strategy sqrt make_rsi_strategy make_macd_strategy).
Local Abbreviation create_strategy :=
  (create_strategy sqrt make_rsi_strategy make_macd_strategy).

(** The state the bar loop leaves in the object. *)
Lemma run_bars_state (data : list Bar.t) (strategy : Strategy.t) :
  snd (fst (run_bars data strategy))
  = Strategy.call strategy
      (fun _ => for_each data (Strategy.on_bar strategy) (Strategy.self strategy)).
Proof.
  unfold run_bars, for_each.
  assert (H : forall pvs (st0 : Strategy.state strategy) evs,
    snd (fst (List.fold_left
      (fun st1 x =>
         (fun (bar : Bar.t) '(portfolio_values, strategy, events) =>
           let strategy := Strategy.call strategy (Strategy.on_bar strategy bar) in
           (portfolio_values ++ [Strategy.portfolio_value strategy], strategy,
            events ++ [OnBar bar])) x st1)
      data (pvs, Strategy.call strategy (fun _ => st0), evs)))
    = Strategy.call strategy
        (fun _ => List.fold_left (fun st x => Strategy.on_bar strategy x st) data st0)).
  { induction data as [|b data IH]; intros pvs st0 evs; [reflexivity|].
    cbn [List.fold_left]. exact (IH _ (Strategy.on_bar strategy b st0) _). }
  destruct strategy as [state self m1 m2 m3 m4 m5 m6].
  exact (H [] self []).
Qed.

(** The state of an SMA strategy once the simulation has run. *)
Lemma final_strategy_sma (sw lw : Z) (fee : Q) (symbol : string) (data : list Bar.t) :
  final_strategy (make_sma_strategy sqrt sw lw fee symbol) data
  = Strategy.call (make_sma_strategy sqrt sw lw fee symbol)
      (fun _ =>
         SmaCrossStrategy.on_finish sqrt
           (run sqrt data (SmaCrossStrategy.on_start (SmaCrossStrategy.make sw lw fee symbol)))).
Proof.
  unfold final_strategy, run_strategy_simulation.
  pose proof (run_bars_state data
                (Strategy.call (make_sma_strategy sqrt sw lw fee symbol)
                   (Strategy.on_start (make_sma_strategy sqrt sw lw fee symbol)))) as H.
  destruct (run_bars data _) as [[pvs o] evs]. cbn [fst snd] in H. subst o.
  repeat break_if; reflexivity.
Qed.

(** The wins less the losses of the statistics loop are the recorded
    results. *)
Lemma statistics_fold_pnl (trades : list Trade.t) (w l : Q) (n c : Z) :
  let '(w', l', _, _) :=
    List.fold_left (fun acc tr => statistics_step tr acc) trades (w, l, n, c) in
  w' - l' == w - l + total_pnl trades.
Proof.
  revert w l n c. induction trades as [|tr trades IH]; intros w l n c.
  - cbn. ring.
  - cbn [List.fold_left total_pnl]. unfold statistics_step at 2, Trade.is_exit.
    destruct (Trade.type tr).
    + specialize (IH w l n c).
      destruct (List.fold_left _ trades _) as [[[w' l'] n'] c']. rewrite IH. ring.
    + destruct (Trade.pnl tr >? 0) eqn:E1; [|destruct (Trade.pnl tr <? 0) eqn:E2].
      * specialize (IH (w + Trade.pnl tr) l (n + 1)%Z (c + 1)%Z).
        destruct (List.fold_left _ trades _) as [[[w' l'] n'] c']. rewrite IH. ring.
      * specialize (IH w (l + Qabs (Trade.pnl tr)) n (c + 1)%Z).
        destruct (List.fold_left _ trades _) as [[[w' l'] n'] c']. rewrite IH.
        reflect_Q. rewrite (Qabs_neg (Trade.pnl tr)) by lra. ring.
      * specialize (IH w l n (c + 1)%Z).
        destruct (List.fold_left _ trades _) as [[[w' l'] n'] c']. rewrite IH.
        reflect_Q. assert (H0 : Trade.pnl tr == 0) by lra. rewrite H0. ring.
Qed.

Lemma total_pnl_no_exit (trades : list Trade.t) :
  count_exits trades = 0%Z -> total_pnl trades = 0.
Proof.
  induction trades as [|tr trades IH]; intro H; [reflexivity|].
  rewrite count_exits_cons in H. pose proof (count_exits_nonneg trades).
  cbn [total_pnl]. destruct (Trade.is_exit tr); [lia|].
  rewrite IH by lia. reflexivity.
Qed.


End TesterAndBooks.


(** ** Ranking a batch *)

Section RankingProperties.

Import StrategyTesterBatch.

Variable sqrt : Q -> Q.
Variable make_rsi_strategy : Z -> Q -> Q -> Z -> Q -> string -> Strategy.t.
Variable make_macd_strategy : Z -> Z -> Z -> Q -> Q -> Q -> string -> Strategy.t.

Local Abbreviation test_strategy :=
  (StrategyTester.test_strategy sqrt make_rsi_strategy make_macd_strategy).
Local Abbreviation test_multiple_strategies :=
  (test_multiple_strategies sqrt make_rsi_strategy make_macd_strategy).

(** A list in which no result has a lower score than a later one. *)
Definition ranked (v : list StrategyMetrics.t) : Prop :=
  forall (i j : nat) (a b : StrategyMetrics.t),
    (i < j)%nat -> v !! i = Some a -> v !! j = Some b ->
    StrategyMetrics.composite_score b <= StrategyMetrics.composite_score a.

Lemma ranked_cons (x : StrategyMetrics.t) (v : list StrategyMetrics.t) :
  ranked v ->
  (forall b, List.In b v ->
     StrategyMetrics.composite_score b <= StrategyMetrics.composite_score x) ->
  ranked (x :: v).
Proof.
  intros Hv Hx i j a b Hij Ha Hb.
  destruct j as [|j]; [lia|]. cbn in Hb.
  destruct i as [|i]; cbn in Ha.
  - injection Ha as <-. apply Hx. apply list_elem_of_In. eapply list_elem_of_lookup_2, Hb.
  - apply (Hv i j a b); [lia | exact Ha | exact Hb].
Qed.

Lemma ranked_tail (x : StrategyMetrics.t) (v : list StrategyMetrics.t) :
  ranked (x :: v) ->
  ranked v /\
  forall b, List.In b v ->
    StrategyMetrics.composite_score b <= StrategyMetrics.composite_score x.
Proof.
  intro H. split.
  - intros i j a b Hij Ha Hb. apply (H (S i) (S j) a b); [lia | exact Ha | exact Hb].
  - intros b Hb. apply list_elem_of_In, list_elem_of_lookup_1 in Hb.
    destruct Hb as [j Hj]. apply (H 0%nat (S j) x b); [lia | reflexivity | exact Hj].
Qed.

Lemma insert_ranked_permutation (x : StrategyMetrics.t) (v : list StrategyMetrics.t) :
  Permutation (insert_ranked x v) (x :: v).
Proof.
  induction v as [|y v IH]; cbn [insert_ranked]; [reflexivity|].
  break_if; [reflexivity|]. rewrite IH. apply perm_swap.
Qed.

Lemma insert_ranked_ranked (x : StrategyMetrics.t) (v : list StrategyMetrics.t) :
  ranked v -> ranked (insert_ranked x v).
Proof.
  induction v as [|y v IH]; intro H; cbn [insert_ranked].
  - apply ranked_cons; [exact H | intros b []].
  - destruct (ranked_tail y v H) as [Hv Hy].
    break_if; reflect_Q.
    + apply ranked_cons; [exact H|].
      intros b [<-|Hb]; [lra|]. specialize (Hy b Hb). lra.
    + apply ranked_cons; [now apply IH|].
      intros b Hb.
      apply (Permutation_in _ (insert_ranked_permutation x v)) in Hb.
      destruct Hb as [<-|Hb]; [exact E | now apply Hy].
Qed.

Lemma sort_by_score_spec (v : list StrategyMetrics.t) :
  Permutation (sort_by_score v) v /\ ranked (sort_by_score v).
Proof.
  unfold sort_by_score. induction v as [|x v [IHp IHr]]; cbn [List.fold_right].
  - split; [reflexivity|]. intros i j a b _ Ha. destruct i; discriminate.
  - split; [|now apply insert_ranked_ranked].
    rewrite insert_ranked_permutation. now constructor.
Qed.

Lemma push_back_loop {A B : Type} (f : A -> B) (v : list A) (acc : list B) :
  for_each v (fun x results => results ++ [f x]) acc = acc ++ List.map f v.
Proof.
  revert acc. induction v as [|x v IH]; intro acc.
  - cbn. now rewrite List.app_nil_r.
  - unfold for_each in *. cbn [List.fold_left List.map]. rewrite IH, <- List.app_assoc.
    reflexivity.
Qed.

(** X26.  [test_multiple_strategies] returns the results of [test_strategy]
    on the configurations, rearranged so that no result has a lower
    composite score than a later one; and the strategies
    [select_top_strategies] takes from that list, for a count that is not
    negative, are as many as asked for or all of them, each with a score at
    least that of every strategy left out. *)
Theorem top_strategies_have_the_highest_scores (configs : list StrategyTestConfig.t)
    (data : list Bar.t) (num_top : Z) :
  (0 <= num_top)%Z ->
  let results := test_multiple_strategies configs data in
  let top := select_top_strategies results num_top in
  let count := Z.to_nat (Z.min num_top (size configs)) in
  Permutation results (List.map (fun config => fst (test_strategy config data)) configs) /\
  ranked results /\
  top = List.firstn count results /\ List.length top = count /\
  forall a b,
    List.In a top -> List.In b (List.skipn count results) ->
    StrategyMetrics.composite_score b <= StrategyMetrics.composite_score a.
Proof.
  intros Hn. cbn zeta.
  unfold StrategyTesterBatch.test_multiple_strategies.
  rewrite (push_back_loop (fun config => fst (test_strategy config data)) configs []).
  cbn [app].
  set (tested := List.map (fun config => fst (test_strategy config data)) configs).
  destruct (sort_by_score_spec tested) as [Hperm Hranked].
  assert (Hsize : size (sort_by_score tested) = size configs).
  { unfold size. rewrite (Permutation_length Hperm). unfold tested.
    now rewrite List.length_map. }
  split; [exact Hperm|]. split; [exact Hranked|].
  unfold select_top_strategies. rewrite Hsize.
  set (count := Z.to_nat (Z.min num_top (size configs))).
  assert (Hcount : (count <= List.length (sort_by_score tested))%nat).
  { unfold size in Hsize. subst count. unfold size. lia. }
  split; [reflexivity|]. split; [now apply List.firstn_length_le|].
  intros a b Ha Hb.
  apply list_elem_of_In, list_elem_of_lookup_1 in Ha, Hb.
  destruct Ha as [i Hi]. destruct Hb as [j Hj].
  assert (Hi' : (i < count)%nat).
  { apply lookup_lt_Some in Hi. rewrite List.firstn_length_le in Hi by exact Hcount.
    exact Hi. }
  rewrite lookup_take_lt in Hi by exact Hi'.
  rewrite lookup_drop in Hj.
  apply (Hranked i (count + j)%nat a b); [lia | exact Hi | exact Hj].
Qed.

End RankingProperties.

Lemma top_strategies_have_the_highest_scores_witness :
  let results :=
    StrategyTesterBatch.test_multiple_strategies identity_sqrt no_rsi no_macd
      [sma_1_2; sma_1_2] three_rising_bars in
  List.length (StrategyTesterBatch.select_top_strategies results 1) = 1%nat.
Proof.
  intro results.
  destruct (top_strategies_have_the_highest_scores identity_sqrt no_rsi no_macd
              [sma_1_2; sma_1_2] three_rising_bars 1) as (_ & _ & _ & H & _).
  - lia.
  - exact H.
Defined.
